(** * par-sir: the pixel iterator of [mods/sir3d/synth/multiprocessing.py]

    A shallow embedding of the [Iterator] class: the constructor, the
    serial loop [nonmpi_work], the coordinator [mpi_master_work] and the
    agent loop [mpi_agents_work], together with the numpy routines the
    coordinator uses to partition the pixel grid.

    Python integers are [Z]; numpy integer arrays are [list Z]; the
    operations that can raise return an outcome made of the trace of
    input/output events performed so far and either an exception or a
    value. *)

From stdpp Require Import base tactics option list numbers strings.
From Stdlib Require Import ZArith QArith Lia.

Local Open Scope Z_scope.

(** ** Exceptions and the trace-and-error monad *)

Inductive exn :=
| ZeroDivisionError
| ValueError
| IndexError
| AttributeError
| NameError
| KeyError
| TypeError
| OverflowError
| Exception_ (msg : string).

Record outcome (E A : Type) := Outcome {
  trace : list E;
  result : exn + A
}.
Arguments Outcome {E A} _ _.
Arguments trace {E A} _.
Arguments result {E A} _.

Definition ret {E A} (a : A) : outcome E A := Outcome [] (inr a).
Definition raise {E A} (e : exn) : outcome E A := Outcome [] (inl e).
Definition emit {E} (ev : E) : outcome E unit := Outcome [ev] (inr tt).
Definition lift {E A} (r : exn + A) : outcome E A := Outcome [] r.

Definition bind {E A B} (c : outcome E A) (k : A -> outcome E B) : outcome E B :=
  match result c with
  | inl e => Outcome (trace c) (inl e)
  | inr a => let r := k a in Outcome (trace c ++ trace r) (result r)
  end.

Notation "x <- c1 ;; c2" := (bind c1 (fun x => c2))
  (at level 100, c1 at next level, right associativity).
Notation "c1 ;;; c2" := (bind c1 (fun _ => c2))
  (at level 100, right associativity).

(** [for x in l: s = body x s], threading the loop-carried locals [s]. *)
Fixpoint for_fold {E A S} (l : list A) (s : S) (body : A -> S -> outcome E S)
  : outcome E S :=
  match l with
  | [] => ret s
  | a :: l' => s' <- body a s ;; for_fold l' s' body
  end.

Definition succeeded {E A} (c : outcome E A) : bool :=
  match result c with inr _ => true | inl _ => false end.

(** ** numpy *)

(** [np.arange(a, b)] on integers that fit the 64 bits of numpy's
    default integer, which is where its result is an array of
    integers. *)
Definition arange (a b : Z) : list Z :=
  map (fun i : nat => a + Z.of_nat i) (seq 0 (Z.to_nat (b - a))).

Definition int64 (z : Z) : bool := (- 2 ^ 63 <=? z) && (z <=? 2 ^ 63 - 1).

(** [X, Y = np.meshgrid(x, y)] followed by [X.flatten()], [Y.flatten()]:
    [X[i, j] = x[j]] and [Y[i, j] = y[i]], flattened row by row. *)
Definition meshgrid_flatten (x y : list Z) : list Z * list Z :=
  (concat (map (fun _ : Z => x) y),
   concat (map (fun yi : Z => map (fun _ : Z => yi) x) y)).

(** The sub-arrays [ary[div_points[i] : div_points[i+1]]] of
    [np.array_split], cut off the front one section at a time. *)
Fixpoint split_sections {A} (section_sizes : list nat) (ary : list A)
  : list (list A) :=
  match section_sizes with
  | [] => []
  | n :: rest => take n ary :: split_sections rest (drop n ary)
  end.

(** [Neach_section, extras = divmod(Ntotal, Nsections)]; the first
    [extras] sections hold [Neach_section + 1] items and the others
    [Neach_section]. *)
Definition section_sizes (Ntotal Nsections : nat) : list nat :=
  let Neach_section := (Ntotal `div` Nsections)%nat in
  let extras := (Ntotal `mod` Nsections)%nat in
  replicate extras (S Neach_section)
  ++ replicate (Nsections - extras)%nat Neach_section.

(** [np.array_split(ary, Nsections)]: [ValueError] unless
    [Nsections > 0]. *)
Definition array_split {A} (ary : list A) (Nsections : Z)
  : exn + list (list A) :=
  if Nsections <=? 0 then inl ValueError
  else inr (split_sections (section_sizes (length ary) (Z.to_nat Nsections))
              ary).

(** Python's [a // b] on integers. *)
Definition floordiv (a b : Z) : exn + Z :=
  if b =? 0 then inl ZeroDivisionError else inr (a `div` b).

(** An integer index into an axis of length [n]: negative indices count
    from the end, anything outside [-n, n) is an [IndexError]. *)
Definition norm_index (n i : Z) : option Z :=
  if (0 <=? i) && (i <? n) then Some i
  else if (- n <=? i) && (i <? 0) then Some (i + n)
  else None.

(** ** The pixel partition of [mpi_master_work] (lines 236-255) *)

Definition axis_range (r : option (Z * Z)) (n : Z) : list Z :=
  match r with
  | Some (lo, hi) => arange lo hi
  | None => arange 0 n
  end.

Record partition := Partition {
  p_n_pixels : Z;
  p_n_batches : Z;
  divX : list (list Z);
  divY : list (list Z)
}.

Definition make_partition (nx ny : Z) (rangex rangey : option (Z * Z))
    (batch : Z) : exn + partition :=
  let x := axis_range rangex nx in
  let y := axis_range rangey ny in
  let n_pixels := Z.of_nat (length x) * Z.of_nat (length y) in
  match floordiv n_pixels batch with
  | inl e => inl e
  | inr n_batches =>
      let '(X, Y) := meshgrid_flatten x y in
      match array_split X n_batches with
      | inl e => inl e
      | inr dX =>
          match array_split Y n_batches with
          | inl e => inl e
          | inr dY => inr (Partition n_pixels n_batches dX dY)
          end
      end
  end.

(** The pixels [(indX[i], indY[i])] of batch number [k]. *)
Definition batch_pixels (p : partition) (k : nat) : list (Z * Z) :=
  zip (default [] (divX p !! k)) (default [] (divY p !! k)).

Definition all_batches (p : partition) : list (list (Z * Z)) :=
  map (batch_pixels p) (seq 0 (length (divX p))).

(** Batch number [k] as a task carries it: the number and the two
    coordinate arrays. *)
Definition task_of (p : partition) (k : Z) : Z * list Z * list Z :=
  (k, default [] (divX p !! Z.to_nat k), default [] (divY p !! Z.to_nat k)).

(** The pixels of a rectangle row by row, the order of the two nested
    loops of [nonmpi_work] and of the flattened [meshgrid]. *)
Definition raster (x y : list Z) : list (Z * Z) :=
  y ≫= (fun yi => (fun xi => (xi, yi)) <$> x).

(** The pixels a run is asked for: the sub-rectangle when one is given,
    the whole grid otherwise. *)
Definition in_range (r : option (Z * Z)) (n : Z) (i : Z) : Prop :=
  match r with
  | Some (lo, hi) => lo <= i < hi
  | None => 0 <= i < n
  end.

Definition requested (nx ny : Z) (rangex rangey : option (Z * Z))
    (x y : Z) : Prop :=
  in_range rangex nx x /\ in_range rangey ny y.

Definition range_in_grid (r : option (Z * Z)) (n : Z) : bool :=
  match r with
  | Some (lo, hi) => (0 <=? lo) && (hi <=? n)
  | None => true
  end.

(** The number of requested pixels, [len(x) * len(y)]. *)
Definition count_pixels (nx ny : Z) (rangex rangey : option (Z * Z)) : Z :=
  Z.of_nat (length (axis_range rangex nx))
  * Z.of_nat (length (axis_range rangey ny)).

(** The bounds handed to [np.arange] for an axis of [n] pixels are
    64-bit integers. *)
Definition range_is_int64 (r : option (Z * Z)) (n : Z) : bool :=
  match r with
  | Some (lo, hi) => int64 lo && int64 hi
  | None => int64 n
  end.

(** ** The physics model and the arrays it exchanges

    The synthesis routines of [self.model] are external to this module:
    they are an interface, with the array types they return and the
    float operations numpy applies to the cubes. *)

Inductive pyflag := PyTrue | PyFalse | PyNone.

(** The nine arrays passed to [synth] and [synth2d], in call order. *)
Record profiles (A : Type) := Profiles {
  pT : A; pP : A; prho : A; pvz : A; pBx : A; pBy : A; pBz : A;
  ptau500 : A; pne : A
}.
Arguments Profiles {A} _ _ _ _ _ _ _ _ _.
Arguments pT {A} _. Arguments pP {A} _. Arguments prho {A} _.
Arguments pvz {A} _. Arguments pBx {A} _. Arguments pBy {A} _.
Arguments pBz {A} _. Arguments ptau500 {A} _. Arguments pne {A} _.

Class Physics := {
  float32 : Type;
  float64 : Type;
  (** [a.astype('float64')] and [a / b], element by element *)
  astype_float64 : float32 -> float64;
  true_divide : float32 -> float32 -> float32;
  (** [stokes] of one pixel, shape (5, n_lambda), and of a batch, shape
      (5, n_pixels, n_lambda); the resampled model of one pixel and of a
      batch *)
  stokes1 : Type;
  stokes2 : Type;
  resampled1 : Type;
  resampled2 : Type;
  stokes1_row : stokes1 -> Z -> list float64;        (* stokes[k,:] *)
  stokes2_row : stokes2 -> Z -> Z -> list float64;   (* stokes[k,i,:] *)
  resampled2_pixel : resampled2 -> Z -> resampled1;  (* model[:,i,:] *)
  (** [self.model.synth] and [self.model.synth2d]; both components are
      returned when [interpolate_model] is true, the first one alone
      otherwise *)
  synth : profiles (list float64) -> pyflag -> stokes1 * resampled1;
  synth2d : profiles (list (list float64)) -> pyflag -> stokes2 * resampled2
}.

Section Iterator.
Context `{Ph : Physics}.

(** A cube addressed as (depth, y, x). *)
Definition cube := Z -> Z -> Z -> float32.

(** [self.model]: the attributes this module reads.  The nine [*_file]
    fields stand for what [np.fromfile(...).reshape(model_shape)
    .transpose(az, ay, ax)] yields for that file; [model_shape_zyx] is the
    shape all nine share after the transposition. *)
Record Model := {
  atmosphere_type : string;
  nx : Z;
  ny : Z;
  n_lambda_sir : Z;
  n_tau : Z;
  vz_type : string;
  output_file : string;
  interpolated_model_filename : option string;
  model_shape_zyx : Z * Z * Z;
  T_file : cube; P_file : cube; rho_file : cube; vz_file : cube;
  Bx_file : cube; By_file : cube; Bz_file : cube; tau_file : cube;
  ne_file : cube
}.

(** [self.T], ..., [self.ne]: set together, only for a MURAM atmosphere. *)
Record Cubes := {
  shape : Z * Z * Z;
  T : cube; P : cube; rho : cube; vz : cube; Bx : cube; By : cube;
  Bz : cube; tau500 : cube; ne : cube
}.

Inductive tags := READY | DONE | EXIT | START.

(** The object sent with a message: [None], the task dictionary of the
    coordinator or the result dictionary of an agent. *)
Inductive data :=
| DNone
| DTask (index : Z) (indX indY : list Z) (interpolate : bool)
        (model : profiles (list (list float64)))
| DResult (index : Z) (indX indY : list Z) (model : option resampled2)
          (stokes : stokes2).

Record message := Message { msg_tag : tags; msg_data : data }.

Inductive h5file := f_stokes_out | f_model_out.
Inductive dataset :=
| stokesI_db | stokesQ_db | stokesU_db | stokesV_db | lambda_db | model_db.

Inductive written := WVec (v : list float64) | WResampled (m : resampled1).

(** What a process does to the outside world. [H5Write d sel v] is the
    assignment [d[sel] = v], an index of [sel] being [None] for a full
    slice [:]. *)
Inductive event :=
| FromFile (quantity : string)
| H5File (f : h5file) (name : string)
| CreateDataset (d : dataset) (name : string) (shp : list Z)
                (chunks : option (list Z))
| AttrsCreate (name : string)
| H5Write (d : dataset) (sel : list (option Z)) (v : written)
| H5Close (f : h5file)
| Send (dest : Z) (m : message).

Definition io := outcome event.

(** The attributes of an [Iterator] object; an attribute that has not
    been assigned yet is [None]. *)
Record Iterator := {
  use_mpi : bool;
  size : option Z;
  rank : Z;
  batch : Z;
  stop_after_n_batches : option Z;
  model : option Model;
  cubes : option Cubes;
  n_pixels : option Z;
  n_batches : option Z;
  has_f_model_out : bool
}.

(** The MPI runtime as the constructor sees it. *)
Record mpi_env := {
  _mpi_available : bool;
  comm_size : Z;
  comm_rank : Z
}.

(** [Iterator.__init__] (lines 21-49). The logger set-up writes nothing. *)
Definition __init__ (env : mpi_env) (use_mpi : bool) (batch : Z)
    (n_batches : option Z) : io Iterator :=
  if use_mpi then
    if negb (_mpi_available env) then
      raise (Exception_ "You need MPI and mpi4py installed in your system to use this option.")
    else if comm_size env =? 1 then
      raise (Exception_ "You do not have agents available or you need to start the code with mpiexec.")
    else
      ret {| use_mpi := true; size := Some (comm_size env);
             rank := comm_rank env; batch := batch;
             stop_after_n_batches := n_batches; model := None;
             cubes := None; n_pixels := None; n_batches := None;
             has_f_model_out := false |}
  else
    ret {| use_mpi := false; size := None; rank := 0; batch := batch;
           stop_after_n_batches := n_batches; model := None;
           cubes := None; n_pixels := None; n_batches := None;
           has_f_model_out := false |}.

Definition set_model (self : Iterator) (m : Model) : Iterator :=
  {| use_mpi := use_mpi self; size := size self; rank := rank self;
     batch := batch self; stop_after_n_batches := stop_after_n_batches self;
     model := Some m; cubes := cubes self; n_pixels := n_pixels self;
     n_batches := n_batches self;
     has_f_model_out := has_f_model_out self |}.

Definition set_cubes (self : Iterator) (c : Cubes) : Iterator :=
  {| use_mpi := use_mpi self; size := size self; rank := rank self;
     batch := batch self; stop_after_n_batches := stop_after_n_batches self;
     model := model self; cubes := Some c; n_pixels := n_pixels self;
     n_batches := n_batches self;
     has_f_model_out := has_f_model_out self |}.

Definition set_n_pixels (self : Iterator) (n : Z) : Iterator :=
  {| use_mpi := use_mpi self; size := size self; rank := rank self;
     batch := batch self; stop_after_n_batches := stop_after_n_batches self;
     model := model self; cubes := cubes self; n_pixels := Some n;
     n_batches := n_batches self;
     has_f_model_out := has_f_model_out self |}.

Definition set_n_batches (self : Iterator) (n : Z) : Iterator :=
  {| use_mpi := use_mpi self; size := size self; rank := rank self;
     batch := batch self; stop_after_n_batches := stop_after_n_batches self;
     model := model self; cubes := cubes self; n_pixels := n_pixels self;
     n_batches := Some n;
     has_f_model_out := has_f_model_out self |}.

Definition set_f_model_out (self : Iterator) : Iterator :=
  {| use_mpi := use_mpi self; size := size self; rank := rank self;
     batch := batch self; stop_after_n_batches := stop_after_n_batches self;
     model := model self; cubes := cubes self; n_pixels := n_pixels self;
     n_batches := n_batches self;
     has_f_model_out := true |}.

(** Reading an attribute that was never assigned. *)
Definition getattr {A} (a : option A) : io A :=
  match a with
  | Some v => ret v
  | None => raise AttributeError
  end.

(** [use_model] on the coordinator or the sole process: the model that
    is passed in becomes [self.model] (the broadcast hands the same
    object to every agent). *)
Definition use_model (self : Iterator) (m : Model) : Iterator :=
  set_model self m.

(** The arrays of the nine files of [m]. *)
Definition cubes_of_model (m : Model) : Cubes :=
  {| shape := model_shape_zyx m; T := T_file m; P := P_file m;
     rho := rho_file m; vz := vz_file m; Bx := Bx_file m;
     By := By_file m; Bz := Bz_file m; tau500 := tau_file m;
     ne := ne_file m |}.

Definition cube_events : list event :=
  [FromFile "T_file"; FromFile "P_file"; FromFile "rho_file";
   FromFile "vz_file"; FromFile "Bx_file"; FromFile "By_file";
   FromFile "Bz_file"; FromFile "tau_file"; FromFile "ne_file"].

(** The [if (self.model.atmosphere_type == 'MURAM')] block that opens
    both [nonmpi_work] and [mpi_master_work]: nine files are read. *)
Definition load_cubes (self : Iterator) (m : Model) : io Iterator :=
  if String.eqb (atmosphere_type m) "MURAM" then
    Outcome cube_events (inr (set_cubes self (cubes_of_model m)))
  else ret self.

(** [a[:, iy, ix]] for two integers: the bounds are those of the shape
    the nine cubes share, so one check serves all of them. *)
Definition at_pixel (c : Cubes) (iy ix : Z) : io (cube -> list float32) :=
  let '(nz, cy, cx) := shape c in
  match norm_index cy iy, norm_index cx ix with
  | Some y, Some x => ret (fun a : cube => map (fun d => a d y x) (arange 0 nz))
  | _, _ => raise IndexError
  end.

(** [a[:, iy, ix]] for two integer arrays of one length: a (depth, pixel)
    array. *)
Definition at_pixels (c : Cubes) (iy ix : list Z)
  : io (cube -> list (list float32)) :=
  let '(nz, cy, cx) := shape c in
  match mapM (norm_index cy) iy, mapM (norm_index cx) ix with
  | Some ys, Some xs =>
      ret (fun a : cube =>
             map (fun d => map (fun yx : Z * Z => a d yx.1 yx.2) (zip ys xs))
                 (arange 0 nz))
  | _, _ => raise IndexError
  end.

(** The index of an assignment [d[sel] = v] checked against the shape of
    the dataset, negative indices counted from the end as h5py does; an
    index outside the dataset is an [IndexError]. *)
Fixpoint norm_sel (shp : list Z) (sel : list (option Z))
  : option (list (option Z)) :=
  match shp, sel with
  | [], [] => Some []
  | n :: shp', Some i :: sel' =>
      match norm_index n i, norm_sel shp' sel' with
      | Some i', Some r => Some (Some i' :: r)
      | _, _ => None
      end
  | _ :: shp', None :: sel' =>
      match norm_sel shp' sel' with
      | Some r => Some (None :: r)
      | None => None
      end
  | _, _ => None
  end.

Definition h5_setitem (d : dataset) (shp : list Z) (sel : list (option Z))
    (v : written) : io unit :=
  match norm_sel shp sel with
  | Some sel' => emit (H5Write d sel' v)
  | None => raise IndexError
  end.

Definition stokes_shape (m : Model) : list Z := [ny m; nx m; n_lambda_sir m].

(** What h5py's [create_dataset(name, shape, chunks=chunks)] raises, if
    anything: [ValueError] for chunks of another rank than the dataset,
    for a chunk that is larger than the dataset in some dimension and
    for a chunk without extent; a negative size cannot be converted to
    the unsigned sizes of HDF5, an [OverflowError]. *)
Definition create_dataset_error (shp : list Z) (chunks : option (list Z))
  : option exn :=
  match chunks with
  | Some cs =>
      if negb (length cs =? length shp)%nat then Some ValueError
      else if existsb (fun dc : Z * Z => dc.1 <? dc.2) (zip shp cs)
      then Some ValueError
      else if existsb (fun c => c <? 0) cs then Some OverflowError
      else if existsb (fun c => c =? 0) cs then Some ValueError
      else None
  | None =>
      if existsb (fun n => n <? 0) shp then Some OverflowError else None
  end.

Definition create_dataset (d : dataset) (name : string) (shp : list Z)
    (chunks : option (list Z)) : io unit :=
  match create_dataset_error shp chunks with
  | Some e => raise e
  | None => emit (CreateDataset d name shp chunks)
  end.

(** Lines 138-144 and, word for word, 257-263: the spectra file and its
    five datasets, the four spectra in chunks of 64 by 64 pixels. *)
Definition create_stokes_out (m : Model) : io unit :=
  let chunks := Some [64; 64; n_lambda_sir m] in
  emit (H5File f_stokes_out (output_file m)) ;;;
  create_dataset stokesI_db "I" (stokes_shape m) chunks ;;;
  create_dataset stokesQ_db "Q" (stokes_shape m) chunks ;;;
  create_dataset stokesU_db "U" (stokes_shape m) chunks ;;;
  create_dataset stokesV_db "V" (stokes_shape m) chunks ;;;
  create_dataset lambda_db "lambda" [n_lambda_sir m] None ;;;
  emit (AttrsCreate "lambda_zeropoint").

(** ** The serial path *)

Definition nonmpi_model_shape (m : Model) : list Z :=
  [ny m; nx m; 7; n_tau m].

(** Lines 146-151. *)
Definition nonmpi_open_model (self : Iterator) (m : Model)
  : io (Iterator * bool) :=
  match interpolated_model_filename m with
  | Some name =>
      emit (H5File f_model_out name) ;;;
      create_dataset model_db "model" (nonmpi_model_shape m) None ;;;
      ret (set_f_model_out self, true)
  | None => ret (self, false)
  end.

(** The body of the two nested loops, lines 157-176; the value is the
    local [stokes]. *)
Definition nonmpi_pixel (self : Iterator) (m : Model)
    (interpolate_model : bool) (iy ix : Z) : io stokes1 :=
  c <- getattr (cubes self) ;;
  col <- at_pixel c iy ix ;;
  let f64 := map astype_float64 in
  let vz_local :=
    if String.eqb (vz_type m) "vz" then col (vz c)
    else zip_with true_divide (col (vz c)) (col (rho c)) in
  stokes <-
    (if interpolate_model then
       let '(stokes, model) :=
         synth (Profiles (f64 (col (T c))) (f64 (col (P c)))
                  (f64 (col (rho c))) (f64 vz_local) (f64 (col (Bx c)))
                  (f64 (col (By c))) (f64 (col (Bz c)))
                  (f64 (col (tau500 c))) (f64 (col (ne c)))) PyTrue in
       h5_setitem model_db (nonmpi_model_shape m)
         [Some iy; Some ix; None; None] (WResampled model) ;;;
       ret stokes
     else
       ret (synth (Profiles (f64 (col (T c))) (f64 (col (P c)))
                     (f64 (col (rho c))) (f64 (col (vz c)))
                     (f64 (col (Bx c))) (f64 (col (By c)))
                     (f64 (col (Bz c))) (f64 (col (tau500 c)))
                     (f64 (col (ne c)))) PyFalse).1) ;;
  h5_setitem stokesI_db (stokes_shape m) [Some iy; Some ix; None]
    (WVec (stokes1_row stokes 1)) ;;;
  h5_setitem stokesQ_db (stokes_shape m) [Some iy; Some ix; None]
    (WVec (stokes1_row stokes 2)) ;;;
  h5_setitem stokesU_db (stokes_shape m) [Some iy; Some ix; None]
    (WVec (stokes1_row stokes 3)) ;;;
  h5_setitem stokesV_db (stokes_shape m) [Some iy; Some ix; None]
    (WVec (stokes1_row stokes 4)) ;;;
  ret stokes.

(** Lines 154-176: [for iy in trange(ny): for ix in trange(nx)], the
    loop-carried state being the local [stokes], unbound before the first
    pixel. *)
Definition nonmpi_loop (self : Iterator) (m : Model)
    (interpolate_model : bool) : io (option stokes1) :=
  for_fold (arange 0 (ny m)) None (fun iy stokes =>
    for_fold (arange 0 (nx m)) stokes (fun ix _ =>
      s <- nonmpi_pixel self m interpolate_model iy ix ;; ret (Some s))).

(** [nonmpi_work] (lines 85-181). The arguments [rangex] and [rangey]
    are not read. *)
Definition nonmpi_work (self : Iterator) (rangex rangey : option (Z * Z))
  : io Iterator :=
  m <- getattr (model self) ;;
  self <- load_cubes self m ;;
  let self :=
    if String.eqb (atmosphere_type m) "MURAM"
    then set_n_pixels self (nx m * ny m) else self in
  create_stokes_out m ;;;
  si <- nonmpi_open_model self m ;;
  let '(self, interpolate_model) := si in
  stokes <- nonmpi_loop self m interpolate_model ;;
  (match stokes with
   | Some s => h5_setitem lambda_db [n_lambda_sir m] [None]
                 (WVec (stokes1_row s 0))
   | None => raise NameError
   end) ;;;
  emit (H5Close f_stokes_out) ;;;
  (if has_f_model_out self then emit (H5Close f_model_out)
   else raise AttributeError) ;;;
  ret self.

(** ** The distributed path: the coordinator *)

Definition mpi_model_shape (m : Model) : list Z :=
  [7; ny m; nx m; n_tau m].

(** Lines 265-270. *)
Definition mpi_open_model (self : Iterator) (m : Model)
  : io (Iterator * bool) :=
  match interpolated_model_filename m with
  | Some name =>
      emit (H5File f_model_out name) ;;;
      create_dataset model_db "model" (mpi_model_shape m) None ;;;
      ret (set_f_model_out self, true)
  | None => ret (self, false)
  end.

(** The coordinator between two iterations of its [while] loop: the
    object, the model it holds and the locals of [mpi_master_work]. *)
Record master := Master {
  m_self : Iterator;
  m_model : Model;
  m_div : partition;
  interpolate_model : bool;
  task_index : Z;
  num_workers : Z;
  closed_workers : Z;
  m_stokes : option stokes2
}.

(** Lines 198-280: everything [mpi_master_work] does before the loop. *)
Definition mpi_master_setup (self : Iterator) (rangex rangey : option (Z * Z))
  : io master :=
  m <- getattr (model self) ;;
  self <- load_cubes self m ;;
  p <- lift (make_partition (nx m) (ny m) rangex rangey (batch self)) ;;
  let self := set_n_batches (set_n_pixels self (p_n_pixels p)) (p_n_batches p) in
  create_stokes_out m ;;;
  si <- mpi_open_model self m ;;
  let '(self, interpolate_model) := si in
  sz <- getattr (size self) ;;
  ret (Master self m p interpolate_model 0 (sz - 1) 0 None).

(** [l[i]] for a Python list or a 1-D array and [0 <= i]. *)
Definition getitem {A} (l : list A) (i : nat) : io A :=
  match l !! i with
  | Some v => ret v
  | None => raise IndexError
  end.

Definition set_task_index (st : master) (k : Z) : master :=
  Master (m_self st) (m_model st) (m_div st) (interpolate_model st) k
         (num_workers st) (closed_workers st) (m_stokes st).
Definition set_closed_workers (st : master) (k : Z) : master :=
  Master (m_self st) (m_model st) (m_div st) (interpolate_model st)
         (task_index st) (num_workers st) k (m_stokes st).
Definition set_stokes (st : master) (s : stokes2) : master :=
  Master (m_self st) (m_model st) (m_div st) (interpolate_model st)
         (task_index st) (num_workers st) (closed_workers st) (Some s).

(** Lines 288-313: the reply to READY. *)
Definition master_on_ready (st : master) (source : Z) : io master :=
  let m := m_model st in
  if task_index st <? p_n_batches (m_div st) then
    ix <- getitem (divX (m_div st)) (Z.to_nat (task_index st)) ;;
    iy <- getitem (divY (m_div st)) (Z.to_nat (task_index st)) ;;
    c <- getattr (cubes (m_self st)) ;;
    sl <- at_pixels c iy ix ;;
    let f64 := map (map astype_float64) in
    let vz_local :=
      if String.eqb (vz_type m) "vz" then sl (vz c)
      else zip_with (zip_with true_divide) (sl (vz c)) (sl (rho c)) in
    emit (Send source (Message START
            (DTask (task_index st) ix iy (interpolate_model st)
               (Profiles (f64 (sl (T c))) (f64 (sl (P c))) (f64 (sl (rho c)))
                  (f64 vz_local) (f64 (sl (Bx c))) (f64 (sl (By c)))
                  (f64 (sl (Bz c))) (f64 (sl (tau500 c)))
                  (f64 (sl (ne c))))))) ;;;
    ret (set_task_index st (task_index st + 1))
  else
    emit (Send source (Message EXIT DNone)) ;;;
    ret st.

(** Lines 327-331: one pixel of a result goes to the four datasets,
    each time at [indY[i], indX[i]]. *)
Definition write_stokes (m : Model) (indX indY : list Z) (stokes : stokes2)
    (i : nat) : io unit :=
  y <- getitem indY i ;;
  x <- getitem indX i ;;
  h5_setitem stokesI_db (stokes_shape m) [Some y; Some x; None]
    (WVec (stokes2_row stokes 1 (Z.of_nat i))) ;;;
  h5_setitem stokesQ_db (stokes_shape m) [Some y; Some x; None]
    (WVec (stokes2_row stokes 2 (Z.of_nat i))) ;;;
  h5_setitem stokesU_db (stokes_shape m) [Some y; Some x; None]
    (WVec (stokes2_row stokes 3 (Z.of_nat i))) ;;;
  h5_setitem stokesV_db (stokes_shape m) [Some y; Some x; None]
    (WVec (stokes2_row stokes 4 (Z.of_nat i))).

(** Lines 315-334: a result is copied into the store. *)
Definition master_on_done (st : master) (d : data) : io master :=
  let m := m_model st in
  match d with
  | DResult index indX indY model stokes =>
      let st := set_stokes st stokes in
      (if interpolate_model st then
         match model with
         | Some model =>
             for_fold (seq 0 (length indX)) tt (fun i _ =>
               y <- getitem indY i ;;
               x <- getitem indX i ;;
               h5_setitem model_db (mpi_model_shape m)
                 [None; Some y; Some x; None]
                 (WResampled (resampled2_pixel model (Z.of_nat i))))
         | None => raise KeyError
         end
       else ret tt) ;;;
      for_fold (seq 0 (length indX)) tt (fun i _ =>
        write_stokes m indX indY stokes i) ;;;
      ret st
  | DTask _ _ _ _ _ => raise KeyError
  | DNone => raise TypeError
  end.

(** Lines 284-337: one iteration of the loop, for the message that
    [recv] returned and the rank it came from. *)
Definition master_recv (st : master) (source : Z) (msg : message)
  : io master :=
  match msg_tag msg with
  | READY => master_on_ready st source
  | DONE => master_on_done st (msg_data msg)
  | EXIT => ret (set_closed_workers st (closed_workers st + 1))
  | START => ret st
  end.

(** Lines 339-342: after the loop. *)
Definition master_finish (st : master) : io unit :=
  (match m_stokes st with
   | Some s => h5_setitem lambda_db [n_lambda_sir (m_model st)] [None]
                 (WVec (stokes2_row s 0 0))
   | None => raise NameError
   end) ;;;
  emit (H5Close f_stokes_out) ;;;
  (if interpolate_model st then emit (H5Close f_model_out) else ret tt).

(** ** The distributed path: an agent *)

(** Where an agent stands in [mpi_agents_work]: about to send READY,
    blocked in [recv], out of the loop and about to send EXIT, returned,
    or stopped by an exception. *)
Inductive agent_pc := SendReady | Receive | SendExit | Returned | Raised (e : exn).

(** An agent with the messages in transit from and to the coordinator,
    oldest first (messages between two processes do not overtake). *)
Record agent := Agent {
  pc : agent_pc;
  inbox : list message;
  outbox : list message
}.

(** Lines 363-381: the reply to START. *)
Definition agent_on_start (d : data) : exn + message :=
  match d with
  | DTask task_index indX indY interpolate_model args =>
      if interpolate_model then
        let '(stokes, model) := synth2d args PyTrue in
        inr (Message DONE (DResult task_index indX indY (Some model) stokes))
      else
        let stokes := (synth2d args PyNone).1 in
        inr (Message DONE (DResult task_index indX indY None stokes))
  | DResult _ _ _ _ _ => inl KeyError
  | DNone => inl TypeError
  end.

(** One move of [mpi_agents_work] (lines 357-385); [None] when the agent
    is blocked or has ended. *)
Definition agent_step (a : agent) : option agent :=
  match pc a with
  | SendReady =>
      Some (Agent Receive (inbox a) (outbox a ++ [Message READY DNone]))
  | Receive =>
      match inbox a with
      | [] => None
      | msg :: rest =>
          match msg_tag msg with
          | START =>
              match agent_on_start (msg_data msg) with
              | inr reply => Some (Agent SendReady rest (outbox a ++ [reply]))
              | inl e => Some (Agent (Raised e) rest (outbox a))
              end
          | EXIT => Some (Agent SendExit rest (outbox a))
          | _ => Some (Agent SendReady rest (outbox a))
          end
      end
  | SendExit =>
      Some (Agent Returned (inbox a) (outbox a ++ [Message EXIT DNone]))
  | Returned => None
  | Raised _ => None
  end.

(** ** The processes together

    The coordinator has rank 0 and the agent at position [w] of
    [agents] has rank [w + 1]. A schedule lists which process moves
    next; for the coordinator's [recv(source=ANY_SOURCE)] it names the
    agent whose oldest message is taken. A [send] puts its message in
    the channel and returns; were it to wait for the matching [recv], the
    sender would move on later, but the coordinator would be offered the
    same messages in the same order. *)

Inductive status := Running | Finished | Failed (e : exn).

Record system := System {
  sys_status : status;
  sys_master : master;
  sys_log : list event;
  agents : list agent
}.

Inductive action :=
| Recv (w : nat)       (* the coordinator receives from agent w *)
| Finish               (* the coordinator leaves the loop *)
| Work (w : nat).      (* agent w moves *)

Definition rank_of (w : nat) : Z := Z.of_nat w + 1.

Definition put_inbox (msg : message) (a : agent) : agent :=
  Agent (pc a) (inbox a ++ [msg]) (outbox a).

(** The [comm.send] calls of a trace reach the inbox of their
    destination. *)
Fixpoint deliver (tr : list event) (ags : list agent) : list agent :=
  match tr with
  | [] => ags
  | Send dest msg :: tr' =>
      deliver tr'
        (if 1 <=? dest then alter (put_inbox msg) (Z.to_nat (dest - 1)) ags
         else ags)
  | _ :: tr' => deliver tr' ags
  end.

Definition step (act : action) (s : system) : option system :=
  match act with
  | Recv w =>
      match sys_status s, agents s !! w with
      | Running, Some a =>
          if closed_workers (sys_master s) <? num_workers (sys_master s) then
            match outbox a with
            | [] => None
            | msg :: rest =>
                let ags := <[w := Agent (pc a) (inbox a) rest]> (agents s) in
                let o := master_recv (sys_master s) (rank_of w) msg in
                Some (System
                        (match result o with inl e => Failed e | inr _ => Running end)
                        (match result o with inl _ => sys_master s | inr st => st end)
                        (sys_log s ++ trace o)
                        (deliver (trace o) ags))
            end
          else None
      | _, _ => None
      end
  | Finish =>
      match sys_status s with
      | Running =>
          if closed_workers (sys_master s) <? num_workers (sys_master s) then None
          else
            let o := master_finish (sys_master s) in
            Some (System
                    (match result o with inl e => Failed e | inr _ => Finished end)
                    (sys_master s) (sys_log s ++ trace o) (agents s))
      | _ => None
      end
  | Work w =>
      match agents s !! w with
      | Some a =>
          match agent_step a with
          | Some a' =>
              Some (System (sys_status s) (sys_master s) (sys_log s)
                      (<[w := a']> (agents s)))
          | None => None
          end
      | None => None
      end
  end.

Fixpoint exec (sched : list action) (s : system) : option system :=
  match sched with
  | [] => Some s
  | act :: sched' =>
      match step act s with
      | Some s' => exec sched' s'
      | None => None
      end
  end.

(** [run_all_pixels] with [use_mpi] set, all ranks started together:
    rank 0 has run [mpi_master_work] up to its loop and each of the
    [size - 1] other ranks is at the top of [mpi_agents_work]. [None]
    when the coordinator raised before its loop. *)
Definition mpi_start (self : Iterator) (rangex rangey : option (Z * Z))
  : option system :=
  let o := mpi_master_setup self rangex rangey in
  match result o with
  | inr st =>
      Some (System Running st (trace o)
              (replicate (Z.to_nat (num_workers st)) (Agent SendReady [] [])))
  | inl _ => None
  end.

(** [run_all_pixels] without MPI (lines 399-405). *)
Definition run_all_pixels (self : Iterator) (rangex rangey : option (Z * Z))
  : io Iterator :=
  nonmpi_work self rangex rangey.

(** A scheduler that always moves the first process that can move; it
    produces the schedule it followed. *)
Definition enabled (s : system) (act : action) : bool :=
  match step act s with Some _ => true | None => false end.

Definition candidates (s : system) : list action :=
  Finish :: flat_map (fun w => [Work w; Recv w]) (seq 0 (length (agents s))).

Fixpoint first_come (fuel : nat) (s : system) : list action :=
  match fuel with
  | O => []
  | S fuel' =>
      match filter (fun act => enabled s act = true) (candidates s) with
      | act :: _ =>
          match step act s with
          | Some s' => act :: first_come fuel' s'
          | None => []
          end
      | [] => []
      end
  end.

(** ** What a trace shows *)

#[global] Instance dataset_eq_dec : EqDecision dataset.
Proof. solve_decision. Defined.

(** The pixels [(x, y)] whose cell the assignments [d[y, x, :] = v] of a
    trace touch, in order. *)
Definition cell_of (d : dataset) (ev : event) : option (Z * Z) :=
  match ev with
  | H5Write d' [Some y; Some x; None] _ =>
      if decide (d' = d) then Some (x, y) else None
  | _ => None
  end.
Definition cells_written (d : dataset) (tr : list event) : list (Z * Z) :=
  omap (cell_of d) tr.

(** The values assigned to the cell of pixel [(x, y)] in [d]. *)
Definition value_of (d : dataset) (x y : Z) (ev : event)
  : option (list float64) :=
  match ev with
  | H5Write d' [Some y'; Some x'; None] (WVec v) =>
      if decide (d' = d /\ y' = y /\ x' = x) then Some v else None
  | _ => None
  end.
Definition values_written (d : dataset) (x y : Z) (tr : list event)
  : list (list float64) :=
  omap (value_of d x y) tr.

Definition send_of (ev : event) : option (Z * message) :=
  match ev with Send dest msg => Some (dest, msg) | _ => None end.
Definition sends (tr : list event) : list (Z * message) := omap send_of tr.

(** The batches of the START messages of a trace, each with its number
    and its coordinates, and the destinations of its EXIT messages, in
    order. *)
Definition start_of (ev : event) : option (Z * list Z * list Z) :=
  match ev with
  | Send _ (Message START (DTask k ix iy _ _)) => Some (k, ix, iy)
  | _ => None
  end.
Definition exit_of (ev : event) : option Z :=
  match ev with
  | Send dest (Message EXIT _) => Some dest
  | _ => None
  end.
Definition starts (tr : list event) : list (Z * list Z * list Z) :=
  omap start_of tr.
Definition exits (tr : list event) : list Z := omap exit_of tr.

Definition model_dataset_shape (tr : list event) : list (list Z) :=
  omap (fun ev => match ev with
                  | CreateDataset model_db _ shp _ => Some shp
                  | _ => None
                  end) tr.

Definition is_store_closed (tr : list event) : bool :=
  existsb (fun ev => match ev with H5Close f_stokes_out => true | _ => false end) tr.

Definition is_stokes_db (d : dataset) : bool :=
  match d with
  | stokesI_db | stokesQ_db | stokesU_db | stokesV_db => true
  | _ => false
  end.

(** ** Sessions *)

(** The cubes were loaded and have the extent of the grid. *)
Definition grid_loaded (m : Model) : bool :=
  (String.eqb (atmosphere_type m) "MURAM")
  && ((model_shape_zyx m).1.2 =? ny m)
  && ((model_shape_zyx m).2 =? nx m).

(** A session of the sole process: construct, [use_model],
    [run_all_pixels]. *)
Definition serial_session (env : mpi_env) (batch : Z) (n_batches : option Z)
    (m : Model) (rangex rangey : option (Z * Z)) : io Iterator :=
  self <- __init__ env false batch n_batches ;;
  run_all_pixels (use_model self m) rangex rangey.

(** A session of rank 0 under MPI up to the loop of the coordinator. *)
Definition mpi_session (env : mpi_env) (batch : Z) (n_batches : option Z)
    (m : Model) (rangex rangey : option (Z * Z)) : option system :=
  match result (__init__ env true batch n_batches) with
  | inr self => mpi_start (use_model self m) rangex rangey
  | inl _ => None
  end.

End Iterator.

(** ** A small physics model to run the code on

    Floats are rationals; the spectrum of a pixel has the profiles of
    tau, vz, T, P and rho as its five rows, so that the intensity row
    shows the velocity the routine was given, and the batched routine
    does the same for every pixel of its (depth, pixel) arrays. *)

Definition transpose_cols (a : list (list Q)) : list (list Q) :=
  match a with
  | [] => []
  | r :: _ =>
      map (fun i => map (fun row => nth i row 0%Q) a) (seq 0 (length r))
  end.

Definition toy : Physics := {|
  float32 := Q;
  float64 := Q;
  astype_float64 := fun q => q;
  true_divide := Qdiv;
  stokes1 := list (list Q);
  stokes2 := list (list (list Q));
  resampled1 := list Q;
  resampled2 := list (list Q);
  stokes1_row := fun s k => nth (Z.to_nat k) s [];
  stokes2_row := fun s k i => nth (Z.to_nat i) (nth (Z.to_nat k) s []) [];
  resampled2_pixel := fun r i => nth (Z.to_nat i) r [];
  synth := fun p _ => ([ptau500 p; pvz p; pT p; pP p; prho p], pvz p);
  synth2d := fun p _ =>
    (map transpose_cols [ptau500 p; pvz p; pT p; pP p; prho p],
     transpose_cols (pvz p))
|}.

Definition toy_cube (k : Z) : @cube toy :=
  fun d y x => inject_Z (k + 100 * d + 10 * y + x).

(** A MURAM model of two depth points on an [nx] by [ny] grid. *)
Definition toy_model (nx ny : Z) (vz_type : string)
    (interpolated : option string) : @Model toy := {|
  atmosphere_type := "MURAM"; nx := nx; ny := ny; n_lambda_sir := 2;
  n_tau := 3; vz_type := vz_type; output_file := "out.h5";
  interpolated_model_filename := interpolated;
  model_shape_zyx := (2, ny, nx);
  T_file := toy_cube 1; P_file := toy_cube 2; rho_file := toy_cube 3;
  vz_file := toy_cube 4; Bx_file := toy_cube 5; By_file := toy_cube 6;
  Bz_file := toy_cube 7; tau_file := toy_cube 8; ne_file := toy_cube 9
|}.

Definition toy_env (size : Z) : mpi_env :=
  {| _mpi_available := true; comm_size := size; comm_rank := 0 |}.

(** Rank 0 of [size] processes, after [use_model]. *)
Definition toy_master (size batch : Z) (m : @Model toy) : @Iterator toy :=
  {| use_mpi := true; size := Some size; rank := 0; batch := batch;
     stop_after_n_batches := None; model := Some m; cubes := None;
     n_pixels := None; n_batches := None; has_f_model_out := false |}.

(** The grids used below are 64 by 64, the least extent that the chunks
    (64, 64, n_lambda) of the four datasets fit in. *)
Definition toy_grid (vz_type : string) (interpolated : option string)
  : @Model toy :=
  toy_model 64 64 vz_type interpolated.

(** The schedule in which every process moves as soon as it can. *)
Definition toy_schedule (self : @Iterator toy)
    (rangex rangey : option (Z * Z)) : list action :=
  match mpi_start self rangex rangey with
  | Some s0 => first_come 100 s0
  | None => []
  end.

(** Three agents and the first seven pixels of row 0 in batches of
    one. *)
Definition toy_3_agents_7_batches : @Iterator toy :=
  toy_master 4 1 (toy_grid "vz" None).

Definition toy_schedule_3_7 : list action :=
  toy_schedule toy_3_agents_7_batches (Some (0, 7)) (Some (0, 1)).

(** A grid of 65 columns and 64 rows with the resampled model asked
    for. *)
Definition toy_resampled : @Model toy :=
  toy_model 65 64 "vzrho" (Some "model.h5").

(** Two agents and the columns 1 and 2 of the rows 0 and 1 of this grid,
    in batches of two pixels. *)
Definition toy_2_agents : @Iterator toy := toy_master 3 2 toy_resampled.

Definition toy_schedule_2 : list action :=
  toy_schedule toy_2_agents (Some (1, 3)) (Some (0, 2)).



(** One agent asked for pixel (0, 0) of a grid whose velocity file holds
    rho vz, no resampled model asked for. *)
Definition toy_momentum : @Model toy := toy_grid "vzrho" None.

Definition toy_first_pixel : @Iterator toy := toy_master 2 1 toy_momentum.

Definition toy_schedule_first_pixel : list action :=
  toy_schedule toy_first_pixel (Some (0, 1)) (Some (0, 1)).

(** The same with the resampled model asked for. *)
Definition toy_first_pixel_resampled : @Iterator toy :=
  toy_master 2 1 (toy_grid "vzrho" (Some "model.h5")).

Definition toy_schedule_first_pixel_resampled : list action :=
  toy_schedule toy_first_pixel_resampled (Some (0, 1)) (Some (0, 1)).

(** One agent given the whole grid in batches of 512 pixels, with the
    resampled model asked for. *)
Definition toy_whole_grid : @Iterator toy :=
  toy_master 2 512 (toy_grid "vzrho" (Some "model.h5")).

Definition toy_schedule_whole_grid : list action :=
  toy_schedule toy_whole_grid None None.

(** ** Auxiliary definitions for the properties below *)

Section Auxiliary.
Context `{Ph : Physics}.

(** The object as the pixel loop of [nonmpi_work] sees it. *)
Definition nonmpi_self (self : Iterator) (m : Model) : Iterator :=
  let self1 :=
    if String.eqb (atmosphere_type m) "MURAM"
    then set_n_pixels (set_cubes self (cubes_of_model m)) (nx m * ny m)
    else self in
  match interpolated_model_filename m with
  | Some _ => set_f_model_out self1
  | None => self1
  end.

Definition nonmpi_interpolate (m : Model) : bool :=
  match interpolated_model_filename m with Some _ => true | None => false end.

(** The events of [create_stokes_out] when h5py accepts the datasets. *)
Definition stokes_out_events (m : Model) : list event :=
  let chunks := Some [64; 64; n_lambda_sir m] in
  [H5File f_stokes_out (output_file m);
   CreateDataset stokesI_db "I" (stokes_shape m) chunks;
   CreateDataset stokesQ_db "Q" (stokes_shape m) chunks;
   CreateDataset stokesU_db "U" (stokes_shape m) chunks;
   CreateDataset stokesV_db "V" (stokes_shape m) chunks;
   CreateDataset lambda_db "lambda" [n_lambda_sir m] None;
   AttrsCreate "lambda_zeropoint"].

(** The chunks of 64 by 64 pixels fit the grid, and the spectra have at
    least one wavelength. *)
Definition store_fits (m : Model) : bool :=
  (64 <=? ny m) && (64 <=? nx m) && (1 <=? n_lambda_sir m).

(** h5py accepts every dataset that a run on [m] creates. *)
Definition h5_accepts (m : Model) : bool :=
  store_fits m
  && match interpolated_model_filename m with
     | Some _ => 0 <=? n_tau m
     | None => true
     end.

(** What a run on [m] does to the files before h5py refuses a dataset,
    and the exception it ends with. *)
Definition refused (m : Model) : list event * exn :=
  match create_dataset_error (stokes_shape m)
          (Some [64; 64; n_lambda_sir m]) with
  | Some e => ([H5File f_stokes_out (output_file m)], e)
  | None =>
      (stokes_out_events m
       ++ match interpolated_model_filename m with
          | Some name => [H5File f_model_out name]
          | None => []
          end,
       OverflowError)
  end.

(** The events of the [if (self.model.atmosphere_type == 'MURAM')]
    block. *)
Definition load_events (m : Model) : list event :=
  if String.eqb (atmosphere_type m) "MURAM" then cube_events else [].

(** The events of [nonmpi_work] before its loop. *)
Definition nonmpi_setup_events (m : Model) : list event :=
  (if String.eqb (atmosphere_type m) "MURAM" then cube_events else [])
  ++ stokes_out_events m
  ++ match interpolated_model_filename m with
     | Some name =>
         [H5File f_model_out name;
          CreateDataset model_db "model" (nonmpi_model_shape m) None]
     | None => []
     end.

(** The object [__init__] builds without MPI. *)
Definition sole_process (batch : Z) (n_batches : option Z) : Iterator :=
  {| use_mpi := false; size := None; rank := 0; batch := batch;
     stop_after_n_batches := n_batches; model := None;
     cubes := None; n_pixels := None; n_batches := None;
     has_f_model_out := false |}.

(** *** A bound on the length of a run

    Every move of a process uses up some of the work that remains: the
    batches not yet issued, the messages in transit and what each agent
    still has to do. *)

Definition pc_weight (c : agent_pc) : nat :=
  match c with
  | SendReady => 5
  | Receive => 0
  | SendExit => 2
  | Returned => 0
  | Raised _ => 0
  end.

Definition outbox_weight (msg : message) : nat :=
  match msg_tag msg with
  | READY => 4
  | _ => 1
  end.

Definition inbox_weight (msg : message) : nat :=
  match msg_tag msg with
  | START => 7
  | EXIT => 3
  | _ => 6
  end.

Definition agent_weight (a : agent) : nat :=
  pc_weight (pc a) + sum_list_with inbox_weight (inbox a)
  + sum_list_with outbox_weight (outbox a).

Definition work_left (s : system) : nat :=
  match sys_status s with Running => 1 | _ => 0 end
  + 4 * Z.to_nat (p_n_batches (m_div (sys_master s))
                  - task_index (sys_master s))
  + sum_list_with agent_weight (agents s).

Definition is_write (ev : event) : bool :=
  match ev with H5Write _ _ _ => true | _ => false end.

(** How one turn of the coordinator's loop, for a message from the
    agent at position [w], can go. *)
Inductive recv_case (st : master) (w : nat) (msg : message) (o : io master)
  : Prop :=
| RecvFailed e :
    result o = inl e ->
    Forall (fun ev => is_write ev = true) (trace o) ->
    recv_case st w msg o
| RecvStart ix iy args :
    msg_tag msg = READY ->
    task_index st < p_n_batches (m_div st) ->
    divX (m_div st) !! Z.to_nat (task_index st) = Some ix ->
    divY (m_div st) !! Z.to_nat (task_index st) = Some iy ->
    o = Outcome [Send (rank_of w) (Message START
                   (DTask (task_index st) ix iy (interpolate_model st) args))]
                (inr (set_task_index st (task_index st + 1))) ->
    recv_case st w msg o
| RecvNoTask :
    msg_tag msg = READY ->
    ~ task_index st < p_n_batches (m_div st) ->
    o = Outcome [Send (rank_of w) (Message EXIT DNone)] (inr st) ->
    recv_case st w msg o
| RecvDone k indX indY model stokes :
    msg_tag msg = DONE ->
    msg_data msg = DResult k indX indY model stokes ->
    result o = inr (set_stokes st stokes) ->
    Forall (fun ev => is_write ev = true) (trace o) ->
    recv_case st w msg o
| RecvExit :
    msg_tag msg = EXIT ->
    o = Outcome [] (inr (set_closed_workers st (closed_workers st + 1))) ->
    recv_case st w msg o
| RecvOther :
    msg_tag msg = START ->
    o = Outcome [] (inr st) ->
    recv_case st w msg o.

(** *** The invariant of the dispatch protocol *)

#[global] Instance tags_eq_dec : EqDecision tags.
Proof. solve_decision. Defined.

(** A START message for batch [k] of the partition and a DONE message
    that answers it: both carry the coordinates of that batch. *)
Inductive is_task (p : partition) (interp : bool) (k : Z) : message -> Prop :=
| IsTask ix iy args :
    divX p !! Z.to_nat k = Some ix -> divY p !! Z.to_nat k = Some iy ->
    is_task p interp k (Message START (DTask k ix iy interp args)).

Inductive is_result (p : partition) (interp : bool) (k : Z) : message -> Prop :=
| IsResult ix iy model stokes :
    divX p !! Z.to_nat k = Some ix -> divY p !! Z.to_nat k = Some iy ->
    (interp = true -> is_Some model) ->
    is_result p interp k (Message DONE (DResult k ix iy model stokes)).

(** The situations an agent and its two channels can be in. *)
Inductive agent_wf (p : partition) (interp : bool) : agent -> Prop :=
| WfIdle : agent_wf p interp (Agent SendReady [] [])
| WfIdleDone k msg :
    is_result p interp k msg -> agent_wf p interp (Agent SendReady [] [msg])
| WfAsked : agent_wf p interp (Agent Receive [] [Message READY DNone])
| WfAskedDone k msg :
    is_result p interp k msg ->
    agent_wf p interp (Agent Receive [] [msg; Message READY DNone])
| WfTasked k msg :
    is_task p interp k msg -> agent_wf p interp (Agent Receive [msg] [])
| WfDismissed : agent_wf p interp (Agent Receive [Message EXIT DNone] [])
| WfLeaving : agent_wf p interp (Agent SendExit [] [])
| WfLeft : agent_wf p interp (Agent Returned [] [Message EXIT DNone])
| WfClosed : agent_wf p interp (Agent Returned [] []).

(** The batches in transit to or from an agent, whether it was sent
    EXIT, and whether the coordinator has counted its EXIT. *)
Definition msg_batch (msg : message) : option Z :=
  match msg_data msg with
  | DTask k _ _ _ _ => Some k
  | DResult k _ _ _ _ => Some k
  | DNone => None
  end.

Definition in_flight (a : agent) : list Z :=
  omap msg_batch (inbox a ++ outbox a).

Definition told_exit (a : agent) : bool :=
  match pc a with
  | SendExit | Returned => true
  | Receive =>
      match inbox a with
      | msg :: _ => bool_decide (msg_tag msg = EXIT)
      | [] => false
      end
  | _ => false
  end.

Definition is_closed (a : agent) : bool :=
  match pc a, outbox a with
  | Returned, [] => true
  | _, _ => false
  end.

Definition count_if (f : agent -> bool) (ags : list agent) : nat :=
  sum_list_with (fun a => if f a then 1%nat else 0%nat) ags.

Definition exits_to (r : Z) (tr : list event) : list Z :=
  filter (fun r' => r' = r) (exits tr).

Record coordinated (p : partition) (m : Model) (interp : bool) (c : Cubes)
    (s : system) : Prop := {
  co_div : m_div (sys_master s) = p;
  co_model : m_model (sys_master s) = m;
  co_interp : interpolate_model (sys_master s) = interp;
  co_cubes : cubes (m_self (sys_master s)) = Some c;
  co_workers : num_workers (sys_master s) = Z.of_nat (length (agents s));
  co_index : 0 <= task_index (sys_master s) <= p_n_batches p;
  co_agents : Forall (agent_wf p interp) (agents s);
  co_closed :
    closed_workers (sys_master s) = Z.of_nat (count_if is_closed (agents s));
  co_starts :
    starts (sys_log s) = task_of p <$> arange 0 (task_index (sys_master s));
  co_exits : length (exits (sys_log s)) = count_if told_exit (agents s);
  co_exit_each : forall w a,
    agents s !! w = Some a ->
    length (exits_to (rank_of w) (sys_log s))
    = (if told_exit a then 1%nat else 0%nat)
    /\ (told_exit a = true -> task_index (sys_master s) = p_n_batches p);
  co_done : exists done,
    done ++ (agents s ≫= in_flight) ≡ₚ arange 0 (task_index (sys_master s))
    /\ (forall d, is_stokes_db d = true ->
          cells_written d (sys_log s)
          = done ≫= (fun k => batch_pixels p (Z.to_nat k)))
    /\ (done <> [] -> is_Some (m_stokes (sys_master s)));
  co_open : is_store_closed (sys_log s) = false;
  co_some_agent : (0 < length (agents s))%nat
}.

(** What the proofs need of a partition and the cubes: the batches are
    counted by [n_batches], there is at least one, and their coordinates
    lie on the grid, which is the extent of the cubes. *)
Record fits (p : partition) (m : Model) (c : Cubes) : Prop := {
  fits_count_X : p_n_batches p = Z.of_nat (length (divX p));
  fits_count_Y : p_n_batches p = Z.of_nat (length (divY p));
  fits_some : 1 <= p_n_batches p;
  fits_shape_y : (shape c).1.2 = ny m;
  fits_shape_x : (shape c).2 = nx m;
  fits_batch : forall k ix iy,
    divX p !! k = Some ix -> divY p !! k = Some iy ->
    length ix = length iy
    /\ Forall (fun x => 0 <= x < nx m) ix
    /\ Forall (fun y => 0 <= y < ny m) iy
}.

(** The parts of the coordinator's state that its loop leaves alone. *)
Definition same_static (st st' : master) : Prop :=
  m_div st' = m_div st /\ m_model st' = m_model st
  /\ interpolate_model st' = interpolate_model st
  /\ m_self st' = m_self st /\ num_workers st' = num_workers st.

(** The events of [master_finish] when [stokes] is bound. *)
Definition finish_events (st : master) (stokes : stokes2) : list event :=
  [H5Write lambda_db [None] (WVec (stokes2_row stokes 0 0));
   H5Close f_stokes_out]
  ++ (if interpolate_model st then [H5Close f_model_out] else []).

(** [s'] is what the coordinator leaves when it ends its loop in [s]. *)
Definition finished_from (s s' : system) : Prop :=
  closed_workers (sys_master s) = num_workers (sys_master s)
  /\ Forall (fun a => is_closed a = true) (agents s)
  /\ exists stokes,
       m_stokes (sys_master s) = Some stokes
       /\ s' = System Finished (sys_master s)
                 (sys_log s ++ finish_events (sys_master s) stokes)
                 (agents s).

(** The object and the events of [mpi_master_work] when its loop
    starts. *)
Definition mpi_self (self : Iterator) (m : Model) (p : partition) : Iterator :=
  let self1 :=
    if String.eqb (atmosphere_type m) "MURAM"
    then set_cubes self (cubes_of_model m) else self in
  let self2 := set_n_batches (set_n_pixels self1 (p_n_pixels p)) (p_n_batches p) in
  match interpolated_model_filename m with
  | Some _ => set_f_model_out self2
  | None => self2
  end.

Definition mpi_setup_events (m : Model) : list event :=
  (if String.eqb (atmosphere_type m) "MURAM" then cube_events else [])
  ++ stokes_out_events m
  ++ match interpolated_model_filename m with
     | Some name =>
         [H5File f_model_out name;
          CreateDataset model_db "model" (mpi_model_shape m) None]
     | None => []
     end.

(** A run of all ranks under a schedule, from the call of
    [run_all_pixels]. *)
Definition mpi_run (self : Iterator) (rangex rangey : option (Z * Z))
    (sched : list action) : option system :=
  match mpi_start self rangex rangey with
  | Some s0 => exec sched s0
  | None => None
  end.

(** How often a trace assigns the cell of pixel [(x, y)] in [d], and the
    part of a trace that comes before the spectra file is closed. *)
Definition times_written (d : dataset) (x y : Z) (tr : list event) : nat :=
  length (filter (fun px => px = (x, y)) (cells_written d tr)).

Fixpoint until_close (tr : list event) : list event :=
  match tr with
  | [] => []
  | H5Close f_stokes_out :: _ => []
  | ev :: tr' => ev :: until_close tr'
  end.

(** The object [__init__] builds under MPI on a communicator of more
    than one process. *)
Definition mpi_process (env : mpi_env) (batch : Z) (n_batches : option Z)
  : Iterator :=
  {| use_mpi := true; size := Some (comm_size env); rank := comm_rank env;
     batch := batch; stop_after_n_batches := n_batches; model := None;
     cubes := None; n_pixels := None; n_batches := None;
     has_f_model_out := false |}.

(** Events that open a file or create a dataset. *)
Definition is_create (ev : event) : bool :=
  match ev with
  | H5File _ _ | CreateDataset _ _ _ _ => true
  | _ => false
  end.

Definition model_file_opened (tr : list event) : bool :=
  existsb (fun ev => match ev with H5File f_model_out _ => true | _ => false end) tr.

(** *** Changing what the constructor stored as [stop_after_n_batches] *)

Definition set_stop (self : Iterator) (v : option Z) : Iterator :=
  {| use_mpi := use_mpi self; size := size self; rank := rank self;
     batch := batch self; stop_after_n_batches := v;
     model := model self; cubes := cubes self; n_pixels := n_pixels self;
     n_batches := n_batches self;
     has_f_model_out := has_f_model_out self |}.

Definition master_set_stop (st : master) (v : option Z) : master :=
  Master (set_stop (m_self st) v) (m_model st) (m_div st)
         (interpolate_model st) (task_index st) (num_workers st)
         (closed_workers st) (m_stokes st).

Definition system_set_stop (s : system) (v : option Z) : system :=
  System (sys_status s) (master_set_stop (sys_master s) v) (sys_log s)
         (agents s).

(** An outcome with the stored value erased from the object it
    returns. *)
Definition erase_stop (o : io Iterator) : io Iterator :=
  Outcome (trace o)
          (match result o with
           | inl e => inl e
           | inr self => inr (set_stop self None)
           end).


(** The assignments [d[y, x, :] = v] of a trace, in order. *)
Definition stored_in (d : dataset) (ev : event)
  : option (Z * Z * list float64) :=
  match ev with
  | H5Write d' [Some y; Some x; None] (WVec v) =>
      if decide (d' = d) then Some (x, y, v) else None
  | _ => None
  end.
Definition stored (d : dataset) (tr : list event)
  : list (Z * Z * list float64) :=
  omap (stored_in d) tr.


(** Whether a run got to a state at all. *)
Definition ran {A} (o : option A) : bool :=
  match o with Some _ => true | None => false end.

End Auxiliary.

(** * Properties of the partition *)

Lemma split_sections_length {A} (sizes : list nat) (ary : list A) :
  length (split_sections sizes ary) = length sizes.
Proof.
  revert ary. induction sizes as [|n sizes IH]; intros ary; simpl; [done|].
  by rewrite IH.
Qed.

Lemma split_sections_concat {A} (sizes : list nat) (ary : list A) :
  concat (split_sections sizes ary) = take (sum_list sizes) ary.
Proof.
  revert ary. induction sizes as [|n sizes IH]; intros ary; simpl.
  - by rewrite take_0.
  - rewrite IH. apply take_take_drop.
Qed.

Lemma split_sections_lookup {A} (sizes : list nat) (ary : list A) k n :
  sizes !! k = Some n ->
  split_sections sizes ary !! k
  = Some (take n (drop (sum_list (take k sizes)) ary)).
Proof.
  revert ary k. induction sizes as [|n0 sizes IH]; intros ary k Hk; [done|].
  destruct k as [|k]; simpl in *.
  - by simplify_eq.
  - rewrite (IH _ _ Hk). by rewrite drop_drop.
Qed.

Lemma split_sections_zip {A B} (sizes : list nat) (l1 : list A) (l2 : list B) :
  split_sections sizes (zip l1 l2)
  = zip_with zip (split_sections sizes l1) (split_sections sizes l2).
Proof.
  revert l1 l2. induction sizes as [|n sizes IH]; intros l1 l2; simpl; [done|].
  by rewrite zip_with_take, zip_with_drop, IH.
Qed.

Lemma section_sizes_length Ntotal N :
  (0 < N)%nat -> length (section_sizes Ntotal N) = N.
Proof.
  intros HN. unfold section_sizes.
  rewrite length_app, !length_replicate.
  pose proof (Nat.mod_upper_bound Ntotal N). lia.
Qed.

Lemma section_sizes_sum Ntotal N :
  (0 < N)%nat -> sum_list (section_sizes Ntotal N) = Ntotal.
Proof.
  intros HN. unfold section_sizes.
  rewrite sum_list_with_app, !sum_list_replicate.
  pose proof (Nat.mod_upper_bound Ntotal N ltac:(lia)) as Hm.
  pose proof (Nat.div_mod_eq Ntotal N) as Hd. nia.
Qed.

Lemma section_sizes_lookup Ntotal N k :
  (k < N)%nat ->
  section_sizes Ntotal N !! k
  = Some (if decide (k < Ntotal `mod` N)%nat
          then S (Ntotal `div` N)%nat else (Ntotal `div` N)%nat).
Proof.
  intros Hk. unfold section_sizes.
  pose proof (Nat.mod_upper_bound Ntotal N ltac:(lia)) as Hm.
  case_decide.
  - rewrite lookup_app_l by (rewrite length_replicate; lia).
    by apply lookup_replicate_2.
  - rewrite lookup_app_r by (rewrite length_replicate; lia).
    rewrite length_replicate. apply lookup_replicate_2. lia.
Qed.

Lemma array_split_inr {A} (ary : list A) (N : Z) :
  0 < N ->
  array_split ary N
  = inr (split_sections (section_sizes (length ary) (Z.to_nat N)) ary).
Proof.
  intros HN. unfold array_split.
  destruct (Z.leb_spec N 0); [lia|]. done.
Qed.

Lemma array_split_inl {A} (ary : list A) (N : Z) :
  N <= 0 -> array_split ary N = inl ValueError.
Proof.
  intros HN. unfold array_split. destruct (Z.leb_spec N 0); [done|lia].
Qed.

Lemma arange_length a b : length (arange a b) = Z.to_nat (b - a).
Proof. unfold arange. by rewrite length_map, length_seq. Qed.

Lemma arange_lookup a b (i : nat) :
  (i < Z.to_nat (b - a))%nat -> arange a b !! i = Some (a + Z.of_nat i).
Proof.
  intros Hi. unfold arange.
  rewrite list_lookup_fmap, lookup_seq_lt by done. done.
Qed.

Lemma arange_elem a b i : i ∈ arange a b <-> a <= i < b.
Proof.
  unfold arange. rewrite list_elem_of_fmap. split.
  - intros (k & -> & Hk). apply elem_of_seq in Hk. lia.
  - intros Hi. exists (Z.to_nat (i - a)). split; [lia|].
    apply elem_of_seq. lia.
Qed.

Lemma arange_NoDup a b : NoDup (arange a b).
Proof.
  unfold arange. apply NoDup_fmap_2_strong; [|apply NoDup_seq].
  intros ???? Heq. lia.
Qed.

Lemma axis_range_elem r n i : i ∈ axis_range r n <-> in_range r n i.
Proof.
  destruct r as [[lo hi]|]; simpl; rewrite arange_elem; lia.
Qed.

Lemma axis_range_NoDup r n : NoDup (axis_range r n).
Proof. destruct r as [[lo hi]|]; apply arange_NoDup. Qed.

Lemma raster_elem x y xi yi : (xi, yi) ∈ raster x y <-> xi ∈ x /\ yi ∈ y.
Proof.
  unfold raster. rewrite list_elem_of_bind. split.
  - intros (y0 & Hin & Hy0). apply list_elem_of_fmap in Hin.
    destruct Hin as (x0 & [= -> ->] & Hx0). done.
  - intros [Hx Hy]. exists yi. split; [|done].
    apply list_elem_of_fmap. by exists xi.
Qed.

Lemma raster_NoDup x y : NoDup x -> NoDup y -> NoDup (raster x y).
Proof.
  intros Hx Hy. unfold raster. apply NoDup_bind; [| |done].
  - intros y1 y2 px _ _ H1 H2.
    apply list_elem_of_fmap in H1 as (? & -> & _).
    apply list_elem_of_fmap in H2 as (? & [= _ ->] & _). done.
  - intros yi _. apply NoDup_fmap_2_strong; [|done].
    intros ???? [= ->]. done.
Qed.

Lemma raster_length x y :
  length (raster x y) = (length y * length x)%nat.
Proof.
  unfold raster. induction y as [|yi y IH]; [done|].
  rewrite bind_cons, length_app, length_fmap, IH. simpl. done.
Qed.

Lemma meshgrid_zip x y :
  zip (meshgrid_flatten x y).1 (meshgrid_flatten x y).2 = raster x y.
Proof.
  unfold meshgrid_flatten, raster. simpl.
  induction y as [|yi y IH]; [done|].
  rewrite bind_cons. simpl.
  rewrite zip_with_app by (by rewrite length_map).
  rewrite IH. f_equal.
  clear. induction x as [|xi x IH]; simpl; [done|]. by rewrite IH.
Qed.

Lemma meshgrid_length_X x y :
  length (meshgrid_flatten x y).1 = (length y * length x)%nat.
Proof.
  simpl. induction y as [|yi y IH]; simpl; [done|].
  by rewrite length_app, IH.
Qed.

Lemma meshgrid_length_Y x y :
  length (meshgrid_flatten x y).2 = (length y * length x)%nat.
Proof.
  simpl. induction y as [|yi y IH]; simpl; [done|].
  by rewrite length_app, length_map, IH.
Qed.

(** What a successful partition is made of. *)
Lemma make_partition_inr nx ny rangex rangey batch p :
  make_partition nx ny rangex rangey batch = inr p ->
  let n := count_pixels nx ny rangex rangey in
  let sizes := section_sizes (Z.to_nat n) (Z.to_nat (n `div` batch)) in
  let XY := meshgrid_flatten (axis_range rangex nx) (axis_range rangey ny) in
  batch <> 0 /\ 0 < n `div` batch /\
  p = Partition n (n `div` batch)
        (split_sections sizes XY.1) (split_sections sizes XY.2).
Proof.
  unfold make_partition, floordiv, count_pixels. intros H.
  destruct (Z.eqb_spec batch 0) as [|Hb]; [done|].
  set (x := axis_range rangex nx) in *. set (y := axis_range rangey ny) in *.
  set (n := Z.of_nat (length x) * Z.of_nat (length y)) in *.
  simpl in H.
  destruct (Z.leb_spec (n `div` batch) 0) as [Hle|Hlt].
  { rewrite !array_split_inl in H by done. done. }
  rewrite !array_split_inr in H by done.
  fold (meshgrid_flatten x y).1 in H. 
  assert (Hn : Z.to_nat n = (length y * length x)%nat) by (unfold n; lia).
  change (concat (map (fun _ : Z => x) y)) with (meshgrid_flatten x y).1 in H.
  change (concat (map (fun yi : Z => map (fun _ : Z => yi) x) y))
    with (meshgrid_flatten x y).2 in H.
  rewrite meshgrid_length_X, meshgrid_length_Y in H.
  simpl. rewrite Hn. split; [done|]. split; [done|]. by simplify_eq.
Qed.

Lemma make_partition_batches nx ny rangex rangey batch p :
  make_partition nx ny rangex rangey batch = inr p ->
  let n := count_pixels nx ny rangex rangey in
  let sizes := section_sizes (Z.to_nat n) (Z.to_nat (n `div` batch)) in
  length (divX p) = Z.to_nat (n `div` batch) /\
  length (divY p) = Z.to_nat (n `div` batch) /\
  forall k, batch_pixels p k
            = default [] (split_sections sizes
                (raster (axis_range rangex nx) (axis_range rangey ny)) !! k).
Proof.
  intros H. apply make_partition_inr in H as (Hb & HB & ->). simpl.
  rewrite !split_sections_length, section_sizes_length by lia.
  split; [done|]. split; [done|]. intros k.
  unfold batch_pixels. simpl.
  rewrite <-meshgrid_zip, split_sections_zip, lookup_zip_with.
  simpl.
  destruct (split_sections _ (concat (map (fun _ : Z => _) _)) !! k) as [a|];
    simpl; [|done].
  destruct (split_sections _ _ !! k) as [b|]; simpl; [done|].
  by rewrite zip_with_nil_r.
Qed.

Lemma all_batches_split nx ny rangex rangey batch p :
  make_partition nx ny rangex rangey batch = inr p ->
  let n := count_pixels nx ny rangex rangey in
  all_batches p
  = split_sections (section_sizes (Z.to_nat n) (Z.to_nat (n `div` batch)))
      (raster (axis_range rangex nx) (axis_range rangey ny)).
Proof.
  intros H. pose proof (make_partition_inr _ _ _ _ _ _ H) as (_ & HB & _).
  apply make_partition_batches in H as (HX & _ & Hk). simpl in *.
  unfold all_batches. apply list_eq. intros k.
  rewrite list_lookup_fmap, HX.
  destruct (decide (k < Z.to_nat (count_pixels nx ny rangex rangey `div` batch))%nat)
    as [Hlt|Hge].
  - rewrite lookup_seq_lt by done. simpl. rewrite Hk.
    destruct (lookup_lt_is_Some_2
                (split_sections
                   (section_sizes (Z.to_nat (count_pixels nx ny rangex rangey))
                      (Z.to_nat (count_pixels nx ny rangex rangey `div` batch)))
                   (raster (axis_range rangex nx) (axis_range rangey ny))) k)
      as [b Hb].
    { rewrite split_sections_length, section_sizes_length; lia. }
    by rewrite Hb.
  - rewrite lookup_seq_ge by lia. simpl. symmetry.
    apply lookup_ge_None.
    rewrite split_sections_length, section_sizes_length; lia.
Qed.

Lemma count_pixels_raster nx ny rangex rangey :
  Z.to_nat (count_pixels nx ny rangex rangey)
  = length (raster (axis_range rangex nx) (axis_range rangey ny)).
Proof. rewrite raster_length. unfold count_pixels. lia. Qed.

Lemma all_batches_concat nx ny rangex rangey batch p :
  make_partition nx ny rangex rangey batch = inr p ->
  concat (all_batches p)
  = raster (axis_range rangex nx) (axis_range rangey ny).
Proof.
  intros H. pose proof (make_partition_inr _ _ _ _ _ _ H) as (_ & HB & _).
  rewrite (all_batches_split _ _ _ _ _ _ H). simpl.
  rewrite split_sections_concat, section_sizes_sum by lia.
  apply take_ge. rewrite count_pixels_raster. done.
Qed.

Lemma all_batches_lookup p k :
  (k < length (divX p))%nat -> all_batches p !! k = Some (batch_pixels p k).
Proof.
  intros Hk. unfold all_batches.
  by rewrite list_lookup_fmap, lookup_seq_lt.
Qed.

Lemma batch_pixels_ge p k :
  (length (divX p) <= k)%nat -> batch_pixels p k = [].
Proof.
  intros Hk. unfold batch_pixels.
  by rewrite (lookup_ge_None_2 (divX p)).
Qed.

Lemma list_elem_of_concat {A} (L : list (list A)) x :
  x ∈ concat L <-> exists l, l ∈ L /\ x ∈ l.
Proof.
  induction L as [|c L IH]; simpl.
  - split; [by intros ?%elem_of_nil|]. by intros (? & ?%elem_of_nil & _).
  - rewrite elem_of_app, IH. split.
    + intros [Hc|(l & Hl & Hx)].
      * exists c. split; [left|done].
      * exists l. split; [by right|done].
    + intros (l & Hl & Hx). apply elem_of_cons in Hl as [->|Hl]; [by left|].
      right. eauto.
Qed.

Lemma concat_disjoint {A} (L : list (list A)) j k a b x :
  NoDup (concat L) -> j <> k -> L !! j = Some a -> L !! k = Some b ->
  x ∈ a -> x ∉ b.
Proof.
  revert j k. induction L as [|c L IH]; intros j k Hnd Hjk Hj Hk Ha Hb; [done|].
  simpl in Hnd. apply NoDup_app in Hnd as (Hc & Hcross & HL).
  destruct j as [|j], k as [|k]; simpl in *; simplify_eq.
  - apply (Hcross x Ha). apply list_elem_of_concat.
    exists b. split; [by eapply list_elem_of_lookup_2|done].
  - apply (Hcross x Hb). apply list_elem_of_concat.
    exists a. split; [by eapply list_elem_of_lookup_2|done].
  - apply (IH j k); auto.
Qed.

(** C3: for bounds that are 64-bit integers, where [np.arange] yields
    integer coordinates, the batches of the coordinator's partition are
    pairwise disjoint and their union is exactly the requested pixel
    set; in order they make up the requested rectangle row by row, no
    pixel twice. *)
Theorem partition_disjoint_and_complete nx ny rangex rangey batch p :
  range_is_int64 rangex nx = true -> range_is_int64 rangey ny = true ->
  make_partition nx ny rangex rangey batch = inr p ->
  (forall x y,
      requested nx ny rangex rangey x y
      <-> exists k, (k < length (divX p))%nat /\ (x, y) ∈ batch_pixels p k)
  /\ (forall j k px,
        j <> k -> px ∈ batch_pixels p j -> px ∉ batch_pixels p k)
  /\ NoDup (concat (all_batches p)).
Proof.
  intros _ _ H. pose proof (all_batches_concat _ _ _ _ _ _ H) as Hcat.
  assert (Hnd : NoDup (concat (all_batches p))).
  { rewrite Hcat.
    apply raster_NoDup; apply axis_range_NoDup. }
  split; [|split; [|done]].
  - intros x y. unfold requested.
    rewrite <-!axis_range_elem, <-raster_elem, <-Hcat, list_elem_of_concat.
    split.
    + intros (b & Hb & Hx). apply list_elem_of_lookup in Hb as [k Hk].
      pose proof (lookup_lt_Some _ _ _ Hk) as Hlt.
      unfold all_batches in Hlt. rewrite length_map, length_seq in Hlt.
      rewrite all_batches_lookup in Hk by done. simplify_eq. eauto.
    + intros (k & Hk & Hx). exists (batch_pixels p k). split; [|done].
      eapply list_elem_of_lookup_2. by apply all_batches_lookup.
  - intros j k px Hjk Hj Hk.
    destruct (decide (j < length (divX p))%nat) as [Hjl|Hjl];
      [|rewrite batch_pixels_ge in Hj by lia; by apply elem_of_nil in Hj].
    destruct (decide (k < length (divX p))%nat) as [Hkl|Hkl];
      [|rewrite batch_pixels_ge in Hk by lia; by apply elem_of_nil in Hk].
    revert Hk. eapply (concat_disjoint (all_batches p) j k); eauto.
    all: by apply all_batches_lookup.
Qed.

Lemma partition_disjoint_and_complete_witness :
  exists p,
    make_partition 4 4 None None 4 = inr p
    /\ (forall x y,
          requested 4 4 None None x y
          <-> exists k, (k < length (divX p))%nat /\ (x, y) ∈ batch_pixels p k)
    /\ (forall j k px,
          j <> k -> px ∈ batch_pixels p j -> px ∉ batch_pixels p k)
    /\ NoDup (concat (all_batches p)).
Proof.
  eexists. split; [reflexivity|].
  apply (partition_disjoint_and_complete 4 4 None None 4); reflexivity.
Defined.

Lemma sum_list_take_le (sizes : list nat) k s :
  sizes !! k = Some s ->
  (sum_list (take k sizes) + s <= sum_list sizes)%nat.
Proof.
  intros Hk. rewrite <-(take_drop_middle sizes k s Hk) at 2.
  rewrite sum_list_with_app. simpl. lia.
Qed.

Lemma batch_pixels_length nx ny rangex rangey batch p k :
  make_partition nx ny rangex rangey batch = inr p ->
  let n := Z.to_nat (count_pixels nx ny rangex rangey) in
  let B := Z.to_nat (count_pixels nx ny rangex rangey `div` batch) in
  (k < B)%nat ->
  length (batch_pixels p k)
  = if decide (k < n `mod` B)%nat then S (n `div` B) else (n `div` B)%nat.
Proof.
  intros H n B Hk.
  pose proof (make_partition_inr _ _ _ _ _ _ H) as (_ & HB & _).
  apply make_partition_batches in H as (_ & _ & Hpx).
  rewrite Hpx. fold n B.
  pose proof (section_sizes_lookup n B k Hk) as Hs.
  rewrite (split_sections_lookup _ _ _ _ Hs). simpl.
  rewrite length_take, length_drop.
  pose proof (sum_list_take_le _ _ _ Hs) as Hle.
  rewrite section_sizes_sum in Hle by lia.
  rewrite <-count_pixels_raster. fold n. lia.
Qed.

Lemma count_pixels_nonneg nx ny rangex rangey :
  0 <= count_pixels nx ny rangex rangey.
Proof. unfold count_pixels. lia. Qed.

Lemma make_partition_succeeds nx ny rangex rangey batch :
  1 <= batch <= count_pixels nx ny rangex rangey ->
  exists p, make_partition nx ny rangex rangey batch = inr p.
Proof.
  intros Hb.
  assert (HB : 0 < count_pixels nx ny rangex rangey `div` batch)
    by (apply Z.div_str_pos; lia).
  unfold make_partition, floordiv.
  fold (count_pixels nx ny rangex rangey).
  destruct (Z.eqb_spec batch 0); [lia|]. simpl.
  rewrite !array_split_inr by done. by eexists.
Qed.

(** C4, as the code has it: for a batch size between 1 and the number
    of requested pixels the partition has floor(n / b) batches, the
    first [n mod B] of them one pixel larger than the others, every one
    of at least [b] pixels and all pixels kept; no clamping takes place,
    and a batch size above the pixel count gives a batch count of 0, which
    [array_split] refuses. *)
Theorem batch_count_and_sizes nx ny rangex rangey batch :
  let n := count_pixels nx ny rangex rangey in
  let B := n `div` batch in
  (1 <= batch <= n ->
   exists p,
     make_partition nx ny rangex rangey batch = inr p
     /\ p_n_batches p = B
     /\ length (all_batches p) = Z.to_nat B
     /\ (forall k, (k < Z.to_nat B)%nat ->
           Z.of_nat (length (batch_pixels p k))
           = (if decide (Z.of_nat k < n `mod` B)
              then n `div` B + 1 else n `div` B)
           /\ batch <= Z.of_nat (length (batch_pixels p k)))
     /\ Z.of_nat (length (concat (all_batches p))) = n)
  /\ (n < batch -> make_partition nx ny rangex rangey batch = inl ValueError).
Proof.
  intros n B.
  pose proof (count_pixels_nonneg nx ny rangex rangey) as Hn0. fold n in Hn0.
  split.
  - intros Hb.
    assert (HB : 0 < B) by (apply Z.div_str_pos; lia).
    destruct (make_partition_succeeds nx ny rangex rangey batch Hb) as [p Hp].
    exists p. split; [done|].
    pose proof (make_partition_inr _ _ _ _ _ _ Hp) as (_ & _ & Heq).
    pose proof (make_partition_batches _ _ _ _ _ _ Hp) as (HX & _ & _).
    split; [by rewrite Heq|].
    split; [unfold all_batches; by rewrite length_map, length_seq, HX|].
    split.
    + intros k Hk.
      rewrite (batch_pixels_length _ _ _ _ _ _ _ Hp) by done.
      fold n B.
      assert (Hq : Z.of_nat (Z.to_nat n `div` Z.to_nat B)%nat = n `div` B).
      { rewrite Nat2Z.inj_div, !Z2Nat.id by lia. done. }
      assert (Hr : Z.of_nat (Z.to_nat n `mod` Z.to_nat B)%nat = n `mod` B).
      { rewrite Nat2Z.inj_mod, !Z2Nat.id by lia. done. }
      assert (Hlow : batch <= n `div` B).
      { apply Z.div_le_lower_bound; [done|].
        pose proof (Z.mul_div_le n batch ltac:(lia)). fold B in H. lia. }
      repeat case_decide; lia.
    + rewrite (all_batches_concat _ _ _ _ _ _ Hp).
      rewrite <-count_pixels_raster. fold n. lia.
  - intros Hlt. unfold make_partition, floordiv.
    fold (count_pixels nx ny rangex rangey). fold n.
    destruct (Z.eqb_spec batch 0); [lia|]. simpl.
    rewrite Z.div_small by lia. done.
Qed.

Lemma batch_count_and_sizes_witness :
  exists p,
    make_partition 10 10 (Some (2, 5)) None 7 = inr p
    /\ p_n_batches p = 4
    /\ length (all_batches p) = 4%nat
    /\ Z.of_nat (length (concat (all_batches p))) = 30.
Proof.
  destruct (batch_count_and_sizes 10 10 (Some (2, 5)) None 7) as [H _].
  destruct H as (p & Hp & HB & Hlen & _ & Hall); [vm_compute; split; discriminate|].
  exists p. split; [exact Hp|]. split; [exact HB|]. split; [exact Hlen|].
  exact Hall.
Defined.

(** C4, the claim as it stands fails: three pixels and a batch size of
    five are not clamped to three batches, the partition step raises. *)
Lemma batch_larger_than_grid_raises :
  count_pixels 3 1 None None = 3
  /\ make_partition 3 1 None None 5 = inl ValueError.
Proof. split; reflexivity. Qed.

(** The scenarios of the specification: a 4 by 4 grid in batches of 4,
    and a 10 by 10 grid restricted to the columns 2, 3 and 4. *)
Example grid_4x4_batch_4 :
  exists p, make_partition 4 4 None None 4 = inr p
  /\ all_batches p
     = [[(0,0); (1,0); (2,0); (3,0)]; [(0,1); (1,1); (2,1); (3,1)];
        [(0,2); (1,2); (2,2); (3,2)]; [(0,3); (1,3); (2,3); (3,3)]].
Proof. eexists. split; reflexivity. Qed.

Example grid_10x10_columns_2_to_5 :
  count_pixels 10 10 (Some (2, 5)) (Some (0, 10)) = 30
  /\ exists p, make_partition 10 10 (Some (2, 5)) (Some (0, 10)) 7 = inr p
     /\ length <$> all_batches p = [8; 8; 7; 7]%nat
     /\ Forall (fun px => 2 <= px.1 < 5 /\ 0 <= px.2 < 10)
          (concat (all_batches p)).
Proof.
  split; [reflexivity|]. eexists. split; [reflexivity|].
  split; [reflexivity|]. vm_compute. repeat constructor; discriminate.
Qed.

(** * Properties of the trace-and-error monad *)

Section Monad.
Context {E : Type}.

Lemma bind_inr {A B} (c : outcome E A) (k : A -> outcome E B) a :
  result c = inr a ->
  bind c k = Outcome (trace c ++ trace (k a)) (result (k a)).
Proof. intros H. unfold bind. by rewrite H. Qed.

Lemma bind_inl {A B} (c : outcome E A) (k : A -> outcome E B) e :
  result c = inl e -> bind c k = Outcome (trace c) (inl e).
Proof. intros H. unfold bind. by rewrite H. Qed.

Lemma bind_ret_l {A B} (a : A) (k : A -> outcome E B) : bind (ret a) k = k a.
Proof. unfold bind. simpl. by destruct (k a). Qed.

Lemma bind_raise {A B} (e : exn) (k : A -> outcome E B) :
  bind (raise e) k = raise e.
Proof. done. Qed.

Lemma bind_result_inr {A B} (c : outcome E A) (k : A -> outcome E B) b :
  result (bind c k) = inr b ->
  exists a, result c = inr a /\ result (k a) = inr b
            /\ trace (bind c k) = trace c ++ trace (k a).
Proof.
  unfold bind. destruct (result c) as [e|a]; simpl; [done|]. eauto.
Qed.

(** What a loop leaves in a projection of the trace when it runs to its
    end. *)
Lemma for_fold_omap {A S B} (f : E -> option B) (g : A -> list B)
    (l : list A) (body : A -> S -> outcome E S) :
  (forall a s s', a ∈ l -> result (body a s) = inr s' ->
                  omap f (trace (body a s)) = g a) ->
  forall s s', result (for_fold l s body) = inr s' ->
               omap f (trace (for_fold l s body)) = l ≫= g.
Proof.
  induction l as [|a l IH]; intros Hbody s s' Hres; [done|].
  cbn [for_fold] in *. apply bind_result_inr in Hres as (s1 & H1 & H2 & ->).
  rewrite omap_app, bind_cons.
  rewrite (Hbody a s s1) by (done || left).
  rewrite (IH (fun a0 s0 s0' Hin => Hbody a0 s0 s0' (list_elem_of_further _ _ _ Hin)) s1 s')
    by done.
  done.
Qed.

(** A loop whose body cannot fail does not fail, and what holds of the
    locals after every turn holds at the end. *)
Lemma for_fold_succeeds {A S} (Q : S -> Prop) (l : list A)
    (body : A -> S -> outcome E S) :
  (forall a s, a ∈ l -> exists s', result (body a s) = inr s' /\ Q s') ->
  forall s, l <> [] \/ Q s ->
            exists s', result (for_fold l s body) = inr s' /\ Q s'.
Proof.
  induction l as [|a l IH]; intros Hbody s Hs.
  - destruct Hs as [?|Hs]; [done|]. exists s. done.
  - destruct (Hbody a s ltac:(left)) as (s1 & H1 & HQ).
    destruct (IH (fun a0 s0 Hin => Hbody a0 s0 (list_elem_of_further _ _ _ Hin))
                 s1 (or_intror HQ)) as (s2 & H2 & HQ2).
    exists s2. split; [|done]. simpl. unfold bind. by rewrite H1.
Qed.

Lemma bind_Forall {A B} (P : E -> Prop) (c : outcome E A)
    (k : A -> outcome E B) :
  Forall P (trace c) -> (forall a, Forall P (trace (k a))) ->
  Forall P (trace (bind c k)).
Proof.
  intros Hc Hk. unfold bind. destruct (result c); simpl; [done|].
  apply Forall_app. auto.
Qed.

Lemma for_fold_Forall {A S} (P : E -> Prop) (l : list A)
    (body : A -> S -> outcome E S) :
  (forall a s, Forall P (trace (body a s))) ->
  forall s, Forall P (trace (for_fold l s body)).
Proof.
  intros Hbody. induction l as [|a l IH]; intros s; simpl; [done|].
  apply bind_Forall; auto.
Qed.

End Monad.

(** * Properties of the serial path *)

Lemma norm_index_id n i : 0 <= i < n -> norm_index n i = Some i.
Proof.
  intros H. unfold norm_index.
  destruct (Z.leb_spec 0 i); [|lia]. destruct (Z.ltb_spec i n); [|lia]. done.
Qed.

Lemma norm_index_Some n i j :
  norm_index n i = Some j -> 0 <= i -> j = i /\ i < n.
Proof.
  unfold norm_index. intros H Hi.
  destruct (Z.leb_spec 0 i); [|lia]. destruct (Z.ltb_spec i n); simpl in H.
  - by simplify_eq.
  - destruct (Z.ltb_spec i 0); [lia|]. rewrite andb_false_r in H. done.
Qed.

Section Serial.
Context `{Ph : Physics}.

Lemma h5_setitem_stokes d (m : Model) iy ix :
  0 <= iy < ny m -> 0 <= ix < nx m ->
  h5_setitem d (stokes_shape m) [Some iy; Some ix; None]
  = fun v => emit (H5Write d [Some iy; Some ix; None] v).
Proof.
  intros Hy Hx. unfold h5_setitem, stokes_shape. simpl.
  by rewrite !norm_index_id.
Qed.

Lemma h5_setitem_nonmpi_model (m : Model) iy ix :
  0 <= iy < ny m -> 0 <= ix < nx m ->
  h5_setitem model_db (nonmpi_model_shape m) [Some iy; Some ix; None; None]
  = fun v => emit (H5Write model_db [Some iy; Some ix; None; None] v).
Proof.
  intros Hy Hx. unfold h5_setitem, nonmpi_model_shape. simpl.
  by rewrite !norm_index_id.
Qed.

(** One turn of the serial loop on a pixel of the grid: either it
    raises before any assignment, or it assigns the four spectra of the
    pixel, after the resampled model when that is asked for. *)
Lemma nonmpi_pixel_inv (self : Iterator) (m : Model) interpolate iy ix :
  0 <= iy < ny m -> 0 <= ix < nx m ->
  (exists e, nonmpi_pixel self m interpolate iy ix = Outcome [] (inl e))
  \/ (exists stokes pre,
        nonmpi_pixel self m interpolate iy ix
        = Outcome (pre ++
             [H5Write stokesI_db [Some iy; Some ix; None] (WVec (stokes1_row stokes 1));
              H5Write stokesQ_db [Some iy; Some ix; None] (WVec (stokes1_row stokes 2));
              H5Write stokesU_db [Some iy; Some ix; None] (WVec (stokes1_row stokes 3));
              H5Write stokesV_db [Some iy; Some ix; None] (WVec (stokes1_row stokes 4))])
            (inr stokes)
        /\ (pre = [] \/ exists v, pre = [H5Write model_db [Some iy; Some ix; None; None] v])).
Proof.
  intros Hy Hx. unfold nonmpi_pixel.
  rewrite !h5_setitem_stokes, !h5_setitem_nonmpi_model by done.
  destruct (cubes self) as [c|]; [|left; by eexists].
  unfold at_pixel, getattr. rewrite bind_ret_l.
  destruct (shape c) as [[nz cy] cx].
  destruct (norm_index cy iy) as [y|]; [|left; by eexists].
  destruct (norm_index cx ix) as [x|]; [|left; by eexists].
  rewrite bind_ret_l.
  right. destruct interpolate.
  - unfold bind; simpl. destruct (synth _ _) as [st mo]. simpl.
    exists st, [H5Write model_db [Some iy; Some ix; None; None] (WResampled mo)].
    split; [reflexivity|]. right. by eexists.
  - eexists _, []. split; [reflexivity|]. by left.
Qed.

Lemma nonmpi_pixel_ok (self : Iterator) (m : Model) c interpolate iy ix :
  cubes self = Some c -> (shape c).1.2 = ny m -> (shape c).2 = nx m ->
  0 <= iy < ny m -> 0 <= ix < nx m ->
  exists s, result (nonmpi_pixel self m interpolate iy ix) = inr s.
Proof.
  intros Hc Hsy Hsx Hy Hx.
  destruct (nonmpi_pixel_inv self m interpolate iy ix Hy Hx)
    as [[e He]|(st & pre & He & _)]; [|rewrite He; by eexists].
  exfalso. revert He. unfold nonmpi_pixel.
  rewrite !h5_setitem_stokes, !h5_setitem_nonmpi_model by done.
  rewrite Hc. unfold at_pixel, getattr. rewrite bind_ret_l.
  destruct (shape c) as [[nz cy] cx]. simpl in *. subst.
  rewrite !norm_index_id by done. rewrite bind_ret_l.
  destruct interpolate; unfold bind; simpl.
  - destruct (synth _ _) as [st mo]. simpl. done.
  - done.
Qed.

Lemma nonmpi_pixel_cells (self : Iterator) (m : Model) interpolate iy ix d s :
  0 <= iy < ny m -> 0 <= ix < nx m -> is_stokes_db d = true ->
  result (nonmpi_pixel self m interpolate iy ix) = inr s ->
  cells_written d (trace (nonmpi_pixel self m interpolate iy ix)) = [(ix, iy)].
Proof.
  intros Hy Hx Hd Hres.
  destruct (nonmpi_pixel_inv self m interpolate iy ix Hy Hx)
    as [[e He]|(st & pre & He & Hpre)]; [by rewrite He in Hres|].
  rewrite He. unfold cells_written. simpl. rewrite omap_app.
  assert (omap (cell_of d) pre = []) as ->.
  { destruct Hpre as [->|[v ->]]; [done|]. done. }
  destruct d; try done.
Qed.

(** The two nested loops assign the cells of the whole grid, row by
    row. *)
Lemma nonmpi_loop_cells (self : Iterator) (m : Model) interpolate d s :
  is_stokes_db d = true ->
  result (nonmpi_loop self m interpolate) = inr s ->
  cells_written d (trace (nonmpi_loop self m interpolate))
  = raster (arange 0 (nx m)) (arange 0 (ny m)).
Proof.
  intros Hd Hres. unfold nonmpi_loop, cells_written in *.
  transitivity
    (arange 0 (ny m) ≫= (fun iy => (fun xi => (xi, iy)) <$> arange 0 (nx m)));
    [|done].
  eapply (for_fold_omap (cell_of d)); [|exact Hres].
  intros iy s0 s0' Hiy Hin. simpl in *.
  transitivity (arange 0 (nx m) ≫= (fun ix => [(ix, iy)])).
  - eapply (for_fold_omap (cell_of d)); [|exact Hin].
    intros ix s1 s1' Hix Hp.
    apply bind_result_inr in Hp as (st & Hst & _ & ->).
    simpl. rewrite app_nil_r.
    apply arange_elem in Hiy, Hix.
    by apply (nonmpi_pixel_cells self m interpolate iy ix d st); try lia.
  - clear. induction (arange 0 (nx m)) as [|a l IH]; [done|].
    rewrite bind_cons, fmap_cons, IH. done.
Qed.

Lemma nonmpi_loop_ok (self : Iterator) (m : Model) c interpolate :
  cubes self = Some c -> (shape c).1.2 = ny m -> (shape c).2 = nx m ->
  0 < nx m -> 0 < ny m ->
  exists s, result (nonmpi_loop self m interpolate) = inr (Some s).
Proof.
  intros Hc Hsy Hsx Hnx Hny. unfold nonmpi_loop.
  destruct (for_fold_succeeds (E := event) (fun s => exists v, s = Some v)
              (arange 0 (ny m))
              (fun iy stokes =>
                 for_fold (arange 0 (nx m)) stokes (fun ix _ =>
                   s <- nonmpi_pixel self m interpolate iy ix ;; ret (Some s))))
    with (s := @None stokes1) as (s' & Hres & [v ->]).
  - intros iy s Hiy. apply arange_elem in Hiy.
    apply for_fold_succeeds.
    + intros ix s1 Hix. apply arange_elem in Hix.
      destruct (nonmpi_pixel_ok self m c interpolate iy ix) as [st Hst];
        try done; try lia.
      exists (Some st). split; [|by eexists].
      unfold bind. by rewrite Hst.
    + left. intros Hnil. apply (f_equal length) in Hnil.
      rewrite arange_length in Hnil. simpl in Hnil. lia.
  - left. intros Hnil. apply (f_equal length) in Hnil.
    rewrite arange_length in Hnil. simpl in Hnil. lia.
  - by exists v.
Qed.

End Serial.

(** * The constructor *)

(** C8: constructing the iterator with [use_mpi] set on a communicator
    of size 1 raises, with no event performed before; whatever would
    follow the construction is not run. *)
Theorem init_rejects_single_process `{Ph : Physics} (env : mpi_env)
    (batch : Z) (n_batches : option Z) :
  comm_size env = 1 ->
  exists e,
    __init__ env true batch n_batches = Outcome [] (inl e)
    /\ forall B (k : Iterator -> io B),
         bind (__init__ env true batch n_batches) k = Outcome [] (inl e).
Proof.
  intros Hsize. unfold __init__. rewrite Hsize. simpl.
  destruct (_mpi_available env); simpl; eexists; split; reflexivity.
Qed.

Lemma init_rejects_single_process_witness :
  comm_size (toy_env 1) = 1
  /\ exists e,
       __init__ (Ph := toy) (toy_env 1) true 4 None = Outcome [] (inl e)
       /\ forall B (k : @Iterator toy -> @io toy B),
            bind (__init__ (toy_env 1) true 4 None) k = Outcome [] (inl e).
Proof.
  split; [reflexivity|].
  apply (init_rejects_single_process (toy_env 1) 4 None). reflexivity.
Defined.

(** * The serial path as a whole *)

Section SerialWork.
Context `{Ph : Physics}.

Lemma bind_assoc {E A B C} (c : outcome E A) (k : A -> outcome E B)
    (h : B -> outcome E C) :
  bind (bind c k) h = bind c (fun a => bind (k a) h).
Proof.
  unfold bind. destruct (result c) as [e|a]; simpl; [done|].
  destruct (result (k a)); simpl; by rewrite ?app_assoc.
Qed.

Lemma store_fits_error (m : Model) :
  create_dataset_error (stokes_shape m) (Some [64; 64; n_lambda_sir m])
  = (if store_fits m then None
     else if (ny m <? 64) || (nx m <? 64) then Some ValueError
     else if n_lambda_sir m <? 0 then Some OverflowError
     else Some ValueError).
Proof.
  unfold create_dataset_error, store_fits, stokes_shape. simpl.
  destruct (Z.leb_spec 64 (ny m)), (Z.leb_spec 64 (nx m)),
    (Z.leb_spec 1 (n_lambda_sir m)), (Z.ltb_spec (ny m) 64),
    (Z.ltb_spec (nx m) 64), (Z.ltb_spec (n_lambda_sir m) (n_lambda_sir m)),
    (Z.ltb_spec (n_lambda_sir m) 0), (Z.eqb_spec (n_lambda_sir m) 0);
    simpl; try lia; reflexivity.
Qed.

(** The spectra file and its datasets: created when the chunks fit,
    refused at the first dataset otherwise. *)
Lemma create_stokes_out_eq (m : Model) :
  create_stokes_out m
  = (if store_fits m then Outcome (stokes_out_events m) (inr tt)
     else Outcome (refused m).1 (inl (refused m).2)).
Proof.
  unfold create_stokes_out, create_dataset, refused.
  rewrite store_fits_error.
  destruct (store_fits m) eqn:Hfits.
  - unfold store_fits in Hfits.
    assert (create_dataset_error [n_lambda_sir m] None = None) as ->.
    { unfold create_dataset_error. simpl.
      destruct (Z.ltb_spec (n_lambda_sir m) 0); [|done].
      destruct (Z.leb_spec 1 (n_lambda_sir m)); [lia|].
      by rewrite andb_false_r in Hfits. }
    reflexivity.
  - destruct (_ || _); [reflexivity|].
    destruct (_ <? _); reflexivity.
Qed.

Lemma model_dataset_error (m : Model) shp :
  store_fits m = true -> shp = nonmpi_model_shape m \/ shp = mpi_model_shape m ->
  create_dataset_error shp None
  = (if 0 <=? n_tau m then None else Some OverflowError).
Proof.
  unfold store_fits, create_dataset_error. intros Hfits Hshp.
  apply andb_prop in Hfits as [Hfits _]. apply andb_prop in Hfits as [Hy Hx].
  apply Z.leb_le in Hy, Hx.
  destruct Hshp as [-> | ->]; unfold nonmpi_model_shape, mpi_model_shape; simpl;
    destruct (Z.ltb_spec (ny m) 0), (Z.ltb_spec (nx m) 0),
      (Z.ltb_spec (n_tau m) 0), (Z.leb_spec 0 (n_tau m));
    simpl; try lia; reflexivity.
Qed.

(** The files of the serial path. *)
Lemma nonmpi_open_eq (self : Iterator) (m : Model) :
  (create_stokes_out m ;;; nonmpi_open_model self m)
  = (if h5_accepts m then
       Outcome (stokes_out_events m
                ++ match interpolated_model_filename m with
                   | Some name =>
                       [H5File f_model_out name;
                        CreateDataset model_db "model" (nonmpi_model_shape m)
                          None]
                   | None => []
                   end)
               (inr (match interpolated_model_filename m with
                     | Some _ => (set_f_model_out self, true)
                     | None => (self, false)
                     end))
     else Outcome (refused m).1 (inl (refused m).2)).
Proof.
  rewrite create_stokes_out_eq. unfold h5_accepts.
  destruct (store_fits m) eqn:Hfits; [|done]. cbn [andb].
  unfold nonmpi_open_model, create_dataset, refused.
  rewrite store_fits_error, Hfits.
  destruct (interpolated_model_filename m) as [name|].
  - rewrite (model_dataset_error m) by auto.
    destruct (0 <=? n_tau m); reflexivity.
  - unfold bind. simpl. by rewrite ?app_nil_r.
Qed.

Lemma nonmpi_work_eq (self : Iterator) (m : Model) rangex rangey :
  model self = Some m ->
  let loop := nonmpi_loop (nonmpi_self self m) m (nonmpi_interpolate m) in
  nonmpi_work self rangex rangey
  = if h5_accepts m then
      match result loop with
      | inl e => Outcome (nonmpi_setup_events m ++ trace loop) (inl e)
      | inr None => Outcome (nonmpi_setup_events m ++ trace loop) (inl NameError)
      | inr (Some s) =>
          if has_f_model_out (nonmpi_self self m) then
            Outcome (nonmpi_setup_events m ++ trace loop
                     ++ [H5Write lambda_db [None] (WVec (stokes1_row s 0));
                         H5Close f_stokes_out; H5Close f_model_out])
                    (inr (nonmpi_self self m))
          else
            Outcome (nonmpi_setup_events m ++ trace loop
                     ++ [H5Write lambda_db [None] (WVec (stokes1_row s 0));
                         H5Close f_stokes_out])
                    (inl AttributeError)
      end
    else Outcome (load_events m ++ (refused m).1) (inl (refused m).2).
Proof.
  intros Hm. unfold nonmpi_work. rewrite Hm. unfold getattr.
  rewrite bind_ret_l.
  assert (Hload : forall B (k : Iterator -> io B),
            bind (load_cubes self m) k
            = bind (Outcome (load_events m) (inr tt))
                (fun _ => k (if String.eqb (atmosphere_type m) "MURAM"
                             then set_cubes self (cubes_of_model m)
                             else self))).
  { intros B k. unfold load_cubes, load_events, bind.
    destruct (String.eqb _ _); simpl; by destruct (k _). }
  rewrite Hload. clear Hload.
  set (self1 := if String.eqb (atmosphere_type m) "MURAM"
                then set_n_pixels (set_cubes self (cubes_of_model m))
                       (nx m * ny m)
                else self).
  assert (Hself1 : (if String.eqb (atmosphere_type m) "MURAM"
                    then set_n_pixels
                           (if String.eqb (atmosphere_type m) "MURAM"
                            then set_cubes self (cubes_of_model m) else self)
                           (nx m * ny m)
                    else if String.eqb (atmosphere_type m) "MURAM"
                         then set_cubes self (cubes_of_model m) else self)
                   = self1).
  { unfold self1. by destruct (String.eqb _ _). }
  rewrite Hself1. clear Hself1.
  rewrite <-(bind_assoc (create_stokes_out m)), nonmpi_open_eq.
  destruct (h5_accepts m); [|reflexivity].
  assert (Hns : nonmpi_self self m
                = match interpolated_model_filename m with
                  | Some _ => set_f_model_out self1
                  | None => self1
                  end) by reflexivity.
  unfold nonmpi_setup_events, nonmpi_interpolate, load_events.
  rewrite Hns. clear Hns.
  destruct (String.eqb (atmosphere_type m) "MURAM");
    destruct (interpolated_model_filename m) as [name|];
    unfold bind; simpl;
    match goal with
    | |- context [result ?l] => destruct (result l) as [e|[s|]]
    end; simpl; rewrite ?app_nil_r, <-?app_assoc; simpl;
    try reflexivity;
    match goal with
    | |- context [has_f_model_out ?l] => destruct (has_f_model_out l)
    end; simpl; rewrite ?app_nil_r, <-?app_assoc; simpl; reflexivity.
Qed.

End SerialWork.

Section SerialSession.
Context `{Ph : Physics}.

Lemma serial_session_eq env batch n_batches (m : Model) rangex rangey :
  serial_session env batch n_batches m rangex rangey
  = nonmpi_work (use_model (sole_process batch n_batches) m) rangex rangey.
Proof. unfold serial_session, __init__. by rewrite bind_ret_l. Qed.

Lemma nonmpi_setup_no_cells (m : Model) d :
  cells_written d (nonmpi_setup_events m) = [].
Proof.
  unfold nonmpi_setup_events, cells_written.
  destruct (String.eqb _ _); destruct (interpolated_model_filename m); done.
Qed.

Lemma cells_written_app d (t1 t2 : list event) :
  cells_written d (t1 ++ t2) = cells_written d t1 ++ cells_written d t2.
Proof. apply omap_app. Qed.

Lemma grid_loaded_cubes (self : Iterator) (m : Model) :
  grid_loaded m = true ->
  exists c, cubes (nonmpi_self self m) = Some c
            /\ (shape c).1.2 = ny m /\ (shape c).2 = nx m.
Proof.
  unfold grid_loaded, nonmpi_self. intros H.
  apply andb_prop in H as [H Hx]. apply andb_prop in H as [Ha Hy].
  rewrite Ha. exists (cubes_of_model m).
  split; [by destruct (interpolated_model_filename m)|].
  simpl. lia.
Qed.

Lemma refused_small_grid (m : Model) :
  (ny m <? 64) || (nx m <? 64) = true ->
  h5_accepts m = false
  /\ refused m = ([H5File f_stokes_out (output_file m)], ValueError).
Proof.
  intros Hsmall.
  assert (Hfits : store_fits m = false).
  { unfold store_fits. apply orb_prop in Hsmall as [H|H];
      apply Z.ltb_lt in H.
    - destruct (Z.leb_spec 64 (ny m)); [lia|done].
    - destruct (Z.leb_spec 64 (nx m)); [lia|]. by rewrite andb_false_r. }
  split; [unfold h5_accepts; by rewrite Hfits|].
  unfold refused. by rewrite store_fits_error, Hfits, Hsmall.
Qed.

Lemma h5_accepts_grid (m : Model) :
  h5_accepts m = true -> 64 <= nx m /\ 64 <= ny m /\ 1 <= n_lambda_sir m.
Proof.
  unfold h5_accepts, store_fits. intros H.
  apply andb_prop in H as [H _]. apply andb_prop in H as [H Hl].
  apply andb_prop in H as [Hy Hx]. apply Z.leb_le in Hy, Hx, Hl. lia.
Qed.

(** C9, as the code has it: a serial run that asks for no interpolated
    model, on an object that never opened a model file, does not complete
    without error. On a grid below 64 by 64 it raises [ValueError] when
    it creates the first dataset, before any pixel. On a grid that the
    store accepts, with the cubes loaded, it computes and stores every
    pixel of the grid, writes the wavelength axis and closes the spectra
    file; then [self.f_model_out.close()] raises [AttributeError] when
    the attribute was never assigned, and closes the handle of an earlier
    run, after which the run completes, when it was. *)
Theorem serial_without_interpolation_raises (self : Iterator) (m : Model)
    rangex rangey :
  model self = Some m ->
  interpolated_model_filename m = None ->
  (has_f_model_out self = false ->
   succeeded (nonmpi_work self rangex rangey) = false)
  /\ ((ny m <? 64) || (nx m <? 64) = true ->
      nonmpi_work self rangex rangey
      = Outcome (load_events m ++ [H5File f_stokes_out (output_file m)])
                (inl ValueError))
  /\ (h5_accepts m = true -> grid_loaded m = true ->
      exists pre v,
        nonmpi_work self rangex rangey
        = Outcome (pre ++ [H5Write lambda_db [None] v; H5Close f_stokes_out]
                   ++ (if has_f_model_out self then [H5Close f_model_out]
                       else []))
                  (if has_f_model_out self then inr (nonmpi_self self m)
                   else inl AttributeError)
        /\ forall d, is_stokes_db d = true ->
             cells_written d pre = raster (arange 0 (nx m)) (arange 0 (ny m))).
Proof.
  intros Hm Hint.
  assert (Hf : has_f_model_out (nonmpi_self self m) = has_f_model_out self).
  { unfold nonmpi_self. rewrite Hint. by destruct (String.eqb _ _). }
  split_and!.
  - intros Hno. rewrite (nonmpi_work_eq _ m) by done. rewrite Hf, Hno.
    destruct (h5_accepts m); [|done].
    unfold succeeded. by destruct (result (nonmpi_loop _ _ _)) as [e|[s|]].
  - intros Hsmall. rewrite (nonmpi_work_eq _ m) by done.
    destruct (refused_small_grid m Hsmall) as [-> ->]. reflexivity.
  - intros Hacc Hg. rewrite (nonmpi_work_eq _ m) by done. rewrite Hacc, Hf.
    destruct (h5_accepts_grid m Hacc) as (Hnx & Hny & _).
    destruct (grid_loaded_cubes self m Hg) as (c & Hc & Hsy & Hsx).
    destruct (nonmpi_loop_ok _ m c (nonmpi_interpolate m) Hc Hsy Hsx)
      as [s Hs]; [lia|lia|].
    rewrite Hs.
    exists (nonmpi_setup_events m
            ++ trace (nonmpi_loop (nonmpi_self self m) m (nonmpi_interpolate m))),
      (WVec (stokes1_row s 0)).
    split.
    { destruct (has_f_model_out self); by rewrite <-app_assoc. }
    intros d Hd. rewrite cells_written_app, nonmpi_setup_no_cells. simpl.
    by eapply nonmpi_loop_cells.
Qed.

End SerialSession.

Lemma serial_without_interpolation_raises_witness :
  succeeded (nonmpi_work (use_model (sole_process 1 None) (toy_grid "vz" None))
               None None) = false.
Proof.
  destruct (serial_without_interpolation_raises
              (use_model (sole_process 1 None) (toy_grid "vz" None))
              (toy_grid "vz" None) None None) as (H & _ & _);
    [reflexivity|reflexivity|].
  apply H. reflexivity.
Defined.

(** C9, the claim as it stands fails in two ways. An object that ran
    with interpolation keeps the handle of its model file, so a second
    run on it, without interpolation, closes that handle again and
    completes without error. And on a grid of 2 by 1 pixels the run ends
    with [ValueError] at the first dataset, whose chunks of 64 by 64
    pixels do not fit, before any pixel is computed. *)
Lemma serial_rerun_completes :
  match result (serial_session (toy_env 1) 1 None
                  (toy_grid "vz" (Some "model.h5")) None None) with
  | inr self1 =>
      interpolated_model_filename (toy_grid "vz" None) = None
      /\ succeeded (run_all_pixels (use_model self1 (toy_grid "vz" None))
                      None None) = true
  | inl _ => False
  end
  /\ (let o := serial_session (toy_env 1) 1 None (toy_model 2 1 "vz" None)
                 None None in
      result o = inl ValueError
      /\ trace o = cube_events ++ [H5File f_stokes_out "out.h5"]).
Proof. vm_compute. repeat split; reflexivity. Qed.

(** * Properties of the processes together *)

Lemma sum_list_with_insert {A} (f : A -> nat) (l : list A) i a b :
  l !! i = Some a ->
  (sum_list_with f (<[i := b]> l) + f a = sum_list_with f l + f b)%nat.
Proof.
  revert i. induction l as [|c l IH]; intros i Hi; [done|].
  destruct i as [|i]; simpl in *.
  - simplify_eq. lia.
  - specialize (IH i Hi). lia.
Qed.

Lemma sum_list_with_alter {A} (f : A -> nat) (g : A -> A) (l : list A) i a :
  l !! i = Some a ->
  (sum_list_with f (alter g i l) + f a = sum_list_with f l + f (g a))%nat.
Proof.
  revert i. induction l as [|c l IH]; intros i Hi; [done|].
  destruct i as [|i].
  - simpl in Hi. simplify_eq.
    change (alter g 0%nat (a :: l)) with (g a :: l). simpl. lia.
  - simpl in Hi. specialize (IH i Hi).
    change (alter g (S i) (c :: l)) with (c :: alter g i l). simpl. lia.
Qed.

Lemma bind_insert_perm {A B} (f : A -> list B) (l : list A) i a b :
  l !! i = Some a ->
  (<[i := b]> l ≫= f) ++ f a ≡ₚ (l ≫= f) ++ f b.
Proof.
  revert i. induction l as [|c l IH]; intros i Hi; [done|].
  destruct i as [|i]; simpl in Hi.
  - simplify_eq. change (<[0%nat := b]> (a :: l)) with (b :: l).
    rewrite !bind_cons.
    rewrite <-!app_assoc.
    rewrite (Permutation_app_comm (l ≫= f) (f a)),
      (Permutation_app_comm (l ≫= f) (f b)).
    rewrite !app_assoc. apply Permutation_app_tail, Permutation_app_comm.
  - change (<[S i := b]> (c :: l)) with (c :: <[i := b]> l).
    rewrite !bind_cons, <-!app_assoc. apply Permutation_app_head.
    by apply IH.
Qed.

Lemma mapM_norm_index n (l : list Z) :
  Forall (fun i => 0 <= i < n) l -> mapM (norm_index n) l = Some l.
Proof.
  intros H. apply mapM_Some_2. induction H; constructor; [|done].
  by apply norm_index_id.
Qed.

Section Coordinator.
Context `{Ph : Physics}.

Lemma master_on_ready_exit (st : master) src :
  ~ task_index st < p_n_batches (m_div st) ->
  master_on_ready st src = Outcome [Send src (Message EXIT DNone)] (inr st).
Proof.
  intros H. unfold master_on_ready.
  destruct (Z.ltb_spec (task_index st) (p_n_batches (m_div st))); [lia|].
  reflexivity.
Qed.

Lemma master_on_ready_start (st : master) src :
  task_index st < p_n_batches (m_div st) ->
  (exists e, master_on_ready st src = Outcome [] (inl e))
  \/ (exists ix iy args,
        divX (m_div st) !! Z.to_nat (task_index st) = Some ix
        /\ divY (m_div st) !! Z.to_nat (task_index st) = Some iy
        /\ master_on_ready st src
           = Outcome [Send src (Message START
                        (DTask (task_index st) ix iy (interpolate_model st) args))]
                     (inr (set_task_index st (task_index st + 1)))).
Proof.
  intros H. unfold master_on_ready.
  destruct (Z.ltb_spec (task_index st) (p_n_batches (m_div st))); [|lia].
  unfold getitem, getattr.
  destruct (divX (m_div st) !! Z.to_nat (task_index st)) as [ix|];
    [|left; by eexists].
  rewrite bind_ret_l.
  destruct (divY (m_div st) !! Z.to_nat (task_index st)) as [iy|];
    [|left; by eexists].
  rewrite bind_ret_l.
  destruct (cubes (m_self st)) as [c|]; [|left; by eexists].
  rewrite bind_ret_l. unfold at_pixels.
  destruct (shape c) as [[nz cy] cx].
  destruct (mapM (norm_index cy) iy) as [ys|]; [|left; by eexists].
  destruct (mapM (norm_index cx) ix) as [xs|]; [|left; by eexists].
  rewrite bind_ret_l.
  right. eexists ix, iy, _. split; [done|]. split; [done|]. reflexivity.
Qed.

Lemma master_on_ready_ok (st : master) src c ix iy :
  divX (m_div st) !! Z.to_nat (task_index st) = Some ix ->
  divY (m_div st) !! Z.to_nat (task_index st) = Some iy ->
  cubes (m_self st) = Some c ->
  Forall (fun y => 0 <= y < (shape c).1.2) iy ->
  Forall (fun x => 0 <= x < (shape c).2) ix ->
  exists st', result (master_on_ready st src) = inr st'.
Proof.
  intros HX HY Hc Hy Hx. unfold master_on_ready.
  destruct (Z.ltb_spec (task_index st) (p_n_batches (m_div st)));
    [|by eexists].
  unfold getitem, getattr. rewrite HX, HY, Hc. rewrite !bind_ret_l.
  unfold at_pixels. destruct (shape c) as [[nz cy] cx]. simpl in *.
  rewrite !mapM_norm_index by done. rewrite bind_ret_l. by eexists.
Qed.

Lemma h5_setitem_writes d shp sel v :
  Forall (fun ev => is_write ev = true) (trace (h5_setitem d shp sel v)).
Proof.
  unfold h5_setitem. destruct (norm_sel shp sel); simpl; [|done].
  by repeat constructor.
Qed.

Lemma getitem_trace {A} (l : list A) i : trace (getitem l i) = [].
Proof. unfold getitem. by destruct (l !! i). Qed.

Lemma write_stokes_writes (m : Model) indX indY stokes i :
  Forall (fun ev => is_write ev = true)
         (trace (write_stokes m indX indY stokes i)).
Proof.
  unfold write_stokes.
  repeat (apply bind_Forall; [|intros ?]);
    rewrite ?getitem_trace; try done; apply h5_setitem_writes.
Qed.

Lemma master_on_done_writes (st : master) d :
  Forall (fun ev => is_write ev = true) (trace (master_on_done st d)).
Proof.
  unfold master_on_done. destruct d; try done.
  apply bind_Forall; [|intros ?; apply bind_Forall; [|done]].
  - destruct (interpolate_model _); [|done].
    destruct model0; [|done].
    apply for_fold_Forall. intros i [].
    repeat (apply bind_Forall; [|intros ?]);
      rewrite ?getitem_trace; try done; apply h5_setitem_writes.
  - apply for_fold_Forall. intros i []. apply write_stokes_writes.
Qed.

Lemma zip_bind_seq {A B} (l1 : list A) (l2 : list B) :
  seq 0 (length l1) ≫=
    (fun i => match l1 !! i, l2 !! i with
              | Some x, Some y => [(x, y)]
              | _, _ => []
              end)
  = zip l1 l2.
Proof.
  revert l2. induction l1 as [|a l1 IH]; intros l2; [done|].
  cbn [length seq]. rewrite bind_cons, <-fmap_S_seq, list_fmap_bind.
  destruct l2 as [|b l2]; simpl.
  - clear. induction (seq 0 (length l1)) as [|i l IH]; [done|].
    rewrite bind_cons, IH. simpl. by destruct (l1 !! i).
  - f_equal. apply IH.
Qed.

Lemma write_stokes_inv (m : Model) indX indY stokes i u d :
  is_stokes_db d = true ->
  Forall (fun x => 0 <= x) indX -> Forall (fun y => 0 <= y) indY ->
  result (write_stokes m indX indY stokes i) = inr u ->
  exists x y, indX !! i = Some x /\ indY !! i = Some y
    /\ cells_written d (trace (write_stokes m indX indY stokes i)) = [(x, y)].
Proof.
  intros Hd HX HY. unfold write_stokes, getitem.
  destruct (indY !! i) as [y|] eqn:Ey; [|done]. rewrite bind_ret_l.
  destruct (indX !! i) as [x|] eqn:Ex; [|done]. rewrite bind_ret_l.
  assert (0 <= x) by (by eapply (Forall_lookup_1 _ indX)).
  assert (0 <= y) by (by eapply (Forall_lookup_1 _ indY)).
  unfold h5_setitem, stokes_shape. cbn [norm_sel].
  destruct (norm_index (ny m) y) as [y'|] eqn:Hy; [|done].
  destruct (norm_index (nx m) x) as [x'|] eqn:Hx; [|done].
  apply norm_index_Some in Hy as [-> _]; [|done].
  apply norm_index_Some in Hx as [-> _]; [|done].
  intros _. exists x, y. split; [done|]. split; [done|].
  by destruct d.
Qed.

Lemma write_stokes_ok (m : Model) indX indY stokes i x y :
  indX !! i = Some x -> indY !! i = Some y ->
  0 <= x < nx m -> 0 <= y < ny m ->
  result (write_stokes m indX indY stokes i) = inr tt.
Proof.
  intros Ex Ey Hx Hy. unfold write_stokes, getitem.
  rewrite Ex, Ey, !bind_ret_l.
  unfold h5_setitem, stokes_shape. cbn [norm_sel].
  by rewrite !norm_index_id.
Qed.

Lemma omap_Forall_None {A B} (f : A -> option B) (l : list A) :
  Forall (fun a => f a = None) l -> omap f l = [].
Proof. induction 1 as [|a l Ha _ IH]; [done|]. simpl. by rewrite Ha. Qed.

Lemma h5_setitem_model_no_cell d (m : Model) y x v :
  Forall (fun ev => cell_of d ev = None)
    (trace (h5_setitem model_db (mpi_model_shape m)
              [None; Some y; Some x; None] v)).
Proof.
  unfold h5_setitem, mpi_model_shape. cbn [norm_sel].
  destruct (norm_index (ny m) y); [|done].
  destruct (norm_index (nx m) x); [|done].
  by repeat constructor.
Qed.

(** What a result leaves in the store: the four spectra of each of its
    pixels, at the coordinates the message carries. *)
Lemma master_on_done_inv (st : master) k indX indY model stokes st' :
  Forall (fun x => 0 <= x) indX -> Forall (fun y => 0 <= y) indY ->
  result (master_on_done st (DResult k indX indY model stokes)) = inr st' ->
  st' = set_stokes st stokes
  /\ forall d, is_stokes_db d = true ->
       cells_written d
         (trace (master_on_done st (DResult k indX indY model stokes)))
       = zip indX indY.
Proof.
  intros HX HY Hres. unfold master_on_done in *.
  apply bind_result_inr in Hres as ([] & H1 & Hres & ->).
  apply bind_result_inr in Hres as ([] & H2 & Hres & ->).
  simpl in Hres. split; [by simplify_eq|].
  intros d Hd. rewrite !cells_written_app.
  match goal with
  | |- cells_written d (trace ?A) ++ _ = _ =>
      assert (cells_written d (trace A) = []) as ->
  end.
  { apply omap_Forall_None.
    destruct (interpolate_model _); [|done]. destruct model; [|done].
    apply for_fold_Forall. intros i [].
    repeat (apply bind_Forall; [|intros ?]);
      rewrite ?getitem_trace; try done. apply h5_setitem_model_no_cell. }
  change (cells_written d (trace (ret (set_stokes st stokes)))) with (@nil (Z * Z)).
  rewrite app_nil_l, app_nil_r. unfold cells_written.
  rewrite <-zip_bind_seq.
  eapply (for_fold_omap (cell_of d)); [|exact H2].
  intros i [] [] _ Hi.
  destruct (write_stokes_inv _ _ _ _ _ _ d Hd HX HY Hi)
    as (x & y & Ex & Ey & Hc).
  rewrite Ex, Ey. exact Hc.
Qed.

Lemma master_on_done_ok (st : master) k indX indY model stokes :
  length indX = length indY ->
  Forall (fun x => 0 <= x < nx (m_model st)) indX ->
  Forall (fun y => 0 <= y < ny (m_model st)) indY ->
  (interpolate_model st = true -> is_Some model) ->
  result (master_on_done st (DResult k indX indY model stokes))
  = inr (set_stokes st stokes).
Proof.
  intros Hlen HX HY Hmodel. unfold master_on_done.
  assert (Hbody : forall i, i ∈ seq 0 (length indX) ->
            exists x y, indX !! i = Some x /\ indY !! i = Some y
                        /\ 0 <= x < nx (m_model st) /\ 0 <= y < ny (m_model st)).
  { intros i Hi. apply elem_of_seq in Hi.
    destruct (lookup_lt_is_Some_2 indX i) as [x Ex]; [lia|].
    destruct (lookup_lt_is_Some_2 indY i) as [y Ey]; [lia|].
    exists x, y. split; [done|]. split; [done|].
    split; [exact (Forall_lookup_1 _ _ _ _ HX Ex)
           |exact (Forall_lookup_1 _ _ _ _ HY Ey)]. }
  assert (H1 : result
            (if interpolate_model (set_stokes st stokes)
             then match model with
                  | Some model0 =>
                      for_fold (seq 0 (length indX)) tt (fun i _ =>
                        y <- getitem indY i ;;
                        x <- getitem indX i ;;
                        h5_setitem model_db (mpi_model_shape (m_model st))
                          [None; Some y; Some x; None]
                          (WResampled (resampled2_pixel model0 (Z.of_nat i))))
                  | None => raise KeyError
                  end
             else ret tt) = inr tt).
  { change (interpolate_model (set_stokes st stokes))
      with (interpolate_model st).
    destruct (interpolate_model st); [|done].
    destruct (Hmodel eq_refl) as [mo ->].
    destruct (for_fold_succeeds (E := event) (fun _ => True)
                (seq 0 (length indX))
                (fun i (_ : unit) =>
                   y <- getitem indY i ;;
                   x <- getitem indX i ;;
                   h5_setitem model_db (mpi_model_shape (m_model st))
                     [None; Some y; Some x; None]
                     (WResampled (resampled2_pixel mo (Z.of_nat i)))))
      with (s := tt) as ([] & Hr & _); [| by right | done].
    intros i [] Hi. destruct (Hbody i Hi) as (x & y & Ex & Ey & Hx & Hy).
    exists tt. split; [|done]. unfold getitem. rewrite Ex, Ey, !bind_ret_l.
    unfold h5_setitem, mpi_model_shape. cbn [norm_sel].
    by rewrite !norm_index_id. }
  assert (H2 : result
            (for_fold (seq 0 (length indX)) tt (fun i (_ : unit) =>
               write_stokes (m_model st) indX indY stokes i)) = inr tt).
  { destruct (for_fold_succeeds (E := event) (fun _ => True)
                (seq 0 (length indX))
                (fun i (_ : unit) =>
                   write_stokes (m_model st) indX indY stokes i))
      with (s := tt) as ([] & Hr & _); [| by right | done].
    intros i [] Hi. destruct (Hbody i Hi) as (x & y & Ex & Ey & Hx & Hy).
    exists tt. split; [|done]. by eapply write_stokes_ok. }
  cbv zeta. rewrite (bind_inr _ _ _ H1). simpl.
  rewrite (bind_inr _ _ _ H2). done.
Qed.

End Coordinator.

Section Progress.
Context `{Ph : Physics}.

Lemma deliver_writes (tr : list event) (ags : list agent) :
  Forall (fun ev => is_write ev = true) tr -> deliver tr ags = ags.
Proof.
  induction 1 as [|ev tr Hev _ IH]; [done|]. by destruct ev.
Qed.

Lemma deliver_single w msg (ags : list agent) :
  deliver [Send (rank_of w) msg] ags = alter (put_inbox msg) w ags.
Proof.
  unfold rank_of. simpl. destruct (Z.leb_spec 1 (Z.of_nat w + 1)); [|lia].
  by replace (Z.to_nat (Z.of_nat w + 1 - 1)) with w by lia.
Qed.

Lemma writes_no_sends (tr : list event) :
  Forall (fun ev => is_write ev = true) tr ->
  sends tr = [] /\ starts tr = [] /\ exits tr = [].
Proof.
  induction 1 as [|ev tr Hev _ (IH1 & IH2 & IH3)]; [done|].
  destruct ev; try done.
Qed.

Lemma agent_step_weight (a a' : agent) :
  agent_step a = Some a' -> (agent_weight a' < agent_weight a)%nat.
Proof.
  unfold agent_step, agent_weight. destruct a as [c inb outb]. simpl.
  destruct c; try done.
  - intros [= <-]. simpl. rewrite sum_list_with_app. simpl.
    unfold outbox_weight. simpl. lia.
  - destruct inb as [|msg rest]; [done|]. simpl.
    assert (Hiw : inbox_weight msg
                  = match msg_tag msg with
                    | START => 7 | EXIT => 3 | _ => 6
                    end%nat) by done.
    destruct (msg_tag msg) eqn:Htag.
    + intros [= <-]. simpl. lia.
    + intros [= <-]. simpl. lia.
    + intros [= <-]. simpl. lia.
    + destruct (agent_on_start (msg_data msg)) as [e|reply] eqn:Hr;
        intros [= <-]; simpl; [lia|].
      rewrite sum_list_with_app. simpl.
      assert (outbox_weight reply = 1%nat) as ->; [|lia].
      unfold agent_on_start in Hr. destruct (msg_data msg); try done.
      destruct interpolate; [destruct (synth2d _ _)|]; by simplify_eq.
  - intros [= <-]. simpl. rewrite sum_list_with_app. simpl.
    unfold outbox_weight. simpl. lia.
Qed.

Lemma master_on_done_result (st : master) k indX indY model stokes st' :
  result (master_on_done st (DResult k indX indY model stokes)) = inr st' ->
  st' = set_stokes st stokes.
Proof.
  intros Hres. unfold master_on_done in Hres.
  apply bind_result_inr in Hres as ([] & _ & Hres & _).
  apply bind_result_inr in Hres as ([] & _ & Hres & _).
  simpl in Hres. by simplify_eq.
Qed.

(** The ways one turn of the coordinator's loop can go. *)
Lemma master_recv_cases (st : master) w msg :
  recv_case st w msg (master_recv st (rank_of w) msg).
Proof.
  unfold master_recv. destruct (msg_tag msg) eqn:Htag.
  - destruct (decide (task_index st < p_n_batches (m_div st))) as [Hlt|Hge].
    + destruct (master_on_ready_start st (rank_of w) Hlt)
        as [[e He]|(ix & iy & args & HX & HY & He)]; rewrite He.
      * by eapply RecvFailed.
      * by eapply RecvStart.
    + rewrite (master_on_ready_exit st (rank_of w) Hge). by eapply RecvNoTask.
  - destruct (result (master_on_done st (msg_data msg))) as [e|st'] eqn:Hres.
    + eapply RecvFailed; [done|]. apply master_on_done_writes.
    + destruct (msg_data msg) eqn:Hd; try done.
      eapply RecvDone; [done|done| |apply master_on_done_writes].
      rewrite Hres. f_equal. by eapply master_on_done_result.
  - by eapply RecvExit.
  - by eapply RecvOther.
Qed.

Lemma alter_put_inbox_weight (ags : list agent) w a msg :
  ags !! w = Some a ->
  (sum_list_with agent_weight (alter (put_inbox msg) w ags)
   = sum_list_with agent_weight ags + inbox_weight msg)%nat.
Proof.
  intros Ha. pose proof (sum_list_with_alter agent_weight (put_inbox msg) _ _ _ Ha) as H.
  assert (agent_weight (put_inbox msg a) = (agent_weight a + inbox_weight msg)%nat).
  { unfold agent_weight, put_inbox. simpl. rewrite sum_list_with_app. simpl. lia. }
  lia.
Qed.

(** Every move uses up work. *)
Lemma step_work_left act (s s' : system) :
  step act s = Some s' -> (work_left s' < work_left s)%nat.
Proof.
  destruct act as [w| |w]; simpl.
  - destruct (sys_status s) eqn:Hst; try done.
    destruct (agents s !! w) as [a|] eqn:Ha; [|done].
    destruct (closed_workers _ <? num_workers _); [|done].
    destruct (outbox a) as [|msg rest] eqn:Hout; [done|].
    intros [= <-]. unfold work_left. rewrite Hst. simpl.
    pose proof (sum_list_with_insert agent_weight (agents s) w a
                  (Agent (pc a) (inbox a) rest) Ha) as Hsum.
    assert (Hw : agent_weight a
                 = (agent_weight (Agent (pc a) (inbox a) rest)
                    + outbox_weight msg)%nat).
    { unfold agent_weight. rewrite Hout. simpl. lia. }
    assert (Hlk : <[w := Agent (pc a) (inbox a) rest]> (agents s) !! w
                  = Some (Agent (pc a) (inbox a) rest)).
    { apply list_lookup_insert_eq. by eapply lookup_lt_Some. }
    destruct (master_recv_cases (sys_master s) w msg)
      as [e He Hwr|ix iy args Htag Hlt HX HY He|Htag Hge He
          |k indX indY model stokes Htag Hd He Hwr|Htag He|Htag He].
    + rewrite He, deliver_writes by done.
      assert (1 <= outbox_weight msg)%nat
        by (unfold outbox_weight; destruct (msg_tag msg); lia).
      lia.
    + rewrite He. cbn [result trace]. rewrite deliver_single.
      rewrite (alter_put_inbox_weight _ _ _ _ Hlk).
      unfold inbox_weight at 1. cbn [msg_tag].
      unfold outbox_weight in Hw. rewrite Htag in Hw.
      simpl. lia.
    + rewrite He. cbn [result trace]. rewrite deliver_single.
      rewrite (alter_put_inbox_weight _ _ _ _ Hlk).
      unfold inbox_weight at 1. cbn [msg_tag].
      unfold outbox_weight in Hw. rewrite Htag in Hw.
      simpl. lia.
    + rewrite He, deliver_writes by done.
      unfold outbox_weight in Hw. rewrite Htag in Hw. simpl. lia.
    + rewrite He. cbn [result trace deliver].
      unfold outbox_weight in Hw. rewrite Htag in Hw. simpl. lia.
    + rewrite He. cbn [result trace deliver].
      unfold outbox_weight in Hw. rewrite Htag in Hw. simpl. lia.
  - destruct (sys_status s) eqn:Hst; try done.
    destruct (closed_workers _ <? num_workers _); [done|].
    intros [= <-]. unfold work_left. rewrite Hst. simpl.
    destruct (result (master_finish (sys_master s))); lia.
  - destruct (agents s !! w) as [a|] eqn:Ha; [|done].
    destruct (agent_step a) as [a'|] eqn:Hstep; [|done].
    intros [= <-]. unfold work_left. simpl.
    pose proof (sum_list_with_insert agent_weight (agents s) w a a' Ha).
    pose proof (agent_step_weight a a' Hstep). lia.
Qed.

Lemma deliver_length (tr : list event) (ags : list agent) :
  length (deliver tr ags) = length ags.
Proof.
  revert ags. induction tr as [|ev tr IH]; intros ags; [done|].
  destruct ev; simpl; try apply IH.
  rewrite IH. destruct (1 <=? dest); [|done]. apply length_alter.
Qed.

Lemma step_agents_length act (s s' : system) :
  step act s = Some s' -> length (agents s') = length (agents s).
Proof.
  destruct act as [w| |w]; simpl.
  - destruct (sys_status s); try done.
    destruct (agents s !! w) as [a|]; [|done].
    destruct (closed_workers _ <? num_workers _); [|done].
    destruct (outbox a); [done|]. intros [= <-]. simpl.
    by rewrite deliver_length, length_insert.
  - destruct (sys_status s); try done.
    destruct (closed_workers _ <? num_workers _); [done|].
    by intros [= <-].
  - destruct (agents s !! w) as [a|]; [|done].
    destruct (agent_step a); [|done]. intros [= <-]. simpl.
    by rewrite length_insert.
Qed.

Lemma exec_agents_length sched (s s' : system) :
  exec sched s = Some s' -> length (agents s') = length (agents s).
Proof.
  revert s. induction sched as [|act sched IH]; intros s; simpl.
  - by intros [= ->].
  - destruct (step act s) as [s1|] eqn:Hstep; [|done].
    intros Hexec. rewrite (IH _ Hexec). by eapply step_agents_length.
Qed.

(** A run is no longer than the work there was at its start. *)
Lemma exec_work_left sched (s s' : system) :
  exec sched s = Some s' -> (length sched + work_left s' <= work_left s)%nat.
Proof.
  revert s. induction sched as [|act sched IH]; intros s; simpl.
  - intros [= ->]. lia.
  - destruct (step act s) as [s1|] eqn:Hstep; [|done].
    intros Hexec. apply IH in Hexec. apply step_work_left in Hstep. lia.
Qed.

End Progress.

Lemma arange_app a b c :
  a <= b <= c -> arange a b ++ arange b c = arange a c.
Proof.
  intros H. unfold arange.
  replace (Z.to_nat (c - a)) with (Z.to_nat (b - a) + Z.to_nat (c - b))%nat by lia.
  rewrite seq_app, fmap_app. f_equal.
  apply list_eq. intros i. rewrite !list_lookup_fmap.
  destruct (decide (i < Z.to_nat (c - b))%nat).
  - rewrite !lookup_seq_lt by done. simpl. f_equal. lia.
  - by rewrite !lookup_seq_ge by lia.
Qed.

Lemma arange_nil a : arange a a = [].
Proof. unfold arange. by rewrite Z.sub_diag. Qed.

Lemma arange_one a : arange a (a + 1) = [a].
Proof.
  unfold arange. replace (a + 1 - a) with 1 by lia. simpl. f_equal. lia.
Qed.

Lemma rank_of_inj w w' : rank_of w = rank_of w' -> w = w'.
Proof. unfold rank_of. lia. Qed.

Section Invariant.
Context `{Ph : Physics}.
Variables (p : partition) (m : Model) (interp : bool) (c : Cubes).

Lemma count_if_insert f (ags : list agent) w a a' :
  ags !! w = Some a ->
  (count_if f (<[w := a']> ags) + (if f a then 1 else 0)
   = count_if f ags + (if f a' then 1 else 0))%nat.
Proof. apply sum_list_with_insert. Qed.

Lemma is_store_closed_app (t1 t2 : list event) :
  is_store_closed (t1 ++ t2) = is_store_closed t1 || is_store_closed t2.
Proof. apply existsb_app. Qed.

Lemma exits_to_app r (t1 t2 : list event) :
  exits_to r (t1 ++ t2) = exits_to r t1 ++ exits_to r t2.
Proof. unfold exits_to, exits. by rewrite omap_app, filter_app. Qed.

(** One agent and the coordinator move on: what has to hold of the move
    for the invariant to carry over. *)
Lemma coordinated_update (s : system) w a a' st' tr new_done :
  coordinated p m interp c s ->
  agents s !! w = Some a ->
  agent_wf p interp a' ->
  same_static (sys_master s) st' ->
  task_index (sys_master s) <= task_index st' <= p_n_batches p ->
  closed_workers st' + (if is_closed a then 1 else 0)
  = closed_workers (sys_master s) + (if is_closed a' then 1 else 0) ->
  starts tr
  = task_of p <$> arange (task_index (sys_master s)) (task_index st') ->
  exits tr = (if told_exit a' && negb (told_exit a) then [rank_of w] else []) ->
  (told_exit a = true -> told_exit a' = true) ->
  (told_exit a' = true -> task_index st' = p_n_batches p) ->
  in_flight a ++ arange (task_index (sys_master s)) (task_index st')
  ≡ₚ new_done ++ in_flight a' ->
  (forall d, is_stokes_db d = true ->
     cells_written d tr = new_done ≫= (fun k => batch_pixels p (Z.to_nat k))) ->
  (new_done <> [] -> is_Some (m_stokes st')) ->
  (is_Some (m_stokes (sys_master s)) -> is_Some (m_stokes st')) ->
  is_store_closed tr = false ->
  coordinated p m interp c
    (System Running st' (sys_log s ++ tr) (<[w := a']> (agents s))).
Proof.
  intros [] Ha Hwf (S1 & S2 & S3 & S4 & S5) Hti Hcl Hst Hex Hmono Hlast
    Hfl Hcells Hnew Hkeep Hopen.
  destruct co_done0 as (done & Hperm & Hdone & Hstokes).
  pose proof (count_if_insert is_closed _ _ _ a' Ha) as Hc1.
  pose proof (count_if_insert told_exit _ _ _ a' Ha) as Hc2.
  split; simpl.
  - congruence.
  - congruence.
  - congruence.
  - congruence.
  - rewrite length_insert. congruence.
  - lia.
  - by apply Forall_insert.
  - destruct (is_closed a), (is_closed a'); lia.
  - unfold starts in *. rewrite omap_app, co_starts0, Hst, <-fmap_app.
    f_equal. apply arange_app. lia.
  - unfold exits in *. rewrite omap_app, length_app, co_exits0, Hex.
    destruct (told_exit a) eqn:E1, (told_exit a') eqn:E2; simpl in *; lia.
  - intros w' a0 Hw'. rewrite exits_to_app.
    destruct (decide (w = w')) as [<-|Hne].
    + rewrite list_lookup_insert_eq in Hw' by (by eapply lookup_lt_Some).
      simplify_eq. split; [|done].
      destruct (co_exit_each0 w a Ha) as [Hcount _].
      rewrite length_app, Hcount. unfold exits_to. rewrite Hex.
      destruct (told_exit a) eqn:E1, (told_exit a0) eqn:E2; simpl; try done.
      * by specialize (Hmono eq_refl).
      * rewrite filter_cons, filter_nil. by case_decide.
    + rewrite list_lookup_insert_ne in Hw' by done.
      destruct (co_exit_each0 w' a0 Hw') as [Hcount Hl].
      split; [|intros Ht; specialize (Hl Ht); lia].
      rewrite length_app, Hcount. unfold exits_to. rewrite Hex.
      destruct (told_exit a' && negb (told_exit a)); simpl; [|lia].
      rewrite filter_cons, filter_nil. case_decide as Heq; [|simpl; lia].
      by apply rank_of_inj in Heq.
  - exists (done ++ new_done). split; [|split].
    + pose proof (bind_insert_perm in_flight _ _ _ a' Ha) as Hb.
      apply (Permutation_app_inv_r (in_flight a)).
      rewrite <-!app_assoc. rewrite Hb.
      rewrite (Permutation_app_comm new_done), <-!app_assoc.
      rewrite (app_assoc done), Hperm.
      rewrite (Permutation_app_comm (in_flight a') new_done), <-Hfl.
      rewrite <-(arange_app 0 (task_index (sys_master s)) (task_index st'))
        by lia.
      rewrite <-app_assoc.
      apply Permutation_app_head, Permutation_app_comm.
    + intros d Hd. rewrite cells_written_app, bind_app.
      by rewrite (Hdone d Hd), (Hcells d Hd).
    + intros Hne. destruct new_done as [|k nd]; [|by apply Hnew].
      rewrite app_nil_r in Hne. auto.
  - by rewrite is_store_closed_app, co_open0, Hopen.
  - by rewrite length_insert.
Qed.

Lemma agent_step_wf (a a' : agent) :
  agent_wf p interp a -> agent_step a = Some a' ->
  agent_wf p interp a' /\ in_flight a' = in_flight a
  /\ told_exit a' = told_exit a /\ is_closed a' = is_closed a.
Proof.
  intros Hwf Hstep. unfold agent_step in Hstep.
  destruct Hwf as [|k msg Hr| |k msg Hr|k msg Ht| | | |];
    simpl in Hstep; try done.
  - simplify_eq. split_and!; try done. constructor.
  - simplify_eq. split_and!; try done. by econstructor.
  - destruct Ht as [ix iy args HX HY]. simpl in Hstep.
    destruct interp eqn:Hi.
    + destruct (synth2d args PyTrue) as [stokes model]. simplify_eq.
      split_and!; try done. eapply WfIdleDone. by econstructor.
    + simplify_eq. split_and!; try done. eapply WfIdleDone. by econstructor.
  - simplify_eq. split_and!; try done. constructor.
  - simplify_eq. split_and!; try done. constructor.
Qed.

Lemma alter_insert_eq {A} (f : A -> A) (l : list A) w a :
  (w < length l)%nat -> alter f w (<[w := a]> l) = <[w := f a]> l.
Proof.
  intros Hw. apply list_eq. intros i.
  destruct (decide (i = w)) as [->|Hne].
  - rewrite list_lookup_alter_eq, !list_lookup_insert_eq by done. done.
  - rewrite list_lookup_alter_ne, !list_lookup_insert_ne by done. done.
Qed.

Lemma writes_not_closed (tr : list event) :
  Forall (fun ev => is_write ev = true) tr -> is_store_closed tr = false.
Proof. induction 1 as [|ev tr Hev _ IH]; [done|]. by destruct ev. Qed.

Lemma master_finish_eq (st : master) stokes :
  m_stokes st = Some stokes ->
  master_finish st = Outcome (finish_events st stokes) (inr tt).
Proof.
  intros H. unfold master_finish, finish_events. rewrite H.
  by destruct (interpolate_model st).
Qed.

Lemma count_if_le f (ags : list agent) : (count_if f ags <= length ags)%nat.
Proof.
  unfold count_if. induction ags as [|a ags IH]; simpl; [done|].
  destruct (f a); lia.
Qed.

Lemma count_if_all f (ags : list agent) :
  count_if f ags = length ags -> Forall (fun a => f a = true) ags.
Proof.
  unfold count_if. induction ags as [|a ags IH]; simpl; [done|].
  pose proof (count_if_le f ags) as Hle. unfold count_if in Hle.
  destruct (f a) eqn:Hf; [|lia]. intros H. constructor; [done|].
  apply IH. lia.
Qed.

Lemma all_count_if f (ags : list agent) :
  Forall (fun a => f a = true) ags -> count_if f ags = length ags.
Proof.
  unfold count_if. induction 1 as [|a ags Ha _ IH]; simpl; [done|].
  rewrite Ha. lia.
Qed.

Lemma closed_no_flight (ags : list agent) :
  Forall (agent_wf p interp) ags ->
  Forall (fun a => is_closed a = true) ags ->
  ags ≫= in_flight = [] /\ Forall (fun a => told_exit a = true) ags.
Proof.
  induction 1 as [|a ags Ha _ IH]; [done|].
  intros Hc. apply Forall_cons in Hc as [Hca Hc].
  destruct (IH Hc) as [IH1 IH2]. rewrite bind_cons, IH1.
  destruct Ha; try done. split; [done|]. by constructor.
Qed.

Lemma batch_pixels_zip k ix iy :
  divX p !! k = Some ix -> divY p !! k = Some iy ->
  batch_pixels p k = zip ix iy.
Proof. intros HX HY. unfold batch_pixels. by rewrite HX, HY. Qed.

(** A result that arrives is copied into the store. *)
Lemma recv_done_coordinated (s : system) w c0 rest a' k ix iy model stokes :
  fits p m c -> coordinated p m interp c s ->
  agents s !! w = Some (Agent c0 [] (Message DONE (DResult k ix iy model stokes) :: rest)) ->
  divX p !! Z.to_nat k = Some ix -> divY p !! Z.to_nat k = Some iy ->
  (interp = true -> is_Some model) ->
  a' = Agent c0 [] rest -> agent_wf p interp a' -> in_flight a' = [] ->
  told_exit a' = false -> is_closed a' = false ->
  let o := master_on_done (sys_master s) (DResult k ix iy model stokes) in
  result o = inr (set_stokes (sys_master s) stokes)
  /\ coordinated p m interp c
       (System Running (set_stokes (sys_master s) stokes)
          (sys_log s ++ trace o) (<[w := a']> (agents s))).
Proof.
  intros Hfits Hco Ha HX HY Hmodel -> Hwf Hfl Hte Hcl o.
  destruct (fits_batch _ _ _ Hfits _ _ _ HX HY) as (Hlen & HbX & HbY).
  pose proof (co_model _ _ _ _ _ Hco) as Hm.
  pose proof (co_interp _ _ _ _ _ Hco) as Hi.
  assert (Hok : result o = inr (set_stokes (sys_master s) stokes)).
  { apply master_on_done_ok; rewrite ?Hm, ?Hi; done. }
  split; [done|].
  assert (HX0 : Forall (fun x => 0 <= x) ix)
    by (eapply Forall_impl; [exact HbX|]; simpl; lia).
  assert (HY0 : Forall (fun y => 0 <= y) iy)
    by (eapply Forall_impl; [exact HbY|]; simpl; lia).
  destruct (master_on_done_inv (sys_master s) k ix iy model stokes _
              HX0 HY0 Hok) as [_ Hcells].
  pose proof (master_on_done_writes (sys_master s)
                (DResult k ix iy model stokes)) as Hwr.
  destruct (writes_no_sends _ Hwr) as (_ & Hst & Hex).
  set (msg := Message DONE (DResult k ix iy model stokes)) in *.
  assert (Hcl0 : is_closed (Agent c0 [] (msg :: rest)) = false)
    by (by destruct c0).
  assert (Hte0 : told_exit (Agent c0 [] (msg :: rest)) = false) by exact Hte.
  assert (Hfl0 : in_flight (Agent c0 [] (msg :: rest)) = [k]).
  { unfold in_flight in Hfl |- *. simpl in Hfl |- *. unfold msg. simpl.
    f_equal. exact Hfl. }
  eapply (coordinated_update s w _ _ (set_stokes (sys_master s) stokes)
            (trace o) [k] Hco Ha Hwf).
  - done.
  - simpl. pose proof (co_index _ _ _ _ _ Hco). lia.
  - rewrite Hcl, Hcl0. done.
  - cbn [task_index set_stokes]. by rewrite arange_nil.
  - by rewrite Hte.
  - done.
  - by rewrite Hte.
  - rewrite Hfl, Hfl0. cbn [task_index set_stokes]. by rewrite arange_nil.
  - intros d Hd. unfold o. rewrite (Hcells d Hd). simpl.
    rewrite app_nil_r. symmetry. by apply batch_pixels_zip.
  - simpl. by eexists.
  - simpl. by eexists.
  - by apply writes_not_closed.
Qed.

(** An agent that asks gets the next batch, or EXIT when none is
    left. *)
Lemma recv_ready_coordinated (s : system) w :
  fits p m c -> coordinated p m interp c s ->
  agents s !! w = Some (Agent Receive [] [Message READY DNone]) ->
  exists st' reply,
    master_on_ready (sys_master s) (rank_of w)
    = Outcome [Send (rank_of w) reply] (inr st')
    /\ coordinated p m interp c
         (System Running st' (sys_log s ++ [Send (rank_of w) reply])
            (<[w := Agent Receive [reply] []]> (agents s))).
Proof.
  intros Hfits Hco Ha.
  pose proof (co_index _ _ _ _ _ Hco) as Hti.
  pose proof (co_div _ _ _ _ _ Hco) as Hdiv.
  pose proof (co_interp _ _ _ _ _ Hco) as Hi.
  destruct (decide (task_index (sys_master s) < p_n_batches (m_div (sys_master s))))
    as [Hlt|Hge].
  - rewrite Hdiv in Hlt.
    destruct (lookup_lt_is_Some_2 (divX p) (Z.to_nat (task_index (sys_master s))))
      as [ix HX]; [rewrite (fits_count_X _ _ _ Hfits) in Hlt; lia|].
    destruct (lookup_lt_is_Some_2 (divY p) (Z.to_nat (task_index (sys_master s))))
      as [iy HY]; [rewrite (fits_count_Y _ _ _ Hfits) in Hlt; lia|].
    destruct (fits_batch _ _ _ Hfits _ _ _ HX HY) as (Hlen & HbX & HbY).
    destruct (master_on_ready_ok (sys_master s) (rank_of w) c ix iy)
      as [st1 Hok].
    { by rewrite Hdiv. } { by rewrite Hdiv. }
    { apply (co_cubes _ _ _ _ _ Hco). }
    { by rewrite (fits_shape_y _ _ _ Hfits). }
    { by rewrite (fits_shape_x _ _ _ Hfits). }
    destruct (master_on_ready_start (sys_master s) (rank_of w))
      as [[e He]|(ix' & iy' & args & HX' & HY' & He)].
    { by rewrite Hdiv. }
    { by rewrite He in Hok. }
    rewrite Hdiv, HX in HX'. rewrite Hdiv, HY in HY'.
    injection HX' as <-. injection HY' as <-.
    eexists _, _. split; [exact He|].
    eapply (coordinated_update s w _ _ _ _ [] Hco Ha).
    + rewrite Hi. by econstructor.
    + done.
    + simpl. lia.
    + done.
    + cbn [task_index set_task_index]. rewrite arange_one.
      unfold task_of. simpl. by rewrite HX, HY.
    + done.
    + done.
    + done.
    + simpl. by rewrite arange_one.
    + done.
    + done.
    + done.
    + done.
  - rewrite (master_on_ready_exit _ _ Hge). rewrite Hdiv in Hge.
    eexists _, _. split; [reflexivity|].
    eapply (coordinated_update s w _ _ _ _ [] Hco Ha).
    + constructor.
    + done.
    + lia.
    + done.
    + simpl. by rewrite arange_nil.
    + done.
    + done.
    + intros _. lia.
    + simpl. by rewrite arange_nil.
    + done.
    + done.
    + done.
    + done.
Qed.

(** The EXIT of an agent is counted. *)
Lemma recv_exit_coordinated (s : system) w :
  coordinated p m interp c s ->
  agents s !! w = Some (Agent Returned [] [Message EXIT DNone]) ->
  coordinated p m interp c
    (System Running
       (set_closed_workers (sys_master s) (closed_workers (sys_master s) + 1))
       (sys_log s ++ []) (<[w := Agent Returned [] []]> (agents s))).
Proof.
  intros Hco Ha.
  destruct (co_exit_each _ _ _ _ _ Hco w _ Ha) as [_ Hlast].
  eapply (coordinated_update s w _ _ _ [] [] Hco Ha).
  - constructor.
  - done.
  - simpl. pose proof (co_index _ _ _ _ _ Hco). lia.
  - simpl. lia.
  - simpl. by rewrite arange_nil.
  - done.
  - done.
  - intros _. by apply Hlast.
  - simpl. by rewrite arange_nil.
  - done.
  - done.
  - done.
  - done.
Qed.

(** The invariant is kept by every move, until the coordinator leaves
    its loop, which it does with every agent closed and [stokes]
    bound. *)
Lemma step_coordinated act (s s' : system) :
  fits p m c -> coordinated p m interp c s -> sys_status s = Running ->
  step act s = Some s' ->
  (sys_status s' = Running /\ coordinated p m interp c s')
  \/ (act = Finish /\ finished_from s s').
Proof.
  intros Hfits Hco Hrun Hstep. destruct act as [w| |w]; simpl in Hstep.
  - rewrite Hrun in Hstep.
    destruct (agents s !! w) as [a|] eqn:Ha; [|done].
    destruct (closed_workers _ <? num_workers _); [|done].
    pose proof (Forall_lookup_1 _ _ _ _ (co_agents _ _ _ _ _ Hco) Ha) as Hwf.
    pose proof (lookup_lt_Some _ _ _ Ha) as Hlen.
    left.
    destruct Hwf as [|k msg Hr| |k msg Hr|k msg Ht| | | |];
      cbn [outbox pc inbox] in Hstep; try done.
    + destruct Hr as [ix iy model stokes HX HY Hmodel].
      unfold master_recv in Hstep. cbn [msg_tag msg_data] in Hstep.
      destruct (recv_done_coordinated s w SendReady [] _ k ix iy model stokes
                  Hfits Hco Ha HX HY Hmodel eq_refl) as [Hok Hco'];
        [constructor|done..|].
      rewrite Hok in Hstep.
      rewrite deliver_writes in Hstep by apply master_on_done_writes.
      injection Hstep as <-. done.
    + unfold master_recv in Hstep. cbn [msg_tag msg_data] in Hstep.
      destruct (recv_ready_coordinated s w Hfits Hco Ha)
        as (st' & reply & He & Hco').
      rewrite He in Hstep. cbn [result trace] in Hstep.
      rewrite deliver_single, alter_insert_eq in Hstep by done.
      injection Hstep as <-. done.
    + destruct Hr as [ix iy model stokes HX HY Hmodel].
      unfold master_recv in Hstep. cbn [msg_tag msg_data] in Hstep.
      destruct (recv_done_coordinated s w Receive [Message READY DNone] _
                  k ix iy model stokes
                  Hfits Hco Ha HX HY Hmodel eq_refl) as [Hok Hco'];
        [constructor|done..|].
      rewrite Hok in Hstep.
      rewrite deliver_writes in Hstep by apply master_on_done_writes.
      injection Hstep as <-. done.
    + unfold master_recv in Hstep. cbn [msg_tag msg_data] in Hstep.
      cbn [result trace ret deliver] in Hstep.
      injection Hstep as <-. split; [done|].
      by apply recv_exit_coordinated.
  - rewrite Hrun in Hstep.
    destruct (Z.ltb_spec (closed_workers (sys_master s))
                (num_workers (sys_master s))) as [|Hge]; [done|].
    right. split; [done|].
    pose proof (co_closed _ _ _ _ _ Hco) as Hcl.
    pose proof (co_workers _ _ _ _ _ Hco) as Hw.
    pose proof (count_if_le is_closed (agents s)) as Hle.
    assert (Hall : Forall (fun a => is_closed a = true) (agents s))
      by (apply count_if_all; lia).
    destruct (closed_no_flight _ (co_agents _ _ _ _ _ Hco) Hall) as [Hfl Hte].
    destruct (co_done _ _ _ _ _ Hco) as (done & Hperm & _ & Hstokes).
    rewrite Hfl, app_nil_r in Hperm.
    pose proof (co_some_agent _ _ _ _ _ Hco) as Hsome.
    destruct (lookup_lt_is_Some_2 (agents s) 0 Hsome) as [a0 Ha0].
    destruct (co_exit_each _ _ _ _ _ Hco 0%nat a0 Ha0) as [_ Hlast].
    rewrite (Hlast (Forall_lookup_1 _ _ _ _ Hte Ha0)) in Hperm.
    destruct Hstokes as [stokes Hs].
    { intros ->. apply Permutation_length in Hperm.
      rewrite arange_length in Hperm. simpl in Hperm.
      pose proof (fits_some _ _ _ Hfits). lia. }
    rewrite (master_finish_eq _ _ Hs) in Hstep. simpl in Hstep.
    injection Hstep as <-.
    split; [lia|]. split; [done|]. by exists stokes.
  - destruct (agents s !! w) as [a|] eqn:Ha; [|done].
    destruct (agent_step a) as [a'|] eqn:Hst; [|done].
    injection Hstep as <-. left. split; [done|]. rewrite Hrun.
    pose proof (Forall_lookup_1 _ _ _ _ (co_agents _ _ _ _ _ Hco) Ha) as Hwf.
    destruct (agent_step_wf a a' Hwf Hst) as (Hwf' & Hfl & Hte & Hcl).
    rewrite <-(app_nil_r (sys_log s)).
    eapply (coordinated_update s w _ _ (sys_master s) [] [] Hco Ha Hwf').
    + done.
    + pose proof (co_index _ _ _ _ _ Hco). lia.
    + by rewrite Hcl.
    + by rewrite arange_nil.
    + rewrite Hte. by destruct (told_exit a).
    + by rewrite Hte.
    + rewrite Hte. intros Ht.
      by destruct (co_exit_each _ _ _ _ _ Hco w a Ha) as [_ ->].
    + by rewrite arange_nil, Hfl, app_nil_r.
    + done.
    + done.
    + done.
    + done.
Qed.

End Invariant.

Section Setup.
Context `{Ph : Physics}.

(** The files of the distributed path. *)
Lemma mpi_open_eq (self : Iterator) (m : Model) :
  (create_stokes_out m ;;; mpi_open_model self m)
  = (if h5_accepts m then
       Outcome (stokes_out_events m
                ++ match interpolated_model_filename m with
                   | Some name =>
                       [H5File f_model_out name;
                        CreateDataset model_db "model" (mpi_model_shape m)
                          None]
                   | None => []
                   end)
               (inr (match interpolated_model_filename m with
                     | Some _ => (set_f_model_out self, true)
                     | None => (self, false)
                     end))
     else Outcome (refused m).1 (inl (refused m).2)).
Proof.
  rewrite create_stokes_out_eq. unfold h5_accepts.
  destruct (store_fits m) eqn:Hfits; [|done]. cbn [andb].
  unfold mpi_open_model, create_dataset, refused.
  rewrite store_fits_error, Hfits.
  destruct (interpolated_model_filename m) as [name|].
  - rewrite (model_dataset_error m) by auto.
    destruct (0 <=? n_tau m); reflexivity.
  - unfold bind. simpl. by rewrite ?app_nil_r.
Qed.

Lemma mpi_master_setup_eq (self : Iterator) (m : Model) rangex rangey :
  model self = Some m ->
  mpi_master_setup self rangex rangey
  = match make_partition (nx m) (ny m) rangex rangey (batch self) with
    | inl e => Outcome (load_events m) (inl e)
    | inr p =>
        if h5_accepts m then
          match size self with
          | Some sz =>
              Outcome (mpi_setup_events m)
                (inr (Master (mpi_self self m p) m p (nonmpi_interpolate m)
                        0 (sz - 1) 0 None))
          | None => Outcome (mpi_setup_events m) (inl AttributeError)
          end
        else Outcome (load_events m ++ (refused m).1) (inl (refused m).2)
    end.
Proof.
  intros Hm. unfold mpi_master_setup. rewrite Hm. unfold getattr.
  rewrite bind_ret_l.
  assert (Hload : forall B (k : Iterator -> io B),
            bind (load_cubes self m) k
            = bind (Outcome (load_events m) (inr tt))
                (fun _ => k (if String.eqb (atmosphere_type m) "MURAM"
                             then set_cubes self (cubes_of_model m)
                             else self))).
  { intros B k. unfold load_cubes, load_events, bind.
    destruct (String.eqb _ _); simpl; by destruct (k _). }
  rewrite Hload. clear Hload. cbv beta.
  set (self1 := if String.eqb (atmosphere_type m) "MURAM"
                then set_cubes self (cubes_of_model m) else self).
  assert (Hself1 : batch self1 = batch self /\ size self1 = size self).
  { unfold self1. by destruct (String.eqb _ _). }
  destruct Hself1 as [Hb Hsz]. rewrite Hb.
  destruct (make_partition (nx m) (ny m) rangex rangey (batch self))
    as [e|p].
  { unfold bind, lift. simpl. by rewrite ?app_nil_r. }
  unfold lift.
  change (@Outcome event partition [] (inr p)) with (@ret event _ p).
  rewrite bind_ret_l.
  rewrite <-(bind_assoc (create_stokes_out m)), mpi_open_eq.
  destruct (h5_accepts m); [|reflexivity].
  unfold mpi_self, mpi_setup_events, nonmpi_interpolate, load_events.
  fold self1.
  destruct (interpolated_model_filename m) as [name|];
    unfold bind; cbn [trace result size set_f_model_out set_n_batches
                      set_n_pixels getattr];
    rewrite Hsz; destruct (size self) as [sz|]; simpl;
    rewrite ?app_nil_r, <-?app_assoc; reflexivity.
Qed.

Lemma mpi_start_accepted (self : Iterator) (m : Model) rangex rangey s0 :
  model self = Some m -> mpi_start self rangex rangey = Some s0 ->
  h5_accepts m = true.
Proof.
  intros Hm. unfold mpi_start. rewrite (mpi_master_setup_eq _ m) by done.
  destruct (make_partition _ _ _ _ _); [done|].
  by destruct (h5_accepts m).
Qed.

End Setup.

Lemma split_sections_lookup_inv {A} (sizes : list nat) (ary : list A) k b :
  split_sections sizes ary !! k = Some b ->
  exists n, sizes !! k = Some n
            /\ b = take n (drop (sum_list (take k sizes)) ary).
Proof.
  intros Hb. pose proof (lookup_lt_Some _ _ _ Hb) as Hlt.
  rewrite split_sections_length in Hlt.
  destruct (lookup_lt_is_Some_2 sizes k Hlt) as [n Hn].
  exists n. split; [done|].
  rewrite (split_sections_lookup _ _ _ _ Hn) in Hb. by simplify_eq.
Qed.

Lemma elem_of_meshgrid_X x y i : i ∈ (meshgrid_flatten x y).1 -> i ∈ x.
Proof.
  simpl. rewrite list_elem_of_concat. intros (l & Hl & Hi).
  apply list_elem_of_fmap in Hl as (? & -> & _). done.
Qed.

Lemma elem_of_meshgrid_Y x y i : i ∈ (meshgrid_flatten x y).2 -> i ∈ y.
Proof.
  simpl. rewrite list_elem_of_concat. intros (l & Hl & Hi).
  apply list_elem_of_fmap in Hl as (yi & -> & Hyi).
  apply list_elem_of_fmap in Hi as (? & -> & _). done.
Qed.

Lemma in_range_grid r n i :
  range_in_grid r n = true -> in_range r n i -> 0 <= i < n.
Proof.
  destruct r as [[lo hi]|]; simpl; [|done].
  intros H. apply andb_prop in H as [H1 H2]. lia.
Qed.

(** The batches of a partition of a rectangle that lies on the grid. *)
Lemma make_partition_fits nx ny rangex rangey batch p :
  make_partition nx ny rangex rangey batch = inr p ->
  range_in_grid rangex nx = true -> range_in_grid rangey ny = true ->
  p_n_batches p = Z.of_nat (length (divX p))
  /\ p_n_batches p = Z.of_nat (length (divY p))
  /\ 1 <= p_n_batches p
  /\ forall k ix iy,
       divX p !! k = Some ix -> divY p !! k = Some iy ->
       length ix = length iy
       /\ Forall (fun x => 0 <= x < nx) ix
       /\ Forall (fun y => 0 <= y < ny) iy.
Proof.
  intros H Hrx Hry.
  pose proof (make_partition_inr _ _ _ _ _ _ H) as (Hb & HB & Hp).
  pose proof (make_partition_batches _ _ _ _ _ _ H) as (HX & HY & _).
  simpl in *. split; [rewrite HX, Hp; simpl; lia|].
  split; [rewrite HY, Hp; simpl; lia|].
  split; [rewrite Hp; simpl; lia|].
  intros k ix iy Hix Hiy. rewrite Hp in Hix, Hiy. simpl in Hix, Hiy.
  apply split_sections_lookup_inv in Hix as (n1 & Hn1 & ->).
  apply split_sections_lookup_inv in Hiy as (n2 & Hn2 & ->).
  rewrite Hn1 in Hn2. injection Hn2 as <-.
  split; [|split].
  - rewrite !length_take, !length_drop.
    change (concat (map (fun _ : Z => axis_range rangex nx) (axis_range rangey ny)))
      with (meshgrid_flatten (axis_range rangex nx) (axis_range rangey ny)).1.
    change (concat (map (fun yi : Z => map (fun _ : Z => yi) (axis_range rangex nx))
                      (axis_range rangey ny)))
      with (meshgrid_flatten (axis_range rangex nx) (axis_range rangey ny)).2.
    by rewrite meshgrid_length_X, meshgrid_length_Y.
  - apply Forall_forall. intros x Hx.
    apply subseteq_take, subseteq_drop in Hx.
    apply (in_range_grid rangex nx x Hrx), axis_range_elem.
    eapply elem_of_meshgrid_X. exact Hx.
  - apply Forall_forall. intros y Hy.
    apply subseteq_take, subseteq_drop in Hy.
    apply (in_range_grid rangey ny y Hry), axis_range_elem.
    eapply elem_of_meshgrid_Y. exact Hy.
Qed.

Section Start.
Context `{Ph : Physics}.

Lemma mpi_setup_events_quiet (m : Model) :
  starts (mpi_setup_events m) = [] /\ exits (mpi_setup_events m) = []
  /\ (forall d, cells_written d (mpi_setup_events m) = [])
  /\ is_store_closed (mpi_setup_events m) = false.
Proof.
  unfold mpi_setup_events.
  destruct (String.eqb _ _); destruct (interpolated_model_filename m); done.
Qed.

Lemma count_if_replicate f n (a : agent) :
  f a = false -> count_if f (replicate n a) = 0%nat.
Proof.
  intros Hf. unfold count_if. induction n as [|n IH]; simpl; [done|].
  by rewrite Hf, IH.
Qed.

Lemma in_flight_replicate n :
  replicate n (Agent SendReady [] []) ≫= in_flight = [].
Proof.
  induction n as [|n IH]; [done|].
  change (replicate (S n) (Agent SendReady [] []))
    with (Agent SendReady [] [] :: replicate n (Agent SendReady [] [])).
  by rewrite bind_cons, IH.
Qed.

(** The processes start in a state that satisfies the invariant. *)
Lemma mpi_start_coordinated (self : Iterator) (m : Model) rangex rangey sz s0 :
  model self = Some m -> grid_loaded m = true ->
  range_in_grid rangex (nx m) = true -> range_in_grid rangey (ny m) = true ->
  size self = Some sz -> 2 <= sz ->
  mpi_start self rangex rangey = Some s0 ->
  exists p,
    make_partition (nx m) (ny m) rangex rangey (batch self) = inr p
    /\ fits p m (cubes_of_model m)
    /\ coordinated p m (nonmpi_interpolate m) (cubes_of_model m) s0
    /\ s0 = System Running
              (Master (mpi_self self m p) m p (nonmpi_interpolate m)
                 0 (sz - 1) 0 None)
              (mpi_setup_events m)
              (replicate (Z.to_nat (sz - 1)) (Agent SendReady [] [])).
Proof.
  intros Hm Hg Hrx Hry Hsz Hsz2. unfold mpi_start.
  rewrite (mpi_master_setup_eq _ m) by done.
  destruct (make_partition (nx m) (ny m) rangex rangey (batch self))
    as [e|p] eqn:Hp; [done|].
  destruct (h5_accepts m); [|done].
  rewrite Hsz. simpl. intros [= <-]. exists p. split; [done|].
  destruct (make_partition_fits _ _ _ _ _ _ Hp Hrx Hry) as (H1 & H2 & H3 & H4).
  unfold grid_loaded in Hg.
  apply andb_prop in Hg as [Hg Hgx]. apply andb_prop in Hg as [Hmu Hgy].
  destruct (mpi_setup_events_quiet m) as (Qs & Qe & Qc & Qo).
  split; [|split; [|done]].
  - split; try done; simpl; lia.
  - split; simpl.
    + done.
    + done.
    + done.
    + unfold mpi_self. rewrite Hmu.
      by destruct (interpolated_model_filename m).
    + rewrite length_replicate. lia.
    + lia.
    + apply Forall_replicate. constructor.
    + by rewrite count_if_replicate.
    + by rewrite Qs.
    + by rewrite Qe, count_if_replicate.
    + intros w a Ha. apply lookup_replicate in Ha as [-> _].
      unfold exits_to. rewrite Qe. done.
    + exists []. rewrite in_flight_replicate.
      split_and!; [by rewrite arange_nil|intros d _; by rewrite Qc|done].
    + done.
    + rewrite length_replicate. lia.
Qed.

End Start.

Section Runs.
Context `{Ph : Physics}.
Variables (p : partition) (m : Model) (interp : bool) (c : Cubes).
Hypothesis Hfits : fits p m c.

Lemma finished_stuck (s1 s : system) act :
  coordinated p m interp c s1 -> finished_from s1 s -> step act s = None.
Proof.
  intros Hco (_ & Hall & stokes & _ & ->). destruct act as [w| |w]; simpl; try done.
  destruct (agents s1 !! w) as [a|] eqn:Ha; [|done].
  pose proof (Forall_lookup_1 _ _ _ _ Hall Ha) as Hc.
  pose proof (Forall_lookup_1 _ _ _ _ (co_agents _ _ _ _ _ Hco) Ha) as Hwf.
  by destruct Hwf.
Qed.

(** Every state a run reaches satisfies the invariant, or is the one
    the coordinator left its loop in. *)
Lemma exec_coordinated sched (s s' : system) :
  coordinated p m interp c s -> sys_status s = Running ->
  exec sched s = Some s' ->
  (sys_status s' = Running /\ coordinated p m interp c s')
  \/ (exists s1, sys_status s1 = Running /\ coordinated p m interp c s1
                 /\ finished_from s1 s').
Proof.
  revert s. induction sched as [|act sched IH]; intros s Hco Hrun; simpl.
  - intros [= <-]. by left.
  - destruct (step act s) as [s1|] eqn:Hstep; [|done].
    destruct (step_coordinated p m interp c act s s1 Hfits Hco Hrun Hstep)
      as [[Hrun1 Hco1]|[-> Hfin]].
    + by apply IH.
    + destruct sched as [|act' sched]; simpl.
      * intros [= <-]. right. by exists s.
      * by rewrite (finished_stuck s s1 act' Hco Hfin).
Qed.

Lemma count_if_lt f (ags : list agent) w a :
  ags !! w = Some a -> f a = false -> (count_if f ags < length ags)%nat.
Proof.
  intros Ha Hf.
  pose proof (count_if_insert f ags w a a Ha) as _.
  revert w Ha. unfold count_if.
  induction ags as [|b ags IH]; intros w Ha; [done|].
  pose proof (count_if_le f ags) as Hle. unfold count_if in Hle.
  destruct w as [|w]; simpl in *.
  - simplify_eq. rewrite Hf. lia.
  - specialize (IH w Ha). destruct (f b); lia.
Qed.

Lemma agent_can_move (a : agent) :
  agent_wf p interp a -> outbox a = [] -> is_closed a = false ->
  is_Some (agent_step a).
Proof.
  intros Hwf Hout Hcl. unfold agent_step.
  destruct Hwf as [|k msg Hr| |k msg Hr|k msg Ht| | | |]; simpl in *;
    try done.
  destruct Ht as [ix iy args HX HY]. simpl.
  destruct interp; [destruct (synth2d args PyTrue)|]; done.
Qed.

(** While the coordinator is in its loop some process can move: the
    protocol does not deadlock. *)
Lemma coordinated_progress (s : system) :
  coordinated p m interp c s -> sys_status s = Running ->
  exists act s', step act s = Some s'.
Proof.
  intros Hco Hrun.
  pose proof (co_closed _ _ _ _ _ Hco) as Hcl.
  pose proof (co_workers _ _ _ _ _ Hco) as Hw.
  destruct (decide (Exists (fun a => is_closed a = false) (agents s)))
    as [Hex|Hall].
  - apply Exists_exists in Hex as (a & Hin & Hna).
    apply list_elem_of_lookup in Hin as [w Ha].
    pose proof (Forall_lookup_1 _ _ _ _ (co_agents _ _ _ _ _ Hco) Ha) as Hwf.
    pose proof (count_if_lt is_closed _ _ _ Ha Hna) as Hlt.
    assert (Hguard : (closed_workers (sys_master s)
                      <? num_workers (sys_master s)) = true)
      by (apply Z.ltb_lt; lia).
    destruct (outbox a) as [|msg rest] eqn:Hout.
    + destruct (agent_can_move a Hwf Hout Hna) as [a' Hstep].
      exists (Work w). simpl. rewrite Ha, Hstep. by eexists.
    + exists (Recv w). simpl. rewrite Hrun, Ha, Hguard, Hout. by eexists.
  - exists Finish. simpl. rewrite Hrun.
    assert (Hc : count_if is_closed (agents s) = length (agents s)).
    { apply all_count_if. apply Forall_forall. intros a Ha.
      destruct (is_closed a) eqn:E; [done|]. exfalso. apply Hall.
      apply Exists_exists. eauto. }
    destruct (Z.ltb_spec (closed_workers (sys_master s))
                (num_workers (sys_master s))); [lia|]. by eexists.
Qed.

Lemma arange_bind_batches :
  p_n_batches p = Z.of_nat (length (divX p)) ->
  arange 0 (p_n_batches p) ≫= (fun k => batch_pixels p (Z.to_nat k))
  = concat (all_batches p).
Proof.
  intros ->. unfold arange, all_batches.
  rewrite Z.sub_0_r, Nat2Z.id, list_fmap_bind.
  induction (seq 0 (length (divX p))) as [|k l IH]; [done|].
  rewrite bind_cons, IH. unfold compose.
  replace (Z.to_nat (0 + Z.of_nat k)) with k by lia. done.
Qed.

(** When the counter has reached the number of agents, every batch was
    issued once and in order, every agent was sent one EXIT, nothing is
    in transit, and the cells written are those of the batches. *)
Lemma coordinated_drained (s : system) :
  coordinated p m interp c s ->
  closed_workers (sys_master s) = num_workers (sys_master s) ->
  starts (sys_log s) = task_of p <$> arange 0 (p_n_batches p)
  /\ length (exits (sys_log s)) = length (agents s)
  /\ (forall w, (w < length (agents s))%nat ->
        length (exits_to (rank_of w) (sys_log s)) = 1%nat)
  /\ (forall d, is_stokes_db d = true ->
        cells_written d (sys_log s) ≡ₚ concat (all_batches p)).
Proof.
  intros Hco Hcw.
  pose proof (co_closed _ _ _ _ _ Hco) as Hcl.
  pose proof (co_workers _ _ _ _ _ Hco) as Hw.
  assert (Hall : Forall (fun a => is_closed a = true) (agents s))
    by (apply count_if_all; lia).
  destruct (closed_no_flight p interp _ (co_agents _ _ _ _ _ Hco) Hall)
    as [Hfl Hte].
  pose proof (co_some_agent _ _ _ _ _ Hco) as Hsome.
  destruct (lookup_lt_is_Some_2 (agents s) 0 Hsome) as [a0 Ha0].
  destruct (co_exit_each _ _ _ _ _ Hco 0%nat a0 Ha0) as [_ Hlast].
  specialize (Hlast (Forall_lookup_1 _ _ _ _ Hte Ha0)).
  split_and!.
  - by rewrite (co_starts _ _ _ _ _ Hco), Hlast.
  - rewrite (co_exits _ _ _ _ _ Hco). by apply all_count_if.
  - intros w Hlt. destruct (lookup_lt_is_Some_2 (agents s) w Hlt) as [a Ha].
    destruct (co_exit_each _ _ _ _ _ Hco w a Ha) as [-> _].
    by rewrite (Forall_lookup_1 _ _ _ _ Hte Ha).
  - intros d Hd.
    destruct (co_done _ _ _ _ _ Hco) as (done & Hperm & Hcells & _).
    rewrite Hfl, app_nil_r, Hlast in Hperm.
    rewrite (Hcells d Hd), Hperm.
    by rewrite (arange_bind_batches (fits_count_X _ _ _ Hfits)).
Qed.

Lemma coordinated_closed_le (s : system) :
  coordinated p m interp c s ->
  0 <= closed_workers (sys_master s) <= num_workers (sys_master s).
Proof.
  intros Hco. rewrite (co_closed _ _ _ _ _ Hco), (co_workers _ _ _ _ _ Hco).
  pose proof (count_if_le is_closed (agents s)). lia.
Qed.

(** From every state of the loop the processes can run on to the end. *)
Lemma coordinated_completes (s : system) :
  coordinated p m interp c s -> sys_status s = Running ->
  exists sched s', exec sched s = Some s' /\ sys_status s' = Finished.
Proof.
  remember (work_left s) as n eqn:Hn. revert s Hn.
  induction n as [n IH] using lt_wf_ind. intros s -> Hco Hrun.
  destruct (coordinated_progress s Hco Hrun) as (act & s1 & Hstep).
  destruct (step_coordinated p m interp c act s s1 Hfits Hco Hrun Hstep)
    as [[Hrun1 Hco1]|[-> (_ & _ & stokes & _ & ->)]].
  - destruct (IH _ (step_work_left _ _ _ Hstep) s1 eq_refl Hco1 Hrun1)
      as (sched & s' & Hexec & Hfin).
    exists (act :: sched), s'. cbn [exec]. by rewrite Hstep.
  - exists [Finish]. eexists. cbn [exec]. rewrite Hstep. done.
Qed.

End Runs.

Section Distributed.
Context `{Ph : Physics}.

Lemma finish_events_quiet (st : master) stokes :
  starts (finish_events st stokes) = []
  /\ exits (finish_events st stokes) = []
  /\ (forall d, is_stokes_db d = true ->
        cells_written d (finish_events st stokes) = [])
  /\ is_store_closed (finish_events st stokes) = true.
Proof.
  unfold finish_events. destruct (interpolate_model st); split_and!; try done.
  all: intros d Hd; by destruct d.
Qed.

Lemma starts_app (t1 t2 : list event) :
  starts (t1 ++ t2) = starts t1 ++ starts t2.
Proof. apply omap_app. Qed.

Lemma exits_app (t1 t2 : list event) :
  exits (t1 ++ t2) = exits t1 ++ exits t2.
Proof. apply omap_app. Qed.

Lemma sum_list_with_replicate {A} (f : A -> nat) n a :
  sum_list_with f (replicate n a) = (n * f a)%nat.
Proof. induction n as [|n IH]; simpl; [done|]. rewrite IH. lia. Qed.

(** Where a run of all ranks on a loaded grid can be. *)
Lemma mpi_run_reaches (self : Iterator) (m : Model) rangex rangey sz sched s :
  model self = Some m -> grid_loaded m = true ->
  range_in_grid rangex (nx m) = true -> range_in_grid rangey (ny m) = true ->
  size self = Some sz -> 2 <= sz ->
  mpi_run self rangex rangey sched = Some s ->
  exists p,
    make_partition (nx m) (ny m) rangex rangey (batch self) = inr p
    /\ fits p m (cubes_of_model m)
    /\ (length sched + work_left s
        <= 1 + 4 * Z.to_nat (p_n_batches p) + 5 * Z.to_nat (sz - 1))%nat
    /\ ((sys_status s = Running
         /\ coordinated p m (nonmpi_interpolate m) (cubes_of_model m) s
         /\ num_workers (sys_master s) = sz - 1)
        \/ (exists s1,
              sys_status s1 = Running
              /\ coordinated p m (nonmpi_interpolate m) (cubes_of_model m) s1
              /\ num_workers (sys_master s1) = sz - 1
              /\ finished_from s1 s)).
Proof.
  intros Hm Hg Hrx Hry Hsz Hsz2. unfold mpi_run.
  destruct (mpi_start self rangex rangey) as [s0|] eqn:Hs0; [|done].
  intros Hexec.
  destruct (mpi_start_coordinated self m rangex rangey sz s0
              Hm Hg Hrx Hry Hsz Hsz2 Hs0) as (p & Hp & Hfits & Hco & Heq).
  exists p. split; [done|]. split; [done|].
  assert (Hrun0 : sys_status s0 = Running) by (by rewrite Heq).
  assert (HW0 : num_workers (sys_master s0) = sz - 1) by (by rewrite Heq).
  split.
  - pose proof (exec_work_left _ _ _ Hexec) as Hwl.
    assert (work_left s0
            = (1 + 4 * Z.to_nat (p_n_batches p) + 5 * Z.to_nat (sz - 1))%nat)
      as <-; [|done].
    rewrite Heq. unfold work_left. simpl.
    rewrite sum_list_with_replicate, Z.sub_0_r. unfold agent_weight. simpl. lia.
  - pose proof (exec_agents_length _ _ _ Hexec) as Hlen.
    assert (Hn0 : Z.of_nat (length (agents s0)) = sz - 1).
    { rewrite Heq. simpl. rewrite length_replicate. lia. }
    destruct (exec_coordinated p m _ _ Hfits sched s0 s Hco Hrun0 Hexec)
      as [[Hrun Hco']|(s1 & Hrun1 & Hco1 & Hfin)].
    + left. split; [done|]. split; [done|].
      rewrite (co_workers _ _ _ _ _ Hco'). lia.
    + right. exists s1. split_and!; try done.
      rewrite (co_workers _ _ _ _ _ Hco1).
      destruct Hfin as (_ & _ & st & _ & ->). simpl in Hlen. lia.
Qed.

End Distributed.

Lemma ran_Some {A} (o : option A) : ran o = true -> exists a, o = Some a.
Proof. destruct o as [a|]; [by exists a|done]. Qed.

Section Dispatch.
Context `{Ph : Physics}.

Lemma init_mpi_process env batch n_batches :
  _mpi_available env = true -> comm_size env <> 1 ->
  __init__ env true batch n_batches = ret (mpi_process env batch n_batches).
Proof.
  intros Ha Hs. unfold __init__. rewrite Ha. simpl.
  by destruct (Z.eqb_spec (comm_size env) 1).
Qed.

(** C6: in a distributed run on a loaded grid with [sz - 1] agents and
    the [B] batches of the partition, the coordinator never raises; while
    it is in its loop the closed-worker counter is below the number of
    agents exactly when the loop goes on, some process can always move and
    the run can be driven to its end, which every schedule reaches within
    [1 + 4 B + 5 W] moves; once the counter equals the number of agents
    the START messages sent are those of the batches 0, ..., B - 1 in
    this order, each once and with the coordinates of its batch, and
    every agent was sent exactly one EXIT; and the store is closed only in
    the final state, with the counter at the number of agents. *)
Theorem dispatch_issues_every_batch_and_exit
    (self : Iterator) (m : Model) rangex rangey sz sched (s : system) :
  model self = Some m -> grid_loaded m = true ->
  range_in_grid rangex (nx m) = true -> range_in_grid rangey (ny m) = true ->
  size self = Some sz -> 2 <= sz ->
  mpi_run self rangex rangey sched = Some s ->
  exists p,
    make_partition (nx m) (ny m) rangex rangey (batch self) = inr p
    /\ num_workers (sys_master s) = sz - 1
    /\ 0 <= closed_workers (sys_master s) <= sz - 1
    /\ (forall e, sys_status s <> Failed e)
    /\ (sys_status s = Running ->
        (closed_workers (sys_master s) < sz - 1 <-> step Finish s = None)
        /\ (exists act s', step act s = Some s')
        /\ (exists sched' s',
              exec sched' s = Some s' /\ sys_status s' = Finished))
    /\ (length sched
        <= 1 + 4 * Z.to_nat (p_n_batches p) + 5 * Z.to_nat (sz - 1))%nat
    /\ (closed_workers (sys_master s) = sz - 1 ->
        starts (sys_log s) = task_of p <$> arange 0 (p_n_batches p)
        /\ length (exits (sys_log s)) = Z.to_nat (sz - 1)
        /\ forall w, (w < Z.to_nat (sz - 1))%nat ->
             length (exits_to (rank_of w) (sys_log s)) = 1%nat)
    /\ (is_store_closed (sys_log s) = true ->
        sys_status s = Finished /\ closed_workers (sys_master s) = sz - 1).
Proof.
  intros Hm Hg Hrx Hry Hsz Hsz2 Hrun.
  destruct (mpi_run_reaches self m rangex rangey sz sched s
              Hm Hg Hrx Hry Hsz Hsz2 Hrun)
    as (p & Hp & Hfits & Hlen & [(Hst & Hco & HW)|(s1 & Hst1 & Hco1 & HW1 & Hfin)]).
  - exists p. split; [done|]. split; [done|].
    pose proof (coordinated_closed_le _ _ _ _ _ Hco) as Hle.
    rewrite HW in Hle.
    pose proof (co_workers _ _ _ _ _ Hco) as Hags.
    split; [done|]. split; [by rewrite Hst|]. split_and!.
    + intros _. split_and!.
      * simpl. rewrite Hst, HW.
        destruct (Z.ltb_spec (closed_workers (sys_master s)) (sz - 1));
          split; try done; lia.
      * by eapply coordinated_progress.
      * by eapply coordinated_completes.
    + lia.
    + intros Hcl.
      destruct (coordinated_drained _ _ _ _ Hfits s Hco) as (H1 & H2 & H3 & _);
        [lia|].
      split; [done|]. split; [lia|]. intros w Hw. apply H3. lia.
    + intros Hclosed. by rewrite (co_open _ _ _ _ _ Hco) in Hclosed.
  - exists p. split; [done|].
    destruct Hfin as (Hcw & Hall & stokes & Hs & ->).
    cbn [sys_status sys_master sys_log agents] in *.
    destruct (finish_events_quiet (sys_master s1) stokes) as (Q1 & Q2 & _ & Q4).
    pose proof (co_workers _ _ _ _ _ Hco1) as Hags.
    split; [done|]. split; [lia|]. split; [done|]. split; [done|].
    split; [lia|]. split; [|intros _; split; [done|lia]].
    intros _.
    destruct (coordinated_drained _ _ _ _ Hfits s1 Hco1 Hcw) as (H1 & H2 & H3 & _).
    rewrite starts_app, exits_app, Q1, Q2, !app_nil_r.
    split; [done|]. split; [lia|]. intros w Hw.
    unfold exits_to. rewrite exits_app, Q2, app_nil_r. apply H3. lia.
Qed.

End Dispatch.

(** The scenario of the specification: three agents and seven batches
    give exactly seven START messages, for the batches 0 to 6 in this
    order, and three EXIT messages, one for each of the ranks 1, 2
    and 3. *)
Lemma dispatch_issues_every_batch_and_exit_witness :
  match mpi_run toy_3_agents_7_batches (Some (0, 7)) (Some (0, 1))
          toy_schedule_3_7 with
  | Some s =>
      sys_status s = Finished
      /\ starts (sys_log s)
         = [(0, [0], [0]); (1, [1], [0]); (2, [2], [0]); (3, [3], [0]);
            (4, [4], [0]); (5, [5], [0]); (6, [6], [0])]
      /\ length (exits (sys_log s)) = 3%nat
      /\ forall w, (w < 3)%nat ->
           length (exits_to (rank_of w) (sys_log s)) = 1%nat
  | None => False
  end.
Proof.
  destruct (ran_Some (mpi_run toy_3_agents_7_batches (Some (0, 7))
                        (Some (0, 1)) toy_schedule_3_7))
    as [s Hs]; [vm_compute; reflexivity|].
  assert (Hfin : (fun s => (sys_status s, closed_workers (sys_master s)))
                 <$> mpi_run toy_3_agents_7_batches (Some (0, 7))
                       (Some (0, 1)) toy_schedule_3_7
                 = Some (Finished, 4 - 1)) by (vm_compute; reflexivity).
  rewrite Hs in Hfin |- *. injection Hfin as Hfin Hcl.
  destruct (dispatch_issues_every_batch_and_exit
              toy_3_agents_7_batches (toy_grid "vz" None)
              (Some (0, 7)) (Some (0, 1)) 4 toy_schedule_3_7 s)
    as (p & Hp & _ & _ & _ & _ & _ & Hdone & _);
    [reflexivity|reflexivity|reflexivity|reflexivity|reflexivity|lia|exact Hs|].
  destruct (Hdone Hcl) as (H1 & H2 & H3).
  assert (Hb : task_of p <$> arange 0 (p_n_batches p)
               = [(0, [0], [0]); (1, [1], [0]); (2, [2], [0]); (3, [3], [0]);
                  (4, [4], [0]); (5, [5], [0]); (6, [6], [0])]).
  { revert Hp. vm_compute. by intros [= <-]. }
  rewrite Hb in H1. split; [done|]. split; [exact H1|]. split; [exact H2|].
  exact H3.
Defined.

(** * Every requested pixel is written once *)

Lemma filter_eq_once {A} `{EqDecision A} (l : list A) x :
  NoDup l -> x ∈ l -> length (filter (fun y => y = x) l) = 1%nat.
Proof.
  induction 1 as [|a l Ha Hnd IH]; intros Hin; [by apply elem_of_nil in Hin|].
  rewrite filter_cons. case_decide as Heq.
  - subst a. simpl. f_equal.
    assert (filter (fun y => y = x) l = []) as ->; [|done].
    apply list_eq. intros i. rewrite lookup_nil.
    destruct (filter (fun y => y = x) l !! i) as [y|] eqn:Hy; [|done].
    apply list_elem_of_lookup_2, list_elem_of_filter in Hy as [-> Hy]. done.
  - apply elem_of_cons in Hin as [->|Hin]; [done|]. by apply IH.
Qed.

Section WrittenOnce.
Context `{Ph : Physics}.

Lemma times_written_once d x y (tr : list event) (l : list (Z * Z)) :
  cells_written d tr ≡ₚ l -> NoDup l -> (x, y) ∈ l ->
  times_written d x y tr = 1%nat.
Proof.
  intros Hperm Hnd Hin. unfold times_written. rewrite Hperm.
  by apply filter_eq_once.
Qed.

Lemma until_close_app (t1 t2 : list event) :
  is_store_closed t1 = false -> until_close (t1 ++ t2) = t1 ++ until_close t2.
Proof.
  induction t1 as [|ev t1 IH]; intros H; [done|]. simpl in *.
  apply orb_false_elim in H as [Hev H].
  destruct ev as [| | | | |f|]; try (by rewrite IH).
  destruct f; [done|]. by rewrite IH.
Qed.

Lemma nonmpi_pixel_writes (self : Iterator) (m : Model) interpolate iy ix :
  Forall (fun ev => is_write ev = true)
         (trace (nonmpi_pixel self m interpolate iy ix)).
Proof.
  unfold nonmpi_pixel.
  apply bind_Forall; [by destruct (cubes self)|intros c].
  apply bind_Forall.
  { unfold at_pixel. destruct (shape c) as [[nz cy] cx].
    by destruct (norm_index cy iy), (norm_index cx ix). }
  intros col. apply bind_Forall.
  { destruct interpolate; [|done]. destruct (synth _ _) as [st mo].
    apply bind_Forall; [apply h5_setitem_writes|done]. }
  intros st.
  repeat (apply bind_Forall; [apply h5_setitem_writes|intros ?]). done.
Qed.

Lemma nonmpi_loop_writes (self : Iterator) (m : Model) interpolate :
  Forall (fun ev => is_write ev = true)
         (trace (nonmpi_loop self m interpolate)).
Proof.
  unfold nonmpi_loop. apply for_fold_Forall. intros iy s.
  apply for_fold_Forall. intros ix s'.
  apply bind_Forall; [apply nonmpi_pixel_writes|done].
Qed.

Lemma nonmpi_setup_open (m : Model) :
  is_store_closed (nonmpi_setup_events m) = false.
Proof.
  unfold nonmpi_setup_events.
  destruct (String.eqb _ _); destruct (interpolated_model_filename m); done.
Qed.

Lemma requested_on_grid nx ny rangex rangey x y :
  range_in_grid rangex nx = true -> range_in_grid rangey ny = true ->
  requested nx ny rangex rangey x y ->
  (x, y) ∈ raster (arange 0 nx) (arange 0 ny).
Proof.
  intros Hrx Hry [Hx Hy]. apply raster_elem. rewrite !arange_elem.
  split; by eapply in_range_grid.
Qed.

(** A serial session that completes has assigned every cell of the grid
    once in each of the four datasets, all before closing the file. *)
Lemma serial_written_once env batch n_batches (m : Model) rangex rangey d x y :
  succeeded (serial_session env batch n_batches m rangex rangey) = true ->
  is_stokes_db d = true ->
  (x, y) ∈ raster (arange 0 (nx m)) (arange 0 (ny m)) ->
  let tr := trace (serial_session env batch n_batches m rangex rangey) in
  is_store_closed tr = true
  /\ times_written d x y (until_close tr) = 1%nat
  /\ times_written d x y tr = 1%nat.
Proof.
  rewrite serial_session_eq, (nonmpi_work_eq _ m) by done.
  destruct (h5_accepts m); [|done].
  set (self := use_model (sole_process batch n_batches) m).
  pose proof (nonmpi_loop_writes (nonmpi_self self m) m (nonmpi_interpolate m))
    as Hwr.
  pose proof (nonmpi_loop_cells (nonmpi_self self m) m (nonmpi_interpolate m) d)
    as Hcells.
  destruct (result (nonmpi_loop (nonmpi_self self m) m (nonmpi_interpolate m)))
    as [e|[s|]] eqn:Hres; try done.
  destruct (has_f_model_out (nonmpi_self self m)); [|done].
  intros _ Hd Hin. cbn [trace].
  specialize (Hcells _ Hd eq_refl).
  assert (Hopen : is_store_closed
            (nonmpi_setup_events m
             ++ trace (nonmpi_loop (nonmpi_self self m) m (nonmpi_interpolate m)))
          = false).
  { by rewrite is_store_closed_app, nonmpi_setup_open, writes_not_closed. }
  assert (Hnd : NoDup (raster (arange 0 (nx m)) (arange 0 (ny m))))
    by (apply raster_NoDup; apply arange_NoDup).
  split_and!.
  - rewrite !is_store_closed_app. simpl. by rewrite !orb_true_r.
  - rewrite app_assoc, until_close_app by done. simpl.
    eapply times_written_once; [|exact Hnd|exact Hin].
    rewrite !cells_written_app, nonmpi_setup_no_cells, Hcells. simpl.
    by rewrite app_nil_r.
  - eapply times_written_once; [|exact Hnd|exact Hin].
    rewrite !cells_written_app, nonmpi_setup_no_cells, Hcells. simpl.
    by rewrite app_nil_r.
Qed.

End WrittenOnce.

Section WrittenOnceDistributed.
Context `{Ph : Physics}.

(** A distributed run that reaches its end has assigned the cell of
    every requested pixel once in each of the four datasets, and no other
    cell, all before closing the file. *)
Lemma distributed_written_once (self : Iterator) (m : Model) rangex rangey
    sz sched (s : system) d :
  model self = Some m -> grid_loaded m = true ->
  range_in_grid rangex (nx m) = true -> range_in_grid rangey (ny m) = true ->
  size self = Some sz -> 2 <= sz ->
  mpi_run self rangex rangey sched = Some s ->
  sys_status s = Finished -> is_stokes_db d = true ->
  is_store_closed (sys_log s) = true
  /\ cells_written d (until_close (sys_log s))
     ≡ₚ raster (axis_range rangex (nx m)) (axis_range rangey (ny m))
  /\ cells_written d (sys_log s)
     ≡ₚ raster (axis_range rangex (nx m)) (axis_range rangey (ny m)).
Proof.
  intros Hm Hg Hrx Hry Hsz Hsz2 Hrun Hfin Hd.
  destruct (mpi_run_reaches self m rangex rangey sz sched s
              Hm Hg Hrx Hry Hsz Hsz2 Hrun)
    as (p & Hp & Hfits & _ & [(Hst & _)|(s1 & Hst1 & Hco1 & _ & Hfrom)]).
  { by rewrite Hst in Hfin. }
  destruct Hfrom as (Hcw & _ & stokes & _ & ->). simpl.
  destruct (coordinated_drained _ _ _ _ Hfits s1 Hco1 Hcw) as (_ & _ & _ & Hcells).
  specialize (Hcells d Hd).
  rewrite (all_batches_concat _ _ _ _ _ _ Hp) in Hcells.
  destruct (finish_events_quiet (sys_master s1) stokes) as (_ & _ & Qc & Qo).
  split_and!.
  - by rewrite is_store_closed_app, Qo, orb_true_r.
  - rewrite until_close_app by apply (co_open _ _ _ _ _ Hco1).
    rewrite cells_written_app, Hcells.
    assert (cells_written d (until_close (finish_events (sys_master s1) stokes))
            = []) as ->; [|by rewrite app_nil_r].
    unfold finish_events. by destruct (interpolate_model (sys_master s1)).
  - by rewrite cells_written_app, (Qc d Hd), app_nil_r.
Qed.

(** C2: a run that completes, serial or distributed, on a loaded grid
    with the requested rectangle on the grid, has written the cell of
    every requested pixel exactly once in each of the datasets I, Q, U
    and V, and it has done so before the spectra file was closed. *)
Theorem every_requested_pixel_written_once :
  (forall env batch n_batches (m : Model) rangex rangey d x y,
      range_in_grid rangex (nx m) = true ->
      range_in_grid rangey (ny m) = true ->
      succeeded (serial_session env batch n_batches m rangex rangey) = true ->
      is_stokes_db d = true ->
      requested (nx m) (ny m) rangex rangey x y ->
      let tr := trace (serial_session env batch n_batches m rangex rangey) in
      is_store_closed tr = true
      /\ times_written d x y (until_close tr) = 1%nat
      /\ times_written d x y tr = 1%nat)
  /\ (forall (self : Iterator) (m : Model) rangex rangey sz sched s d x y,
        model self = Some m -> grid_loaded m = true ->
        range_in_grid rangex (nx m) = true ->
        range_in_grid rangey (ny m) = true ->
        size self = Some sz -> 2 <= sz ->
        mpi_run self rangex rangey sched = Some s ->
        sys_status s = Finished ->
        is_stokes_db d = true ->
        requested (nx m) (ny m) rangex rangey x y ->
        is_store_closed (sys_log s) = true
        /\ times_written d x y (until_close (sys_log s)) = 1%nat
        /\ times_written d x y (sys_log s) = 1%nat).
Proof.
  split.
  - intros env batch n_batches m rangex rangey d x y Hrx Hry Hok Hd Hreq.
    apply serial_written_once; try done.
    by eapply requested_on_grid.
  - intros self m rangex rangey sz sched s d x y
      Hm Hg Hrx Hry Hsz Hsz2 Hrun Hfin Hd [Hx Hy].
    destruct (distributed_written_once self m rangex rangey sz sched s d)
      as (Hc & H1 & H2); try done.
    assert (Hnd : NoDup (raster (axis_range rangex (nx m))
                           (axis_range rangey (ny m))))
      by (apply raster_NoDup; apply axis_range_NoDup).
    assert (Hin : (x, y) ∈ raster (axis_range rangex (nx m))
                             (axis_range rangey (ny m)))
      by (apply raster_elem; by rewrite !axis_range_elem).
    split_and!; [done| |]; by eapply times_written_once.
Qed.

End WrittenOnceDistributed.

(** A serial session with interpolation on the 64 by 64 grid, and a
    distributed run of two agents on the columns 1 and 2 of the rows 0
    and 1 of the 65 by 64 grid: pixel (1, 0) is written once in the
    dataset I of each. *)
Lemma every_requested_pixel_written_once_witness :
  (let tr := trace (serial_session (Ph := toy) (toy_env 1) 1 None
                      (toy_grid "vz" (Some "model.h5")) None None) in
   is_store_closed tr = true
   /\ times_written stokesI_db 1 0 (until_close tr) = 1%nat
   /\ times_written stokesI_db 1 0 tr = 1%nat)
  /\ match mpi_run toy_2_agents (Some (1, 3)) (Some (0, 2))
            toy_schedule_2 with
     | Some s =>
         is_store_closed (sys_log s) = true
         /\ times_written stokesI_db 1 0 (until_close (sys_log s)) = 1%nat
         /\ times_written stokesI_db 1 0 (sys_log s) = 1%nat
     | None => False
     end.
Proof.
  destruct (every_requested_pixel_written_once (Ph := toy)) as [Hs Hd].
  split.
  - apply (Hs (toy_env 1) 1 None (toy_grid "vz" (Some "model.h5"))
             None None stokesI_db 1 0).
    + reflexivity.
    + reflexivity.
    + vm_compute. reflexivity.
    + reflexivity.
    + split; simpl; lia.
  - destruct (ran_Some (mpi_run toy_2_agents (Some (1, 3)) (Some (0, 2))
                          toy_schedule_2))
      as [s Hrun]; [vm_compute; reflexivity|].
    assert (Hfin : sys_status
                   <$> mpi_run toy_2_agents (Some (1, 3)) (Some (0, 2))
                         toy_schedule_2
                   = Some Finished) by (vm_compute; reflexivity).
    rewrite Hrun in Hfin |- *. injection Hfin as Hfin.
    apply (Hd toy_2_agents toy_resampled
             (Some (1, 3)) (Some (0, 2)) 3 toy_schedule_2 s stokesI_db 1 0).
    + reflexivity.
    + reflexivity.
    + reflexivity.
    + reflexivity.
    + reflexivity.
    + lia.
    + exact Hrun.
    + exact Hfin.
    + reflexivity.
    + split; simpl; lia.
Defined.

(** * The resampled-model dataset *)

Section ModelDataset.
Context `{Ph : Physics}.

Lemma no_create_shape (tr : list event) :
  Forall (fun ev => is_create ev = false) tr ->
  model_dataset_shape tr = [] /\ model_file_opened tr = false.
Proof.
  induction 1 as [|ev tr Hev _ [IH1 IH2]]; [done|].
  destruct ev; try done.
Qed.

Lemma writes_no_create (tr : list event) :
  Forall (fun ev => is_write ev = true) tr ->
  Forall (fun ev => is_create ev = false) tr.
Proof. intros H. eapply Forall_impl; [exact H|]. by intros []. Qed.

Lemma model_dataset_shape_app (t1 t2 : list event) :
  model_dataset_shape (t1 ++ t2)
  = model_dataset_shape t1 ++ model_dataset_shape t2.
Proof. apply omap_app. Qed.

Lemma model_file_opened_app (t1 t2 : list event) :
  model_file_opened (t1 ++ t2) = model_file_opened t1 || model_file_opened t2.
Proof. apply existsb_app. Qed.

(** The coordinator's loop and what follows it create nothing. *)
Lemma step_log act (s s' : system) :
  step act s = Some s' ->
  exists tr, sys_log s' = sys_log s ++ tr
             /\ Forall (fun ev => is_create ev = false) tr.
Proof.
  destruct act as [w| |w]; simpl.
  - destruct (sys_status s); try done.
    destruct (agents s !! w) as [a|]; [|done].
    destruct (closed_workers _ <? num_workers _); [|done].
    destruct (outbox a) as [|msg rest]; [done|]. intros [= <-]. simpl.
    eexists. split; [done|].
    destruct (master_recv_cases (sys_master s) w msg)
      as [e He Hwr|ix iy args _ _ _ _ He|_ _ He
          |k indX indY model stokes _ _ He Hwr|_ He|_ He];
      rewrite ?He; try by apply writes_no_create.
    all: by repeat constructor.
  - destruct (sys_status s); try done.
    destruct (closed_workers _ <? num_workers _); [done|].
    intros [= <-]. simpl. eexists. split; [done|].
    unfold master_finish.
    destruct (m_stokes (sys_master s)); [|done].
    destruct (interpolate_model (sys_master s)); by repeat constructor.
  - destruct (agents s !! w) as [a|]; [|done].
    destruct (agent_step a); [|done]. intros [= <-]. simpl.
    exists []. by rewrite app_nil_r.
Qed.

Lemma exec_log sched (s s' : system) :
  exec sched s = Some s' ->
  exists tr, sys_log s' = sys_log s ++ tr
             /\ Forall (fun ev => is_create ev = false) tr.
Proof.
  revert s. induction sched as [|act sched IH]; intros s; simpl.
  - intros [= ->]. exists []. by rewrite app_nil_r.
  - destruct (step act s) as [s1|] eqn:Hstep; [|done].
    intros Hexec. apply IH in Hexec as (tr2 & -> & H2).
    apply step_log in Hstep as (tr1 & -> & H1).
    exists (tr1 ++ tr2). rewrite app_assoc. split; [done|].
    by apply Forall_app.
Qed.

(** C7, a defect of the distributed path: on a model whose datasets
    h5py accepts and for which interpolation is requested, the serial
    path creates the resampled-model dataset with the shape
    (ny, nx, 7, n_tau) of the specification, but the distributed path
    creates it with shape (7, ny, nx, n_tau), which is never the same
    shape. In both paths the dataset and its file exist only when
    interpolation was requested. *)
Theorem model_dataset_layouts :
  (forall (self : Iterator) (m : Model) rangex rangey,
      model self = Some m -> h5_accepts m = true ->
      let tr := trace (nonmpi_work self rangex rangey) in
      model_dataset_shape tr
      = (if nonmpi_interpolate m then [[ny m; nx m; 7; n_tau m]] else [])
      /\ model_file_opened tr = nonmpi_interpolate m)
  /\ (forall (self : Iterator) (m : Model) rangex rangey sched s,
        model self = Some m ->
        mpi_run self rangex rangey sched = Some s ->
        model_dataset_shape (sys_log s)
        = (if nonmpi_interpolate m then [[7; ny m; nx m; n_tau m]] else [])
        /\ model_file_opened (sys_log s) = nonmpi_interpolate m
        /\ (nonmpi_interpolate m = true ->
            model_dataset_shape (sys_log s)
            <> [[ny m; nx m; 7; n_tau m]])).
Proof.
  split.
  - intros self m rangex rangey Hm Hacc. simpl.
    rewrite (nonmpi_work_eq _ m) by done. rewrite Hacc.
    pose proof (nonmpi_loop_writes (nonmpi_self self m) m (nonmpi_interpolate m))
      as Hwr.
    apply writes_no_create, no_create_shape in Hwr as [Hw1 Hw2].
    assert (Hsetup : model_dataset_shape (nonmpi_setup_events m)
                     = (if nonmpi_interpolate m
                        then [[ny m; nx m; 7; n_tau m]] else [])
                     /\ model_file_opened (nonmpi_setup_events m)
                        = nonmpi_interpolate m).
    { unfold nonmpi_setup_events, nonmpi_interpolate.
      destruct (String.eqb _ _); destruct (interpolated_model_filename m); done. }
    destruct Hsetup as [Hs1 Hs2].
    destruct (result (nonmpi_loop _ _ _)) as [e|[s|]]; simpl;
      [| destruct (has_f_model_out _); simpl |];
      rewrite ?model_dataset_shape_app, ?model_file_opened_app,
        ?Hs1, ?Hs2, ?Hw1, ?Hw2; simpl;
      rewrite ?app_nil_r, ?orb_false_r; done.
  - intros self m rangex rangey sched s Hm. unfold mpi_run.
    destruct (mpi_start self rangex rangey) as [s0|] eqn:Hs0; [|done].
    pose proof (mpi_start_accepted self m rangex rangey s0 Hm Hs0) as Hacc.
    revert Hs0. unfold mpi_start.
    rewrite (mpi_master_setup_eq _ m) by done.
    destruct (make_partition _ _ _ _ _) as [e|p]; [done|]. rewrite Hacc.
    destruct (size self) as [sz|]; [|done]. simpl. intros [= <-].
    intros Hexec. apply exec_log in Hexec as (tr & -> & Htr). simpl.
    apply no_create_shape in Htr as [H1 H2].
    rewrite model_dataset_shape_app, model_file_opened_app, H1, H2.
    rewrite app_nil_r, orb_false_r.
    destruct (h5_accepts_grid m Hacc) as (_ & Hny & _).
    unfold mpi_setup_events, nonmpi_interpolate.
    destruct (String.eqb _ _); destruct (interpolated_model_filename m);
      simpl; split_and!; try done; intros _ [= H]; lia.
Qed.

End ModelDataset.

(** On the grid of 65 columns and 64 rows with three resampled depth
    points, the serial path creates the dataset with shape
    (64, 65, 7, 3) and the distributed path with shape (7, 64, 65, 3). *)
Lemma model_dataset_layouts_witness :
  model_dataset_shape
    (trace (nonmpi_work (use_model (sole_process 1 None) toy_resampled)
              None None))
  = [[64; 65; 7; 3]]
  /\ match mpi_run toy_2_agents (Some (1, 3)) (Some (0, 2))
            toy_schedule_2 with
     | Some s =>
         model_dataset_shape (sys_log s) = [[7; 64; 65; 3]]
         /\ model_dataset_shape (sys_log s) <> [[64; 65; 7; 3]]
     | None => False
     end.
Proof.
  destruct (model_dataset_layouts (Ph := toy)) as [Hs Hd]. split.
  - apply (Hs (use_model (sole_process 1 None) toy_resampled)
              toy_resampled None None); reflexivity.
  - destruct (ran_Some (mpi_run toy_2_agents (Some (1, 3)) (Some (0, 2))
                          toy_schedule_2))
      as [s Hrun]; [vm_compute; reflexivity|].
    rewrite Hrun.
    destruct (Hd toy_2_agents toy_resampled
                (Some (1, 3)) (Some (0, 2)) toy_schedule_2 s)
      as (H1 & _ & H3); [reflexivity|exact Hrun|].
    split; [exact H1|]. apply H3. reflexivity.
Defined.

(** C7 at a failing input: on the grid of 65 columns and 64 rows with
    three resampled depth points the distributed path creates the
    dataset with shape (7, 64, 65, 3), not (64, 65, 7, 3). *)
Example mpi_model_dataset_is_channel_first :
  match mpi_start toy_2_agents (Some (1, 3)) (Some (0, 2)) with
  | Some s0 =>
      model_dataset_shape (sys_log s0) = [[7; 64; 65; 3]]
      /\ model_dataset_shape (sys_log s0)
         <> [[ny toy_resampled; nx toy_resampled; 7; n_tau toy_resampled]]
  | None => False
  end.
Proof. vm_compute. split; [reflexivity|discriminate]. Qed.

(** * A sub-rectangle beyond the grid *)


Section BeyondGrid.
Context `{Ph : Physics}.



End BeyondGrid.



(** * The constructor parameter [n_batches] *)

Section StopAfter.
Context `{Ph : Physics}.

Lemma master_recv_set_stop (st : master) src msg v :
  master_recv (master_set_stop st v) src msg
  = Outcome (trace (master_recv st src msg))
            (match result (master_recv st src msg) with
             | inl e => inl e
             | inr st' => inr (master_set_stop st' v)
             end).
Proof.
  unfold master_recv. destruct (msg_tag msg); try reflexivity.
  - unfold master_on_ready.
    cbn [master_set_stop task_index m_div m_self m_model interpolate_model
         set_stop cubes].
    destruct (task_index st <? p_n_batches (m_div st)); [|reflexivity].
    unfold getitem, getattr.
    destruct (divX (m_div st) !! Z.to_nat (task_index st)); [|reflexivity].
    rewrite !bind_ret_l.
    destruct (divY (m_div st) !! Z.to_nat (task_index st)); [|reflexivity].
    rewrite !bind_ret_l.
    destruct (cubes (m_self st)) as [c|]; [|reflexivity].
    rewrite !bind_ret_l. unfold at_pixels.
    destruct (shape c) as [[nz cy] cx].
    destruct (mapM (norm_index cy) _); [|reflexivity].
    destruct (mapM (norm_index cx) _); [|reflexivity].
    rewrite !bind_ret_l. reflexivity.
  - unfold master_on_done. destruct (msg_data msg); try reflexivity.
    cbn [master_set_stop set_stokes m_model interpolate_model].
    unfold bind.
    match goal with
    | |- context [result ?X] => destruct (result X); [reflexivity|]
    end.
    cbn [trace result].
    match goal with
    | |- context [result (for_fold ?l ?s ?b)] =>
        destruct (result (for_fold l s b)); reflexivity
    end.
Qed.

Lemma step_set_stop act (s : system) v :
  step act (system_set_stop s v)
  = (fun s' => system_set_stop s' v) <$> step act s.
Proof.
  destruct act as [w| |w]; simpl.
  - destruct (sys_status s); try reflexivity.
    destruct (agents s !! w) as [a|]; [|reflexivity].
    destruct (closed_workers _ <? num_workers _); [|reflexivity].
    destruct (outbox a) as [|msg rest]; [reflexivity|].
    rewrite master_recv_set_stop. simpl.
    by destruct (result (master_recv (sys_master s) (rank_of w) msg)).
  - destruct (sys_status s); try reflexivity.
    destruct (closed_workers _ <? num_workers _); reflexivity.
  - destruct (agents s !! w) as [a|]; [|reflexivity].
    destruct (agent_step a); reflexivity.
Qed.

Lemma exec_set_stop sched (s : system) v :
  exec sched (system_set_stop s v)
  = (fun s' => system_set_stop s' v) <$> exec sched s.
Proof.
  revert s. induction sched as [|act sched IH]; intros s; simpl; [done|].
  rewrite step_set_stop. destruct (step act s) as [s1|]; simpl; [|done].
  apply IH.
Qed.

Lemma mpi_start_set_stop (self : Iterator) rangex rangey v :
  mpi_start (set_stop self v) rangex rangey
  = (fun s => system_set_stop s v) <$> mpi_start self rangex rangey.
Proof.
  unfold mpi_start.
  destruct (model self) as [m|] eqn:Hm.
  - rewrite !(mpi_master_setup_eq _ m) by done.
    cbn [set_stop batch size].
    destruct (make_partition _ _ _ _ _) as [e|p]; [reflexivity|].
    destruct (h5_accepts m); [|reflexivity].
    destruct (size self) as [sz|]; [|reflexivity]. simpl.
    unfold system_set_stop, master_set_stop. simpl. do 3 f_equal.
    unfold mpi_self.
    destruct (String.eqb _ _); destruct (interpolated_model_filename m);
      reflexivity.
  - unfold mpi_master_setup. cbn [set_stop model]. by rewrite Hm.
Qed.

Lemma nonmpi_loop_set_stop (self : Iterator) (m : Model) interpolate v :
  nonmpi_loop (set_stop self v) m interpolate = nonmpi_loop self m interpolate.
Proof. reflexivity. Qed.

Lemma nonmpi_work_set_stop (self : Iterator) rangex rangey v :
  erase_stop (nonmpi_work (set_stop self v) rangex rangey)
  = erase_stop (nonmpi_work self rangex rangey).
Proof.
  destruct (model self) as [m|] eqn:Hm.
  - rewrite !(nonmpi_work_eq _ m) by done.
    destruct (h5_accepts m); [|reflexivity].
    assert (Hloop : nonmpi_loop (nonmpi_self (set_stop self v) m) m
                      (nonmpi_interpolate m)
                    = nonmpi_loop (nonmpi_self self m) m (nonmpi_interpolate m)).
    { unfold nonmpi_self.
      destruct (String.eqb _ _); destruct (interpolated_model_filename m);
        reflexivity. }
    assert (Hf : has_f_model_out (nonmpi_self (set_stop self v) m)
                 = has_f_model_out (nonmpi_self self m)).
    { unfold nonmpi_self.
      destruct (String.eqb _ _); destruct (interpolated_model_filename m);
        reflexivity. }
    rewrite Hloop, Hf.
    destruct (result (nonmpi_loop _ _ _)) as [e|[s|]]; try reflexivity.
    destruct (has_f_model_out (nonmpi_self self m)); [|reflexivity].
    unfold erase_stop. simpl. do 2 f_equal. unfold nonmpi_self.
    destruct (String.eqb _ _); destruct (interpolated_model_filename m);
      reflexivity.
  - unfold nonmpi_work. cbn [set_stop model]. by rewrite Hm.
Qed.

(** C10: two runs that differ only in the constructor argument
    [n_batches] behave alike. The constructor fails or succeeds alike; a
    serial session performs the same events and ends alike; and under
    every schedule a distributed run goes through states that are equal
    except for the value stored in the object. *)
Theorem stop_after_n_batches_is_never_read env batch nb1 nb2 (m : Model)
    rangex rangey :
  (forall use_mpi,
      erase_stop (__init__ env use_mpi batch nb1)
      = erase_stop (__init__ env use_mpi batch nb2))
  /\ erase_stop (serial_session env batch nb1 m rangex rangey)
     = erase_stop (serial_session env batch nb2 m rangex rangey)
  /\ forall sched,
       (fun s => system_set_stop s None)
         <$> (mpi_session env batch nb1 m rangex rangey ≫= exec sched)
       = (fun s => system_set_stop s None)
           <$> (mpi_session env batch nb2 m rangex rangey ≫= exec sched).
Proof.
  split_and!.
  - intros use_mpi. unfold __init__.
    destruct use_mpi; [|reflexivity].
    destruct (_mpi_available env); [|reflexivity]. simpl.
    destruct (comm_size env =? 1); reflexivity.
  - rewrite !serial_session_eq.
    change (use_model (sole_process batch nb1) m)
      with (set_stop (use_model (sole_process batch nb2) m) nb1).
    apply nonmpi_work_set_stop.
  - intros sched. unfold mpi_session, __init__.
    destruct (_mpi_available env); [|reflexivity]. simpl.
    destruct (comm_size env =? 1); [reflexivity|]. simpl.
    set (self0 := use_model _ m) at 2.
    change (use_model _ m) with (set_stop self0 nb1) at 1.
    rewrite mpi_start_set_stop.
    destruct (mpi_start self0 rangex rangey) as [s0|]; [|reflexivity]. simpl.
    rewrite (exec_set_stop sched s0 nb1).
    destruct (exec sched s0) as [s|]; reflexivity.
Qed.

End StopAfter.

(** * The serial path against the distributed path *)

(** C1 at two failing inputs, both on the 64 by 64 grid whose
    [vz_type] is not 'vz', restricted to pixel (0, 0), against one agent
    with batches of one pixel. Without interpolation the serial path
    hands [synth] the velocity cube as it is, where the distributed path
    hands [synth2d] the cube divided by the density, so the intensities
    stored for pixel (0, 0) before the spectra file is closed differ.
    With interpolation both runs complete and store the same intensities
    for pixel (0, 0), but the serial path stores the 4096 pixels of the
    grid, among them pixel (1, 0), which is outside the requested
    rectangle and which the distributed path leaves untouched. *)
Theorem serial_and_distributed_stores_differ :
  (let serial := trace (serial_session (toy_env 1) 1 None toy_momentum
                          (Some (0, 1)) (Some (0, 1))) in
   match mpi_run toy_first_pixel (Some (0, 1)) (Some (0, 1))
           toy_schedule_first_pixel with
   | Some s =>
       sys_status s = Finished
       /\ values_written stokesI_db 0 0 (until_close serial)
          = [[inject_Z 4; inject_Z 104]]
       /\ values_written stokesI_db 0 0 (until_close (sys_log s))
          = [[(4 # 3)%Q; (104 # 103)%Q]]
   | None => False
   end)
  /\ (let o := serial_session (toy_env 1) 1 None
                 (toy_grid "vzrho" (Some "model.h5"))
                 (Some (0, 1)) (Some (0, 1)) in
      match mpi_run toy_first_pixel_resampled (Some (0, 1)) (Some (0, 1))
              toy_schedule_first_pixel_resampled with
      | Some s =>
          succeeded o = true /\ sys_status s = Finished
          /\ values_written stokesI_db 0 0 (trace o)
             = values_written stokesI_db 0 0 (sys_log s)
          /\ length (cells_written stokesI_db (trace o)) = 4096%nat
          /\ cells_written stokesI_db (sys_log s) = [(0, 0)]
          /\ times_written stokesI_db 1 0 (trace o) = 1%nat
          /\ times_written stokesI_db 1 0 (sys_log s) = 0%nat
      | None => False
      end).
Proof. vm_compute. repeat split; reflexivity. Qed.

(** With the resampled model asked for and no sub-rectangle the two
    paths store the same spectra, pixel by pixel in the same order: the
    serial branch that interpolates does pass the transformed
    velocity. *)
Example serial_and_distributed_agree_when_interpolating :
  let serial := trace (serial_session (toy_env 1) 1 None
                         (toy_grid "vzrho" (Some "model.h5")) None None) in
  match mpi_run toy_whole_grid None None toy_schedule_whole_grid with
  | Some s =>
      sys_status s = Finished
      /\ length (stored stokesI_db serial) = 4096%nat
      /\ stored stokesI_db serial = stored stokesI_db (sys_log s)
      /\ stored stokesQ_db serial = stored stokesQ_db (sys_log s)
      /\ stored stokesU_db serial = stored stokesU_db (sys_log s)
      /\ stored stokesV_db serial = stored stokesV_db (sys_log s)
  | None => False
  end.
Proof. vm_compute. repeat split; reflexivity. Qed.
